(** * sotc_graphics: parsers, climatology and anomalies of the SLP and SOZ sections

    A shallow embedding of [src/slp.py] (HadSLP2 monthly blocks, the
    index series, the 1981-2010 climatology, the annual anomaly and the
    tiled anomalies), of [src/soz.py] (the ozone grid dump and series) and
    of [src/cmo.py] (the carbon monoxide series), with the parts of
    Python, [datetime] and [numpy] they call.

    Conventions of the embedding:
    - a Python exception is a value of [exn]; code that can raise returns
      [result A];
    - a float is an exact rational ([Q]); a masked-array cell is an
      [option Q], [None] being a masked cell;
    - an n-dimensional array is its shape with its elements in row-major
      order; the Python lists the parsers build are nested lists. *)

From Stdlib Require Import String Ascii Bool Arith ZArith QArith Qround Qfield Lia List.
From Stdlib Require Import DecimalString.
Import ListNotations.

Open Scope nat_scope.

(** ** Python: exceptions, [str.split], [int] *)

Module Py.

(** The exceptions of Python that the sources meet, and [FormatError],
    the error of the spec, which only code modelled from the spec
    raises. *)
Inductive exn : Set :=
| ValueError
| IndexError
| TypeError
| UnboundLocalError
| OverflowError
| FormatError.

Inductive result (A : Type) : Type :=
| Ok (a : A)
| Raise (e : exn).

Arguments Ok {A} a.
Arguments Raise {A} e.

Definition bind {A B : Type} (r : result A) (k : A -> result B) : result B :=
  match r with
  | Ok a => k a
  | Raise e => Raise e
  end.

Fixpoint mapM {A B : Type} (f : A -> result B) (l : list A) : result (list B) :=
  match l with
  | [] => Ok []
  | x :: l' =>
      bind (f x) (fun y => bind (mapM f l') (fun ys => Ok (y :: ys)))
  end.

(** [for i, x in enumerate(l)] threading a state that may raise. *)
Fixpoint for_enumerate {A S : Type} (body : nat -> A -> S -> result S)
         (i : nat) (l : list A) (s : S) : result S :=
  match l with
  | [] => Ok s
  | x :: l' => bind (body i x s) (for_enumerate body (Datatypes.S i) l')
  end.

(** The characters [str.split()] treats as separators: space, and
    tab, newline, vertical tab, form feed, carriage return (9..13). *)
Definition is_space (c : ascii) : bool :=
  let n := nat_of_ascii c in
  (n =? 32)%nat || ((9 <=? n)%nat && (n <=? 13)%nat).

Definition flush (cur : string) : list string :=
  match cur with
  | EmptyString => []
  | _ => [cur]
  end.

(** [cur] is the token being read, empty between tokens. *)
Fixpoint split_from (cur : string) (s : string) : list string :=
  match s with
  | EmptyString => flush cur
  | String c s' =>
      if is_space c then flush cur ++ split_from EmptyString s'
      else split_from (String.append cur (String c EmptyString)) s'
  end.

(** [s.split()] *)
Definition split (s : string) : list string := split_from EmptyString s.

Definition digit_of (c : ascii) : option Z :=
  let n := nat_of_ascii c in
  if ((48 <=? n)%nat && (n <=? 57)%nat)%bool then Some (Z.of_nat (n - 48)) else None.

Fixpoint digits (acc : Z) (s : string) : option Z :=
  match s with
  | EmptyString => Some acc
  | String c s' =>
      match digit_of c with
      | Some d => digits (10 * acc + d) s'
      | None => None
      end
  end.

Definition unsigned (s : string) : result Z :=
  match s with
  | EmptyString => Raise ValueError
  | _ => match digits 0 s with
         | Some z => Ok z
         | None => Raise ValueError
         end
  end.

(** [int(s)] on a token without surrounding blanks: an optional sign and
    at least one decimal digit, anything else is a [ValueError]. *)
Definition int (s : string) : result Z :=
  match s with
  | String "-"%char s' => bind (unsigned s') (fun z => Ok (- z)%Z)
  | String "+"%char s' => unsigned s'
  | _ => unsigned s
  end.

(** [s[n:]] *)
Fixpoint drop (n : nat) (s : string) : string :=
  match n, s with
  | O, _ => s
  | S n', String _ s' => drop n' s'
  | S _, EmptyString => EmptyString
  end.

(** [str(z)], as ["{}".format(z)] writes an integer. *)
Definition str (z : Z) : string := NilZero.string_of_int (Z.to_int z).

End Py.

Import Py.

Notation "x <- c1 ;; c2" := (Py.bind c1 (fun x => c2))
  (at level 61, c1 at next level, right associativity).

(** ** [datetime]: proleptic Gregorian ordinals, as CPython computes them *)

Module Datetime.

Open Scope Z_scope.

Definition MINYEAR : Z := 1.
Definition MAXYEAR : Z := 9999.

Definition _is_leap (year : Z) : bool :=
  (year mod 4 =? 0) && (negb (year mod 100 =? 0) || (year mod 400 =? 0)).

Definition _days_before_year (year : Z) : Z :=
  let y := year - 1 in
  y * 365 + y / 4 - y / 100 + y / 400.

Definition _DAYS_IN_MONTH : list Z :=
  [31; 28; 31; 30; 31; 30; 31; 31; 30; 31; 30; 31].

Definition _days_in_month (year month : Z) : Z :=
  if (month =? 2) && _is_leap year then 29
  else nth (Z.to_nat (month - 1)) _DAYS_IN_MONTH 0.

Definition _days_before_month (year month : Z) : Z :=
  fold_right Z.add 0 (firstn (Z.to_nat (month - 1)) _DAYS_IN_MONTH)
  + (if (2 <? month) && _is_leap year then 1 else 0).

Definition _ymd2ord (year month day : Z) : Z :=
  _days_before_year year + _days_before_month year month + day.

(** A [datetime] at midnight. *)
Record datetime : Set := mkdt { year : Z; month : Z; day : Z }.

(** The integers a C [int] holds. *)
Definition c_int (z : Z) : bool := (- 2 ^ 31 <=? z) && (z <=? 2 ^ 31 - 1).

(** [datetime(year, month, day, 0, 0)]: the arguments are first converted
    to C integers, an [OverflowError] when one does not fit, and then
    checked against their ranges. *)
Definition make (y m d : Z) : result datetime :=
  if c_int y && c_int m && c_int d then
    if (MINYEAR <=? y) && (y <=? MAXYEAR) && (1 <=? m) && (m <=? 12)
       && (1 <=? d) && (d <=? _days_in_month y m)
    then Ok (mkdt y m d)
    else Raise ValueError
  else Raise OverflowError.

Definition toordinal (t : datetime) : Z :=
  _ymd2ord (year t) (month t) (day t).

(** [(a - b).days] for two midnights. *)
Definition sub_days (a b : datetime) : Z := toordinal a - toordinal b.

End Datetime.

(** ** [numpy]: arrays, masked arrays and [genfromtxt] *)

Module Np.

(** An array is its shape and its elements in row-major (C) order. *)
Record ndarray (A : Type) : Type := mkarray { shape : list nat; flat : list A }.

Arguments mkarray {A} shape flat.
Arguments shape {A} n.
Arguments flat {A} n.

Definition prod (dims : list nat) : nat := fold_right Nat.mul 1%nat dims.

Definition size {A : Type} (a : ndarray A) : nat := prod (shape a).

Definition wf {A : Type} (a : ndarray A) : Prop := length (flat a) = size a.

(** A cell of a masked array: [None] is masked. *)
Abbreviation cell := (option Q) (only parsing).

Definition is_masked (c : cell) : bool :=
  match c with
  | None => true
  | Some _ => false
  end.

Definition map_array {A B : Type} (f : A -> B) (a : ndarray A) : ndarray B :=
  mkarray (shape a) (map f (flat a)).

(** An unmasked array seen as a masked array. *)
Definition ma_array (a : ndarray Q) : ndarray cell := map_array (@Some Q) a.

(** [a[i, j, k]] of a 3-D array in row-major order. *)
Definition get3 {A : Type} (d : A) (a : ndarray A) (i j k : nat) : A :=
  nth ((i * nth 1 (shape a) 0%nat + j) * nth 2 (shape a) 0%nat + k) (flat a) d.

(** [a[i, k]] of a 2-D array in row-major order. *)
Definition get2 {A : Type} (d : A) (a : ndarray A) (i k : nat) : A :=
  nth (i * nth 1 (shape a) 0%nat + k) (flat a) d.

(** The 3-D array whose element at [(i, j, k)] is [f i j k]. *)
Definition build3 {A : Type} (n0 n1 n2 : nat) (f : nat -> nat -> nat -> A) : ndarray A :=
  mkarray [n0; n1; n2]
    (flat_map (fun i => flat_map (fun j => map (f i j) (seq 0 n2)) (seq 0 n1)) (seq 0 n0)).

(** [np.arange(start, stop, step)] on floats: [ceil((stop - start) / step)]
    values [start + i * step]. *)
Definition arange (start stop step : Q) : list Q :=
  map (fun i => (start + inject_Z (Z.of_nat i) * step)%Q)
      (seq 0 (Z.to_nat (Qceiling ((stop - start) / step)%Q))).

(** [np.ma.zeros(shape)] *)
Definition ma_zeros (dims : list nat) : ndarray cell :=
  mkarray dims (repeat (Some 0%Q) (prod dims)).

(** [a.reshape(-1, d1, ..., dk)]: the leading dimension is inferred; numpy
    refuses when the known dimensions multiply to zero or do not divide the
    number of elements. *)
Definition reshape_infer {A : Type} (a : ndarray A) (dims : list nat) : result (ndarray A) :=
  let known := prod dims in
  if (known =? 0)%nat then Raise ValueError
  else if (size a mod known =? 0)%nat
       then Ok (mkarray (size a / known :: dims) (flat a))
       else Raise ValueError.

(** The entries [a[0, j], a[1, j], ...] met when axis 0 is collapsed, [j]
    being the row-major position in the remaining axes. *)
Definition column (a : ndarray cell) (j : nat) : list cell :=
  let inner := prod (tl (shape a)) in
  map (fun k => nth (k * inner + j)%nat (flat a) None) (seq 0 (hd 0%nat (shape a))).

Definition reduce_axis0 {B : Type} (f : list cell -> B) (a : ndarray cell) : result (ndarray B) :=
  match shape a with
  | [] => Raise ValueError
  | _ :: rest => Ok (mkarray rest (map (fun j => f (column a j)) (seq 0 (prod rest))))
  end.

Definition filled (v : Q) (c : cell) : Q :=
  match c with
  | Some x => x
  | None => v
  end.

(** [np.ma.count] of a run of cells: the non-masked ones. *)
Definition count1 (col : list cell) : nat :=
  length (filter (fun c => negb (is_masked c)) col).

(** [np.ma.sum] of a run of cells: masked cells are filled with 0. *)
Definition sum1 (col : list cell) : Q :=
  fold_left Qplus (map (filled 0%Q) col) 0%Q.

(** [np.ma.mean] of a run of cells: sum over count, masked when the count
    is zero. *)
Definition mean1 (col : list cell) : cell :=
  if (count1 col =? 0)%nat then None
  else Some (sum1 col / inject_Z (Z.of_nat (count1 col)))%Q.

(** [np.ma.mean(a, axis=0)] and [np.ma.count(a, axis=0)] *)
Definition ma_mean0 (a : ndarray cell) : result (ndarray cell) := reduce_axis0 mean1 a.
Definition ma_count0 (a : ndarray cell) : result (ndarray nat) := reduce_axis0 count1 a.

Definition mask_if (b : bool) (c : cell) : cell := if b then None else c.

(** [np.ma.masked_where(cond, a)]: the shapes must agree; the new mask is
    the condition or-ed with the mask [a] already has. *)
Definition masked_where (cond : ndarray bool) (a : ndarray cell) : result (ndarray cell) :=
  if list_eq_dec Nat.eq_dec (shape cond) (shape a)
  then Ok (mkarray (shape a) (map (fun p => mask_if (fst p) (snd p)) (combine (flat cond) (flat a))))
  else Raise IndexError.

(** [a <= v] on a masked array, read as a [masked_where] condition: a
    masked entry of the condition counts as true. *)
Definition ma_le (a : ndarray cell) (v : Q) : ndarray bool :=
  map_array (fun c => match c with
                      | Some x => if Qle_bool x v then true else false
                      | None => true
                      end) a.

Definition cell_sub (x y : cell) : cell :=
  match x, y with
  | Some u, Some v => Some (u - v)%Q
  | _, _ => None
  end.

(** The rows of a 2-D array with [c] columns, as iteration yields them:
    [r] runs of [c] elements. *)
Fixpoint chunks {A : Type} (c r : nat) (l : list A) : list (list A) :=
  match r with
  | 0 => []
  | S r' => firstn c l :: chunks c r' (skipn c l)
  end.

(** The shape two shapes broadcast to, both read from the last axis: two
    lengths go together when they are equal or one of them is 1, and the
    shorter shape is completed with axes of length 1. *)
Fixpoint broadcast_rev (s t : list nat) : option (list nat) :=
  match s, t with
  | [], _ => Some t
  | _, [] => Some s
  | a :: s', b :: t' =>
      match broadcast_rev s' t' with
      | Some u =>
          if a =? b then Some (a :: u)
          else if a =? 1 then Some (b :: u)
          else if b =? 1 then Some (a :: u)
          else None
      | None => None
      end
  end.

Definition broadcast_shapes (s t : list nat) : option (list nat) :=
  option_map (@rev nat) (broadcast_rev (rev s) (rev t)).

(** The elements of an array of shape [s] seen under the shape [t] it
    broadcasts to, [s] having as many axes as [t]: along an axis of
    length 1 the elements are repeated. *)
Fixpoint stretch {A : Type} (s t : list nat) (xs : list A) : list A :=
  match s, t with
  | a :: s', b :: t' =>
      if a =? b then concat (map (stretch s' t') (chunks (prod s') a xs))
      else concat (repeat (stretch s' t' xs) b)
  | _, _ => xs
  end.

Definition broadcast_to {A : Type} (a : ndarray A) (t : list nat) : list A :=
  stretch (repeat 1 (length t - length (shape a)) ++ shape a) t (flat a).

(** [a - b] on masked arrays, masked where either operand is.  Operands
    of one shape are subtracted entry by entry; operands of different
    shapes are first broadcast to their common shape, and it is a
    [ValueError] when they have none. *)
Definition ma_sub (a b : ndarray cell) : result (ndarray cell) :=
  if list_eq_dec Nat.eq_dec (shape a) (shape b)
  then Ok (mkarray (shape a) (map (fun p => cell_sub (fst p) (snd p)) (combine (flat a) (flat b))))
  else
    match broadcast_shapes (shape a) (shape b) with
    | Some t =>
        Ok (mkarray t (map (fun p => cell_sub (fst p) (snd p))
                           (combine (broadcast_to a t) (broadcast_to b t))))
    | None => Raise ValueError
    end.

(** [np.tile(a, (reps, 1, 1))] for [a] of three dimensions: [reps] copies
    laid one after the other along axis 0. *)
Definition tile0 {A : Type} (a : ndarray A) (reps : nat) : ndarray A :=
  mkarray ((reps * hd 0 (shape a))%nat :: tl (shape a)) (concat (repeat (flat a) reps)).

(** [a[0:n, :, :]] *)
Definition slice0 {A : Type} (a : ndarray A) (n : nat) : ndarray A :=
  let n' := Nat.min n (hd 0%nat (shape a)) in
  mkarray (n' :: tl (shape a)) (firstn (n' * prod (tl (shape a))) (flat a)).

(** [np.swapaxes(a, 1, 2)] on a 3-D array; with fewer dimensions it is an
    axis error (a [ValueError]). *)
Definition swapaxes12 {A : Type} (d : A) (a : ndarray A) : result (ndarray A) :=
  match shape a with
  | [n0; n1; n2] => Ok (build3 n0 n2 n1 (fun i j k => get3 d a i k j))
  | _ => Raise ValueError
  end.

(** [a[:, :, ::-1]] on a 3-D array; with fewer dimensions there are too
    many indices (an [IndexError]). *)
Definition flip_last {A : Type} (d : A) (a : ndarray A) : result (ndarray A) :=
  match shape a with
  | [n0; n1; n2] => Ok (build3 n0 n1 n2 (fun i j k => get3 d a i j (n2 - 1 - k)))
  | _ => Raise IndexError
  end.

(** [np.array(blocks)] on a list of lists of lists of scalars.  Blocks of
    one row count and rows of one width give a 3-D array; blocks that are
    all empty give a 2-D array with no columns; a ragged nest has no
    integer array: the [ValueError] numpy raises on converting it is raised
    here. *)
Definition array3 {A : Type} (blocks : list (list (list A))) : result (ndarray A) :=
  match blocks with
  | [] => Ok (mkarray [0] [])
  | b :: _ =>
      let r := length b in
      if forallb (fun b' => length b' =? r) blocks then
        match b with
        | [] => Ok (mkarray [length blocks; 0] [])
        | row :: _ =>
            let w := length row in
            if forallb (forallb (fun row' => length row' =? w)) blocks
            then Ok (mkarray [length blocks; r; w] (concat (concat blocks)))
            else Raise ValueError
        end
      else Raise ValueError
  end.

(** The integers an [int64] holds. *)
Definition int64 (z : Z) : bool := (- 2 ^ 63 <=? z)%Z && (z <=? 2 ^ 63 - 1)%Z.

(** One string of an array under [astype(int)]: a string that is no
    integer is a [ValueError], an integer beyond [int64] an
    [OverflowError]. *)
Definition int_of_string (s : string) : result Z :=
  z <- Py.int s ;; if int64 z then Ok z else Raise OverflowError.

(** [a.astype(int)] on an array of strings. *)
Definition astype_int (a : ndarray string) : result (ndarray Z) :=
  xs <- mapM int_of_string (flat a) ;; Ok (mkarray (shape a) xs).

(** *** [np.genfromtxt(file, dtype=float, skip_header, skip_footer)]

    A file is the list of its lines, a line the list of its numeric
    tokens.  The column count is that of the first non-blank line after
    the header; blank lines are skipped; a line with another column count
    is recorded as invalid under its line number. *)

Definition blank (l : list Q) : bool :=
  match l with
  | [] => true
  | _ => false
  end.

Fixpoint drop_blank (ls : list (list Q)) : list (list Q) :=
  match ls with
  | [] => []
  | l :: ls' => if blank l then drop_blank ls' else ls
  end.

(** The rows kept and the invalid lines [(line number, columns)], [i]
    being the position of the first line of [ls]. *)
Fixpoint collect (nbcols skip_header i : nat) (ls : list (list Q))
  : list (list Q) * list (nat * nat) :=
  match ls with
  | [] => ([], [])
  | l :: ls' =>
      let (rows, invalid) := collect nbcols skip_header (S i) ls' in
      if blank l then (rows, invalid)
      else if length l =? nbcols then (l :: rows, invalid)
      else (rows, (i + skip_header + 1, length l) :: invalid)
  end.

(** [np.squeeze] of the shape [(r, c)]. *)
Definition squeeze (dims : list nat) : list nat :=
  filter (fun n => negb (n =? 1)) dims.

(** What follows the line loop: the invalid lines that fall in the footer
    are forgiven and count as skipped footer lines, any other invalid line
    is a [ValueError]; the footer that remains is cut from the rows and the
    2-D result is squeezed. *)
Definition after_loop (nbcols skip_header skip_footer : nat)
           (rows : list (list Q)) (invalid : list (nat * nat)) : result (ndarray Q) :=
  let nbinvalid := length invalid in
  let nbrows := (Z.of_nat (length rows) + Z.of_nat nbinvalid - Z.of_nat skip_footer)%Z in
  let nbinvalid_skipped :=
    if (0 <? nbinvalid) && (0 <? skip_footer)
    then length (filter (fun e => (nbrows + Z.of_nat skip_header <? Z.of_nat (fst e))%Z) invalid)
    else 0 in
  let invalid' := firstn (nbinvalid - nbinvalid_skipped) invalid in
  let skip_footer' := (Z.of_nat skip_footer - Z.of_nat nbinvalid_skipped)%Z in
  match invalid' with
  | _ :: _ => Raise ValueError
  | [] =>
      let rows' :=
        if (0 <? skip_footer')%Z
        then firstn (length rows - Z.to_nat skip_footer') rows
        else rows in
      match rows' with
      | [] => Ok (mkarray [0] [])
      | _ => Ok (mkarray (squeeze [length rows'; nbcols]) (concat rows'))
      end
  end.

Definition genfromtxt (file : list (list Q)) (skip_header skip_footer : nat)
  : result (ndarray Q) :=
  match drop_blank (skipn skip_header file) with
  | [] => Ok (mkarray [0] [])
  | (first_values :: _) as body =>
      let nbcols := length first_values in
      let (rows, invalid) := collect nbcols skip_header 0 body in
      after_loop nbcols skip_header skip_footer rows invalid
  end.

(** [a[:, k]] on a 2-D array: the column [k] of its rows; with fewer
    dimensions, or no such column, an [IndexError]. *)
Definition column_of (a : ndarray Q) (k : nat) : result (list Q) :=
  match shape a with
  | [r; c] =>
      if k <? c then Ok (map (fun row => nth k row 0%Q) (chunks c r (flat a)))
      else Raise IndexError
  | _ => Raise IndexError
  end.

(** [x.astype(int)] on a float: the fractional part is dropped. *)
Definition trunc (x : Q) : Z := Z.quot (Qnum x) (Zpos (Qden x)).

(** [np.ma.masked_where(x <= v, x)] on a 1-D array without a mask. *)
Definition masked_le (xs : list Q) (v : Q) : list cell :=
  map (fun x => if Qle_bool x v then None else Some x) xs.

End Np.

Import Np.

(** ** [src/slp.py] *)

Module Slp.

(** Modelled from the spec: the GridSeries that [utils.make_iris_cube_3d],
    which is not among the sources, returns: the values, the time offsets
    with their epoch and the two axes of the grids; the epoch of the unit
    string ["days since Y-M-01 00:00:00"] is kept as the pair [(Y, M)]. *)
Record cube : Type := mkcube {
  data : ndarray Q;
  times : list Z;
  time_epoch : Z * Z;
  longitudes : list Q;
  latitudes : list Q;
  name : string;
  units : string
}.

(** Timestamps that increase strictly. *)
Fixpoint increasingb (ts : list Z) : bool :=
  match ts with
  | t :: ((t' :: _) as rest) => (t <? t')%Z && increasingb rest
  | _ => true
  end.

(** Modelled from the spec: [utils.make_iris_cube_3d], which is not among
    the sources.  It builds the GridSeries, whose invariants the spec
    gives: one grid for each timestamp, every grid of the shape of the
    pair of axes, the timestamps strictly increasing.  The spec has the
    parser fail with [FormatError] on a file that breaks them, and nothing
    in [read_hadslp] itself checks them: the check is modelled here,
    where the series is built. *)
Definition make_iris_cube_3d (data : ndarray Q) (times : list Z) (time_epoch : Z * Z)
           (axis1 axis2 : list Q) (name units : string) : result cube :=
  if list_eq_dec Nat.eq_dec (shape data) [length times; length axis1; length axis2]
  then if increasingb times
       then Ok (mkcube data times time_epoch axis1 axis2 name units)
       else Raise FormatError
  else Raise FormatError.

(** The locals of the line loop of [read_hadslp]; [this_month] is unbound
    until the first header line. *)
Record locals : Type := mklocals {
  years : list Z;
  months : list Z;
  all_months : list (list (list string));
  this_month : option (list (list string))
}.

Definition read_local {A : Type} (v : option A) : result A :=
  match v with
  | Some x => Ok x
  | None => Raise UnboundLocalError
  end.

(** One turn of [for ll, line in enumerate(infile)]. *)
Definition read_line (ll : nat) (line : string) (st : locals) : result locals :=
  let tokens := Py.split line in
  if length tokens =? 2 then
    y <- Py.int (nth 0 tokens EmptyString) ;;
    m <- Py.int (nth 1 tokens EmptyString) ;;
    am <- (if negb (ll =? 0)
           then b <- read_local (this_month st) ;; Ok (all_months st ++ [b])
           else Ok (all_months st)) ;;
    Ok (mklocals (years st ++ [y]) (months st ++ [m]) am (Some []))
  else
    b <- read_local (this_month st) ;;
    Ok (mklocals (years st) (months st) (all_months st) (Some (b ++ [tokens]))).

(** The offset in days of the block [(y, m)] from the first block. *)
Definition day_offset (y0 m0 y m : Z) : result Z :=
  t <- Datetime.make y m 1 ;;
  t0 <- Datetime.make y0 m0 1 ;;
  Ok (Datetime.sub_days t t0).

Definition read_hadslp (infile : list string) : result cube :=
  st <- for_enumerate read_line 0 infile (mklocals [] [] [] None) ;;
  b <- read_local (this_month st) ;;
  let all_months := all_months st ++ [b] in
  strs <- array3 all_months ;;
  ints <- astype_int strs ;;
  let hPa := map_array (fun z => (inject_Z z / 100)%Q) ints in
  swapped <- swapaxes12 0%Q hPa ;;
  flipped <- flip_last 0%Q swapped ;;
  let delta := 5%Q in
  let latitudes := arange (-90)%Q (90 + delta)%Q delta in
  let longitudes := arange (-180 + delta / 2)%Q (180 + delta / 2)%Q delta in
  match years st, months st with
  | y0 :: _, m0 :: _ =>
      times <- mapM (fun ym => day_offset y0 m0 (fst ym) (snd ym))
                    (combine (years st) (months st)) ;;
      make_iris_cube_3d flipped times (y0, m0) longitudes latitudes "HadSLP" "bar"
  | _, _ => Raise IndexError
  end.

(** Modelled from the spec: [utils.Timeseries], which is not among the
    sources, is a named pair of a time sequence and a value sequence. *)
Record Timeseries : Type := mkTimeseries {
  ts_name : string;
  ts_times : list Q;
  ts_data : list Q
}.

(** [try: genfromtxt(...) except ValueError: genfromtxt(..., skip_footer=1)] *)
Definition load_soi (file : list (list Q)) : result (ndarray Q) :=
  match genfromtxt file 9 0 with
  | Raise ValueError => genfromtxt file 9 1
  | r => r
  end.

Definition read_soi (file : list (list Q)) : result Timeseries :=
  all_data <- load_soi file ;;
  match shape all_data with
  | [r; c] =>
      let rows := chunks c r (flat all_data) in
      let years := map (fun row => nth 0 row 0%Q) rows in
      let data := map (@tl Q) rows in
      match years with
      | [] => Raise IndexError
      | y0 :: _ =>
          let times := arange y0 (last years 0%Q + 1)%Q (1 / 12)%Q in
          Ok (mkTimeseries "SOI" times (concat data))
      end
  | _ => Raise IndexError
  end.

(** [a.shape[-2]] and [a.shape[-1]] *)
Definition shape_from_end {A : Type} (a : ndarray A) (k : nat) : result nat :=
  if k <? length (shape a) then Ok (nth k (rev (shape a)) 0) else Raise IndexError.

(** The climatology of [run_all_plots], the comparison constant [15] of
    the source being the argument [min_years]. *)
Definition climatology_gt (min_years : nat) (clim_cube_data : ndarray cell)
  : result (ndarray cell) :=
  n1 <- shape_from_end clim_cube_data 1 ;;
  n2 <- shape_from_end clim_cube_data 0 ;;
  clim_data <- reshape_infer clim_cube_data [12; n1; n2] ;;
  climatology <- ma_mean0 clim_data ;;
  nyears <- ma_count0 clim_data ;;
  masked_where (map_array (fun n => n <=? min_years) nyears) climatology.

(** [# more than 15 years present] *)
Definition climatology : ndarray cell -> result (ndarray cell) := climatology_gt 15.

(** The annual mean of the anomalies of the final year, the months being
    collapsed by [iris.analysis.MEAN], a masked mean along the time axis;
    the constant [6] of the source is the argument [min_months]. *)
Definition annual_mean_gt (min_months : nat) (final_year_anoms : ndarray cell)
  : result (ndarray cell) :=
  annual <- ma_mean0 final_year_anoms ;;
  nmonths <- ma_count0 final_year_anoms ;;
  masked_where (map_array (fun n => n <=? min_months) nmonths) annual.

(** [# more than 6 months present] *)
Definition annual_anomaly (final_year_data climatology : ndarray cell)
  : result (ndarray cell) :=
  anoms <- ma_sub final_year_data climatology ;;
  annual_mean_gt 6 anoms.

(** [a.shape[0]] *)
Definition shape0 {A : Type} (a : ndarray A) : result nat :=
  match shape a with
  | [] => Raise IndexError
  | n :: _ => Ok n
  end.

(** The anomalies of the whole series: the climatology is repeated and
    then truncated to the length of the series.  [/] is the integer
    division of Python 2. *)
Definition tiled_anomalies (cube_data climatology : ndarray cell)
  : result (ndarray cell) :=
  n <- shape0 cube_data ;;
  let climatology := tile0 climatology (n / 12 + 1) in
  ma_sub cube_data (slice0 climatology n).

(** [year + (month - 1) / 12.] *)
Definition year_fraction (year month : Q) : Q := (year + (month - 1) / 12)%Q.

Definition read_a_ao (file : list (list Q)) (name : string) (skip : nat)
  : result Timeseries :=
  all_data <- genfromtxt file skip 0 ;;
  years <- column_of all_data 0 ;;
  months <- column_of all_data 1 ;;
  data <- column_of all_data 2 ;;
  let times := map (fun ym => year_fraction (fst ym) (snd ym)) (combine years months) in
  Ok (mkTimeseries name times data).

Definition read_snao (file : list (list Q)) : result Timeseries :=
  all_data <- genfromtxt file 0 0 ;;
  years <- column_of all_data 0 ;;
  data <- column_of all_data 2 ;;
  Ok (mkTimeseries "SNAO" years data).

Definition read_nao (file : list (list Q)) : result Timeseries :=
  all_data <- genfromtxt file 9 0 ;;
  years <- column_of all_data 0 ;;
  data <- column_of all_data 1 ;;
  Ok (mkTimeseries "NAO" years data).

(** Modelled from the spec: [utils.Timeseries] again, for the series of
    a winter, whose times are dates and whose values carry a mask. *)
Record WinterSeries : Type := mkWinterSeries {
  w_name : string;
  w_times : list Datetime.datetime;
  w_data : list cell
}.

(** The turn of the loop of [read_winter_nao] for the winter that begins
    in the year [y]: the rows of December belong to [y], the others to the
    year after. *)
Definition read_winter (all_data : ndarray Q) (y : string)
  : result (WinterSeries * list cell) :=
  c1 <- column_of all_data 1 ;;
  let days := map trunc c1 in
  c0 <- column_of all_data 0 ;;
  let months := map trunc c0 in
  yi <- Py.int y ;;
  let years := map (fun m => if (m <? 12)%Z then (yi + 1)%Z else yi) months in
  times <- mapM (fun ymd => Datetime.make (fst (fst ymd)) (snd (fst ymd)) (snd ymd))
                (combine (combine years months) days) ;;
  c2 <- column_of all_data 2 ;;
  let data := masked_le c2 (- (9999 # 100))%Q in
  next <- Py.int (Py.drop 2 y) ;;
  let name := String.append y (String.append "/" (Py.str (next + 1))) in
  c3 <- column_of all_data 3 ;;
  Ok (mkWinterSeries name times data, masked_le c3 (- (9999 # 100))%Q).

(** [read_winter_nao], the files being given by their names. *)
Fixpoint read_winter_nao (files : string -> list (list Q)) (data_loc : string)
         (years : list string) : result (list WinterSeries * list (list cell)) :=
  match years with
  | [] => Ok ([], [])
  | y :: years' =>
      all_data <- genfromtxt
                    (files (String.append data_loc
                              (String.append "SLP_WinterNAOtimeseries_"
                                 (String.append y ".txt")))) 1 0 ;;
      r <- read_winter all_data y ;;
      rest <- read_winter_nao files data_loc years' ;;
      Ok (fst r :: fst rest, snd r :: snd rest)
  end.

End Slp.

(** ** [src/soz.py] *)

Module Soz.

(** Modelled from the spec: [utils.make_iris_cube_2d], which is not among
    the sources, packs the values and the two axes into a Grid2D. *)
Record cube : Type := make_iris_cube_2d {
  data : ndarray cell;
  latitudes : list Q;
  longitudes : list Q;
  name : string;
  units : string
}.

Definition longitudes0 : list Q := arange (5 # 8) (2885 # 8) (5 # 4).
Definition latitudes0 : list Q := arange (- (179 # 2)) (181 # 2) 1.

(** [data[tl, :] = values] on a 2-D array. *)
Definition set_row (data : ndarray cell) (tl : nat) (values : list Q)
  : result (ndarray cell) :=
  match shape data with
  | [nlat; nlon] =>
      if tl <? nlat then
        if length values =? nlon then
          Ok (mkarray (shape data)
                (firstn (tl * nlon) (flat data) ++ map (@Some Q) values
                 ++ skipn ((tl + 1) * nlon) (flat data)))
        else Raise ValueError
      else Raise IndexError
  | _ => Raise IndexError
  end.

Record locals : Type := mklocals {
  grid : ndarray cell;
  this_lat : list Q;
  tl : nat
}.

(** One turn of [for row in indata]. *)
Definition read_row (nlon : nat) (row : list Q) (st : locals) : result locals :=
  let this_lat := this_lat st ++ row in
  if length this_lat =? nlon then
    data <- set_row (grid st) (tl st) this_lat ;;
    Ok (mklocals data [] (tl st + 1))
  else Ok (mklocals (grid st) this_lat (tl st)).

(** What [for row in indata] yields: the rows of a 2-D array; the scalars
    of a 1-D array, on which the comprehension [[r for r in row]] is a
    [TypeError]; nothing to iterate on a 0-d array. *)
Definition iter_rows (indata : ndarray Q) : result (list (list Q)) :=
  match shape indata with
  | [r; c] => Ok (chunks c r (flat indata))
  | [n] => match flat indata with
           | [] => Ok []
           | _ => Raise TypeError
           end
  | _ => Raise TypeError
  end.

(** [read_data] with the two axes as arguments. *)
Definition read_data_axes (latitudes longitudes : list Q) (file : list (list Q))
  : result cube :=
  let data := ma_zeros [length latitudes; length longitudes] in
  indata <- genfromtxt file 4 0 ;;
  rows <- iter_rows indata ;;
  st <- for_enumerate (fun _ => read_row (length longitudes)) 0 rows (mklocals data [] 0) ;;
  data <- masked_where (ma_le (grid st) (- (999))%Q) (grid st) ;;
  Ok (make_iris_cube_2d data latitudes longitudes "SOZ_anom" "DU").

Definition read_data : list (list Q) -> result cube :=
  read_data_axes latitudes0 longitudes0.

Definition read_ts (file : list (list Q)) : result Slp.Timeseries :=
  indata <- genfromtxt file 1 0 ;;
  years <- column_of indata 0 ;;
  mean_val <- column_of indata 1 ;;
  Ok (Slp.mkTimeseries "SOZ" years mean_val).

End Soz.

(** ** [src/cmo.py] *)

Module Cmo.

Definition read_ts (file : list (list Q)) : result Slp.Timeseries :=
  indata <- genfromtxt file 1 0 ;;
  year <- column_of indata 0 ;;
  month <- column_of indata 1 ;;
  data <- column_of indata 2 ;;
  let times := map (fun ym => (fst ym + (snd ym - 1) / 12)%Q) (combine year month) in
  Ok (Slp.mkTimeseries "CO burden" times data).

End Cmo.

(** ** Vocabulary of the statements *)

(** The cells a 3-D series holds at the grid point [(i, k)] at the time
    steps [t 0], ..., [t (n - 1)]. *)
Definition cells_at (d : ndarray cell) (n : nat) (t : nat -> nat) (i k : nat) : list cell :=
  map (fun y => get3 None d (t y) i k) (seq 0 n).

(** The values of the cells that are not masked, in order. *)
Definition valid (col : list cell) : list Q :=
  flat_map (fun c => match c with
                     | Some x => [x]
                     | None => []
                     end) col.

Definition plain_sum (xs : list Q) : Q := fold_right Qplus 0%Q xs.

Definition plain_mean (xs : list Q) : Q :=
  (plain_sum xs / inject_Z (Z.of_nat (length xs)))%Q.

(** A value of the ozone grid after the sentinel masking. *)
Definition mask_value (x : Q) : cell :=
  if Qle_bool x (- (999))%Q then None else Some x.

(** A monthly-block file seen as its blocks. *)
Record block : Type := mkblock { header : string; body : list string }.

Definition lines_of (blocks : list block) : list string :=
  flat_map (fun b => header b :: body b) blocks.

(** The body of a block as the parser holds it: one list of tokens per
    line. *)
Definition block_tokens (b : block) : list (list string) := map Py.split (body b).

(** The token is an integer that an [int64] holds. *)
Definition parses (t : string) : bool :=
  match int_of_string t with
  | Ok _ => true
  | Raise _ => false
  end.

(** The header line is two integer tokens [(year, month)]. *)
Definition header_is (b : block) (ym : Z * Z) : Prop :=
  exists ty tm, Py.split (header b) = [ty; tm]
                /\ Py.int ty = Ok (fst ym) /\ Py.int tm = Ok (snd ym).

(** The body is [r] lines of [w] tokens each, integers that an [int64]
    holds. *)
Definition body_ok (r w : nat) (b : block) : bool :=
  (length (body b) =? r)
  && forallb (fun l => (length (Py.split l) =? w) && forallb parses (Py.split l)) (body b).

Definition date_ok (ym : Z * Z) : bool :=
  match Datetime.make (fst ym) (snd ym) 1 with
  | Ok _ => true
  | Raise _ => false
  end.

(** The ordinal of the first day of the month [(year, month)]. *)
Definition first_day (ym : Z * Z) : Z := Datetime._ymd2ord (fst ym) (snd ym) 1.

(** The month after [(year, month)]. *)
Definition next_month (ym : Z * Z) : Z * Z :=
  if (snd ym =? 12)%Z then (fst ym + 1, 1)%Z else (fst ym, snd ym + 1)%Z.

(** Successive years with no gap. *)
Fixpoint contiguous (ys : list Z) : Prop :=
  match ys with
  | y :: ((y' :: _) as rest) => y' = (y + 1)%Z /\ contiguous rest
  | _ => True
  end.

Fixpoint increasing (ys : list Z) : Prop :=
  match ys with
  | y :: ((y' :: _) as rest) => (y < y')%Z /\ increasing rest
  | _ => True
  end.

Fixpoint increasingQ (ts : list Q) : Prop :=
  match ts with
  | t :: ((t' :: _) as rest) => (t < t')%Q /\ increasingQ rest
  | _ => True
  end.

(** The array [genfromtxt] returns for the rows it keeps. *)
Definition loaded (c : nat) (rows : list (list Q)) : result (ndarray Q) :=
  match rows with
  | [] => Ok (mkarray [0] [])
  | _ => Ok (mkarray (squeeze [length rows; c]) (concat rows))
  end.

(** The year column of the rows of an SOI file. *)
Definition soi_years (rows : list (list Q)) : list Q :=
  map (fun row => nth 0 row 0%Q) rows.

(** Sample inputs. *)

(** An SOI file of three rows whose last row has one column too many, and
    one of two rows whose last row is incomplete. *)
Definition soi_long_last : list (list Q) :=
  repeat [] 9
  ++ [2000%Q :: repeat 1%Q 12; 2001%Q :: repeat 1%Q 12; 2002%Q :: repeat 1%Q 13].

(** Two monthly blocks of two lines of three values. *)
Definition december_2015 : block := mkblock "2015 12" ["10132 10140 10151"; "10098 10105 10110"]%string.
Definition january_2016 : block := mkblock "2016 1" ["10121 10133 10144"; "10087 10093 10101"]%string.

(** A block as the HadSLP2 file has them, 37 lines of 72 values, the
    value at the column [j] of the line [i] being [10000 + 72 * i + j]. *)
Definition slp_line (i : nat) : string :=
  String.concat " "
    (map (fun j => Py.str (10000 + 72 * Z.of_nat i + Z.of_nat j)%Z) (seq 0 72)).

Definition slp_block (hdr : string) : block := mkblock hdr (map slp_line (seq 0 37)).

(** The rows of an SOI file in which the year 2002 is missing. *)
Definition soi_rows_gap : list (list Q) :=
  [2000%Q :: repeat 1%Q 12; 2001%Q :: repeat 1%Q 12; 2003%Q :: repeat 1%Q 12].

(** The rows of an SOI file whose years do not increase: the year 2001
    is missing and the year 2005 stands between 2000 and 2002. *)
Definition soi_rows_unordered : list (list Q) :=
  [2000%Q :: repeat 1%Q 12; 2005%Q :: repeat 1%Q 12; 2002%Q :: repeat 1%Q 12].

Definition soi_two_rows : list (list Q) :=
  repeat [] 9 ++ [2000%Q :: repeat 1%Q 12; [2001; 1; 1]%Q].


(** Two years at one grid point: every month present in the first year
    and masked in the second. *)
Definition sample_window : ndarray cell :=
  mkarray [12 * 2; 1; 1] (map (fun t => if t <? 12 then Some 1%Q else None) (seq 0 24)).

(** Twelve monthly anomalies at one grid point, the last seven masked. *)
Definition seven_masked : ndarray cell :=
  mkarray [12; 1; 1] (map (fun t => if t <? 5 then Some 1%Q else None) (seq 0 12)).

(** Twelve monthly anomalies at one grid point, the last five masked. *)
Definition five_masked : ndarray cell :=
  mkarray [12; 1; 1] (map (fun t => if t <? 7 then Some 1%Q else None) (seq 0 12)).

(** The lines [genfromtxt] reads: those after the header, from the first
    that is not blank. *)
Definition data_lines (file : list (list Q)) (skip_header : nat) : list (list Q) :=
  drop_blank (skipn skip_header file).

(** Every line that is not blank has the column count of the first. *)
Definition regular (lines : list (list Q)) : bool :=
  match lines with
  | [] => true
  | first :: _ => forallb (fun l => blank l || (length l =? length first)) lines
  end.

(** The column [k] of a list of rows. *)
Definition col (k : nat) (rows : list (list Q)) : list Q :=
  map (fun row => nth k row 0%Q) rows.

(** A reader that loads strictly after [skip_header] lines: on a file
    that has its header, it raises [ValueError] exactly when the lines
    are not regular, and nothing else than [ValueError] or
    [IndexError]. *)
Definition strict_reader {T : Type} (read : list (list Q) -> result T) (skip_header : nat) : Prop :=
  forall file : list (list Q),
    skip_header <= length file ->
    (read file = Raise ValueError <-> regular (data_lines file skip_header) = false)
    /\ (forall e, read file = Raise e -> e = ValueError \/ e = IndexError).

(** Successive [(year, month)] pairs in the order of the calendar. *)
Fixpoint chronological (yms : list (Z * Z)) : Prop :=
  match yms with
  | ym :: ((ym' :: _) as rest) =>
      ((fst ym < fst ym')%Z \/ (fst ym = fst ym' /\ snd ym < snd ym')%Z)
      /\ chronological rest
  | _ => True
  end.

(** The time of the month [(year, month)] on the axis of a monthly
    series. *)
Definition month_time (ym : Z * Z) : Q :=
  Slp.year_fraction (inject_Z (fst ym)) (inject_Z (snd ym)).

(** The integer a token stands for. *)
Definition token_value (t : string) : Z :=
  match Py.int t with
  | Ok z => z
  | Raise _ => 0%Z
  end.

(** The integer at the column [j] of the line [i] of the body of a block. *)
Definition block_value (b : block) (i j : nat) : Z :=
  token_value (nth j (nth i (block_tokens b) []) EmptyString).

(** The values of [read_hadslp] for the integers [zs] of [n] blocks of
    [r] lines of [w] columns: hundredths, axes 1 and 2 swapped, the last
    axis reversed. *)
Definition hadslp_values (n r w : nat) (zs : list Z) : ndarray Q :=
  build3 n w r
    (fun i j k =>
       get3 0%Q
         (build3 n w r
            (fun i j k =>
               get3 0%Q (mkarray [n; r; w] (map (fun z => (inject_Z z / 100)%Q) zs)) i k j))
         i j (r - 1 - k)).

(** Successive months of the calendar. *)
Fixpoint consecutive_months (dates : list (Z * Z)) : Prop :=
  match dates with
  | d :: ((d' :: _) as rest) => d' = next_month d /\ consecutive_months rest
  | _ => True
  end.

(** The date of the row [(month, day)] of the winter that begins in the
    year [y]. *)
Definition winter_date (y : Z) (md : Z * Z) : Datetime.datetime :=
  Datetime.mkdt (if (fst md <? 12)%Z then (y + 1)%Z else y) (fst md) (snd md).

Definition valid_date (t : Datetime.datetime) : bool :=
  match Datetime.make (Datetime.year t) (Datetime.month t) (Datetime.day t) with
  | Ok _ => true
  | Raise _ => false
  end.

(** The order of a winter: December first, then the months of the new
    year, and the days within a month. *)
Definition winter_rank (m : Z) : Z := if (m =? 12)%Z then 0%Z else m.

Fixpoint winter_order (mds : list (Z * Z)) : Prop :=
  match mds with
  | md :: ((md' :: _) as rest) =>
      ((winter_rank (fst md) < winter_rank (fst md'))%Z
       \/ (fst md = fst md' /\ snd md < snd md')%Z)
      /\ winter_order rest
  | _ => True
  end.

(** The file of the winter that begins in the year [y]. *)
Definition winter_file (data_loc y : string) : string :=
  String.append data_loc
    (String.append "SLP_WinterNAOtimeseries_" (String.append y ".txt")).

(** * Properties *)

(** ** Lists and the exception monad *)

Lemma nth_map_seq {A : Type} (f : nat -> A) (n j : nat) (d : A) :
  j < n -> nth j (map f (seq 0 n)) d = f j.
Proof.
  intros Hj.
  rewrite (nth_indep _ d (f 0)) by (rewrite length_map, length_seq; exact Hj).
  rewrite (map_nth f (seq 0 n) 0 j), seq_nth by exact Hj.
  reflexivity.
Qed.

Lemma combine_map_same {A B C : Type} (f : A -> B) (g : A -> C) (l : list A) :
  combine (map f l) (map g l) = map (fun x => (f x, g x)) l.
Proof.
  induction l as [|x l IH]; simpl; [reflexivity|].
  now rewrite IH.
Qed.

Lemma list_eq_dec_refl (l : list nat) {T : Type} (x y : T) :
  (if list_eq_dec Nat.eq_dec l l then x else y) = x.
Proof.
  destruct (list_eq_dec Nat.eq_dec l l) as [_|Hne]; [reflexivity|].
  now contradiction Hne.
Qed.

(** ** Masked reductions along axis 0 *)

(** The mean, the count and the masking of the means of few samples, as
    the source chains them, written cell by cell. *)
Lemma mean_count_mask (threshold n : nat) (rest : list nat) (a : ndarray cell) :
  shape a = n :: rest ->
  (mean <- ma_mean0 a ;;
   cnt <- ma_count0 a ;;
   masked_where (map_array (fun c => c <=? threshold) cnt) mean)
  = Ok (mkarray rest
          (map (fun j => mask_if (count1 (column a j) <=? threshold) (mean1 (column a j)))
               (seq 0 (prod rest)))).
Proof.
  intros Hs.
  unfold ma_mean0, ma_count0, reduce_axis0. rewrite Hs. simpl.
  unfold masked_where, map_array. simpl.
  rewrite list_eq_dec_refl.
  rewrite map_map, combine_map_same, map_map. reflexivity.
Qed.

Lemma mean1_masked_iff (col : list cell) :
  mean1 col = None <-> count1 col = 0.
Proof.
  unfold mean1. destruct (count1 col =? 0) eqn:E.
  - apply Nat.eqb_eq in E. tauto.
  - apply Nat.eqb_neq in E. split; [discriminate|tauto].
Qed.

Lemma mask_if_few (threshold : nat) (col : list cell) :
  is_masked (mask_if (count1 col <=? threshold) (mean1 col)) = true
  <-> count1 col <= threshold.
Proof.
  destruct (count1 col <=? threshold) eqn:E; simpl.
  - apply Nat.leb_le in E. tauto.
  - apply Nat.leb_gt in E.
    destruct (mean1 col) eqn:M; simpl.
    + split; [discriminate|lia].
    + apply mean1_masked_iff in M. lia.
Qed.

(** ** The climatology of [run_all_plots] *)

Lemma shape_from_end_3 {A : Type} (a : ndarray A) (n0 n1 n2 : nat) :
  shape a = [n0; n1; n2] ->
  Slp.shape_from_end a 1 = Ok n1 /\ Slp.shape_from_end a 0 = Ok n2.
Proof.
  intros Hs. unfold Slp.shape_from_end. rewrite Hs. simpl. split; reflexivity.
Qed.

Lemma prod_plane (n1 n2 : nat) : prod [12; n1; n2] = 12 * (n1 * n2).
Proof. unfold prod. simpl. lia. Qed.

Lemma size_series {A : Type} (a : ndarray A) (n0 n1 n2 : nat) :
  shape a = [n0; n1; n2] -> size a = n0 * (n1 * n2).
Proof. intros Hs. unfold size. rewrite Hs. unfold prod. simpl. lia. Qed.

(** The reshape of the reference window into years of 12 months. *)
Lemma reshape_years {A : Type} (a : ndarray A) (nyr n1 n2 : nat) :
  shape a = [12 * nyr; n1; n2] -> 0 < n1 -> 0 < n2 ->
  reshape_infer a [12; n1; n2] = Ok (mkarray [nyr; 12; n1; n2] (flat a)).
Proof.
  intros Hs H1 H2. unfold reshape_infer.
  rewrite prod_plane, (size_series a _ _ _ Hs).
  assert (Hk : 12 * (n1 * n2) <> 0) by nia.
  destruct (12 * (n1 * n2) =? 0) eqn:E; [apply Nat.eqb_eq in E; contradiction|].
  replace (12 * nyr * (n1 * n2)) with (nyr * (12 * (n1 * n2))) by lia.
  rewrite Nat.Div0.mod_mul, Nat.div_mul by exact Hk.
  reflexivity.
Qed.

Lemma reshape_partial_year {A : Type} (a : ndarray A) (n n1 n2 : nat) :
  shape a = [n; n1; n2] -> 0 < n1 -> 0 < n2 -> n mod 12 <> 0 ->
  reshape_infer a [12; n1; n2] = Raise ValueError.
Proof.
  intros Hs H1 H2 Hn. unfold reshape_infer.
  rewrite prod_plane, (size_series a _ _ _ Hs).
  destruct (12 * (n1 * n2) =? 0); [reflexivity|].
  rewrite Nat.Div0.mul_mod_distr_r.
  destruct (n mod 12 * (n1 * n2) =? 0) eqn:E; [|reflexivity].
  apply Nat.eqb_eq in E. nia.
Qed.

(** The climatology written cell by cell, for a window of whole years. *)
Lemma climatology_gt_whole_years (min_years nyr n1 n2 : nat) (d : ndarray cell) :
  shape d = [12 * nyr; n1; n2] -> 0 < n1 -> 0 < n2 ->
  Slp.climatology_gt min_years d
  = Ok (mkarray [12; n1; n2]
          (map (fun j =>
                  let col := column (mkarray [nyr; 12; n1; n2] (flat d)) j in
                  mask_if (count1 col <=? min_years) (mean1 col))
               (seq 0 (prod [12; n1; n2])))).
Proof.
  intros Hs H1 H2. unfold Slp.climatology_gt.
  destruct (shape_from_end_3 d _ _ _ Hs) as [E1 E0]. rewrite E1, E0.
  cbn [bind]. rewrite (reshape_years d _ _ _ Hs H1 H2). cbn [bind].
  apply mean_count_mask with (n := nyr). reflexivity.
Qed.

(** The years met at month [m] and grid point [(i, k)] when the reshaped
    window is collapsed along its year axis. *)
Lemma column_years (nyr n1 n2 : nat) (d : ndarray cell) (m i k : nat) :
  shape d = [12 * nyr; n1; n2] ->
  column (mkarray [nyr; 12; n1; n2] (flat d)) ((m * n1 + i) * n2 + k)
  = cells_at d nyr (fun y => 12 * y + m) i k.
Proof.
  intros Hs. unfold column, cells_at, get3. rewrite Hs.
  cbn [shape flat hd tl nth].
  apply map_ext. intros y. f_equal. rewrite prod_plane. ring.
Qed.

Lemma plane_index_bound (n0 n1 n2 m i k : nat) :
  m < n0 -> i < n1 -> k < n2 -> (m * n1 + i) * n2 + k < n0 * (n1 * n2).
Proof.
  intros Hm Hi Hk.
  assert (Hrow : m * n1 + i + 1 <= n0 * n1).
  { apply Nat.le_trans with ((m + 1) * n1); [lia|].
    apply Nat.mul_le_mono_r. lia. }
  assert (Hcell : (m * n1 + i) * n2 + k + 1 <= (m * n1 + i + 1) * n2) by lia.
  apply Nat.lt_le_trans with ((m * n1 + i + 1) * n2); [lia|].
  rewrite Nat.mul_assoc. apply Nat.mul_le_mono_r. exact Hrow.
Qed.

(** C1. For every month and grid point, the climatological mean over the
    reference window is masked exactly when the number of years that
    contribute a non-masked value is at most [min_years]: with exactly
    [min_years] contributing years the cell is masked, with
    [min_years + 1] it is not. *)
Theorem climatology_masked_iff_at_most_min_years
  (min_years nyr nlat nlon : nat) (d : ndarray cell) :
  shape d = [12 * nyr; nlat; nlon] -> 0 < nlat -> 0 < nlon ->
  exists clim,
    Slp.climatology_gt min_years d = Ok clim
    /\ shape clim = [12; nlat; nlon]
    /\ forall m i k, m < 12 -> i < nlat -> k < nlon ->
         let contributing := count1 (cells_at d nyr (fun y => 12 * y + m) i k) in
         (is_masked (get3 None clim m i k) = true <-> contributing <= min_years)
         /\ (contributing = min_years -> is_masked (get3 None clim m i k) = true)
         /\ (contributing = min_years + 1 -> is_masked (get3 None clim m i k) = false).
Proof.
  intros Hs H1 H2.
  eexists. split; [apply (climatology_gt_whole_years min_years _ _ _ d Hs H1 H2)|].
  split; [reflexivity|].
  intros m i k Hm Hi Hk contributing.
  assert (Hcell : is_masked (get3 None
             (mkarray [12; nlat; nlon]
                (map (fun j =>
                        let col := column (mkarray [nyr; 12; nlat; nlon] (flat d)) j in
                        mask_if (count1 col <=? min_years) (mean1 col))
                     (seq 0 (prod [12; nlat; nlon])))) m i k) = true
          <-> contributing <= min_years).
  { unfold get3. cbn [shape flat nth].
    rewrite nth_map_seq
      by (rewrite prod_plane; apply plane_index_bound; assumption).
    cbv zeta. rewrite (column_years nyr nlat nlon d m i k Hs).
    apply mask_if_few. }
  split; [exact Hcell|]. split.
  - intros E. apply Hcell. lia.
  - intros E. apply not_true_is_false. intros C. apply Hcell in C. lia.
Qed.

Lemma climatology_masked_iff_at_most_min_years_witness :
  exists clim,
    Slp.climatology_gt 1 sample_window = Ok clim
    /\ shape clim = [12; 1; 1]
    /\ is_masked (get3 None clim 0 0 0) = true.
Proof.
  destruct (@climatology_masked_iff_at_most_min_years 1 2 1 1 sample_window)
    as [clim [E [S H]]].
  - reflexivity.
  - lia.
  - lia.
  - exists clim. split; [exact E|]. split; [exact S|].
    destruct (H 0 0 0) as [_ [Hmasked _]]; [lia | lia | lia |].
    apply Hmasked. reflexivity.
Defined.

(** C9. The reference window is reshaped into years of 12 months: a
    window of whole years has a climatology, a window with a partial year
    fails in the reshape with a [ValueError] and has none. *)
Theorem climatology_needs_whole_years
  (min_years n nlat nlon : nat) (d : ndarray cell) :
  shape d = [n; nlat; nlon] -> 0 < nlat -> 0 < nlon ->
  (n mod 12 = 0 ->
   exists clim, Slp.climatology_gt min_years d = Ok clim /\ shape clim = [12; nlat; nlon])
  /\ (n mod 12 <> 0 ->
      reshape_infer d [12; nlat; nlon] = Raise ValueError
      /\ Slp.climatology_gt min_years d = Raise ValueError).
Proof.
  intros Hs H1 H2. split.
  - intros Hn.
    assert (Hs' : shape d = [12 * (n / 12); nlat; nlon]).
    { rewrite Hs. f_equal. pose proof (Nat.Div0.div_mod n 12). lia. }
    eexists. split; [apply (climatology_gt_whole_years min_years _ _ _ d Hs' H1 H2)|reflexivity].
  - intros Hn. pose proof (reshape_partial_year d _ _ _ Hs H1 H2 Hn) as E.
    split; [exact E|].
    unfold Slp.climatology_gt.
    destruct (shape_from_end_3 d _ _ _ Hs) as [E1 E0]. rewrite E1, E0.
    cbn [bind]. rewrite E. reflexivity.
Qed.

Lemma climatology_needs_whole_years_witness :
  Slp.climatology_gt 15 (mkarray [13; 1; 1] (repeat (Some 1%Q) 13)) = Raise ValueError
  /\ exists clim, Slp.climatology_gt 15 (mkarray [24; 1; 1] (repeat (Some 1%Q) 24)) = Ok clim.
Proof.
  split.
  - apply (@climatology_needs_whole_years 15 13 1 1
             (mkarray [13; 1; 1] (repeat (Some 1%Q) 13)));
      [reflexivity | lia | lia | vm_compute; discriminate].
  - destruct (@climatology_needs_whole_years 15 24 1 1
                (mkarray [24; 1; 1] (repeat (Some 1%Q) 24)))
      as [H _]; [reflexivity | lia | lia |].
    destruct H as [clim [E _]]; [reflexivity|].
    exists clim. exact E.
Defined.

(** ** The annual mean of the anomalies *)

Lemma column_months (nmon n1 n2 : nat) (a : ndarray cell) (i k : nat) :
  shape a = [nmon; n1; n2] ->
  column a (i * n2 + k) = cells_at a nmon (fun t => t) i k.
Proof.
  intros Hs. unfold column, cells_at, get3. rewrite Hs.
  cbn [shape flat hd tl nth].
  apply map_ext. intros t. f_equal. unfold prod. simpl. ring.
Qed.

Lemma annual_mean_gt_cells (min_months nmon n1 n2 : nat) (a : ndarray cell) :
  shape a = [nmon; n1; n2] ->
  Slp.annual_mean_gt min_months a
  = Ok (mkarray [n1; n2]
          (map (fun j => mask_if (count1 (column a j) <=? min_months) (mean1 (column a j)))
               (seq 0 (prod [n1; n2])))).
Proof.
  intros Hs. unfold Slp.annual_mean_gt.
  apply mean_count_mask with (n := nmon). exact Hs.
Qed.

(** C3, as the code has it.  The annual mean at a grid point is masked
    exactly when the number of non-masked monthly anomalies is at most
    [min_months]; with 7 of 12 months masked, 5 contribute and the mean is
    masked for [min_months = 6] as for [min_months = 7]; the boundary
    between 6 and 7 is that of 7 contributing months. *)
Theorem annual_mean_masked_iff_at_most_min_months
  (min_months nlat nlon : nat) (anoms : ndarray cell) :
  shape anoms = [12; nlat; nlon] ->
  exists annual,
    Slp.annual_mean_gt min_months anoms = Ok annual
    /\ shape annual = [nlat; nlon]
    /\ forall i k, i < nlat -> k < nlon ->
         let present := count1 (cells_at anoms 12 (fun t => t) i k) in
         (is_masked (get2 None annual i k) = true <-> present <= min_months)
         /\ (present = 5 -> min_months = 6 \/ min_months = 7 ->
             is_masked (get2 None annual i k) = true)
         /\ (present = 7 -> min_months = 6 -> is_masked (get2 None annual i k) = false)
         /\ (present = 7 -> min_months = 7 -> is_masked (get2 None annual i k) = true).
Proof.
  intros Hs.
  eexists. split; [apply (annual_mean_gt_cells min_months _ _ _ anoms Hs)|].
  split; [reflexivity|].
  intros i k Hi Hk present.
  assert (Hcell : is_masked (get2 None
             (mkarray [nlat; nlon]
                (map (fun j => mask_if (count1 (column anoms j) <=? min_months)
                                       (mean1 (column anoms j)))
                     (seq 0 (prod [nlat; nlon])))) i k) = true
          <-> present <= min_months).
  { unfold get2. cbn [shape flat nth].
    rewrite nth_map_seq by (unfold prod; simpl; nia).
    rewrite (column_months 12 nlat nlon anoms i k Hs).
    apply mask_if_few. }
  split; [exact Hcell|]. repeat split.
  - intros E Hm. apply Hcell. lia.
  - intros E Hm. apply not_true_is_false. intros C. apply Hcell in C. lia.
  - intros E Hm. apply Hcell. lia.
Qed.

Lemma annual_mean_masked_iff_at_most_min_months_witness :
  exists annual,
    Slp.annual_mean_gt 6 five_masked = Ok annual
    /\ is_masked (get2 None annual 0 0) = false.
Proof.
  destruct (@annual_mean_masked_iff_at_most_min_months 6 1 1 five_masked)
    as [annual [E [_ H]]].
  - reflexivity.
  - exists annual. split; [exact E|].
    destruct (H 0 0) as [_ [_ [Hunmasked _]]]; [lia | lia |].
    apply Hunmasked; reflexivity.
Defined.

(** C3, as stated, fails: with 7 of the 12 monthly anomalies masked and
    the threshold 6 of the source the annual mean is masked. *)
Lemma annual_mean_five_contributors_masked_at_six :
  count1 (flat seven_masked) = 5
  /\ Slp.annual_mean_gt 6 seven_masked = Ok (mkarray [1; 1] [None]).
Proof. split; reflexivity. Qed.

(** ** Masked entries in sums, counts and means *)

Lemma fold_left_Qplus_acc (xs : list Q) (acc : Q) :
  (fold_left Qplus xs acc == acc + plain_sum xs)%Q.
Proof.
  revert acc. induction xs as [|x xs IH]; intros acc; simpl.
  - ring.
  - rewrite IH. ring.
Qed.

Lemma count1_valid (col : list cell) : count1 col = length (valid col).
Proof.
  unfold count1, valid. induction col as [|[x|] col IH]; simpl; [reflexivity| |exact IH].
  now rewrite IH.
Qed.

Lemma sum1_valid (col : list cell) : (sum1 col == plain_sum (valid col))%Q.
Proof.
  unfold sum1. rewrite fold_left_Qplus_acc.
  induction col as [|[x|] col IH]; simpl.
  - ring.
  - simpl in IH. rewrite <- IH. ring.
  - simpl in IH. rewrite <- IH. ring.
Qed.

Lemma mean1_valid (col : list cell) :
  match mean1 col with
  | None => valid col = []
  | Some m => (m == plain_mean (valid col))%Q /\ valid col <> []
  end.
Proof.
  unfold mean1. rewrite count1_valid.
  destruct (length (valid col) =? 0) eqn:E.
  - apply Nat.eqb_eq in E. now apply length_zero_iff_nil.
  - apply Nat.eqb_neq in E. split.
    + unfold plain_mean. rewrite sum1_valid. reflexivity.
    + intros C. apply E. now rewrite C.
Qed.

(** ** Tiling the climatology along the series *)

Lemma length_concat_repeat {A : Type} (l : list A) (r : nat) :
  length (concat (repeat l r)) = r * length l.
Proof.
  induction r as [|r IH]; simpl; [reflexivity|].
  rewrite length_app, IH. reflexivity.
Qed.

Lemma nth_concat_repeat {A : Type} (l : list A) (r idx : nat) (d : A) :
  idx < r * length l ->
  nth idx (concat (repeat l r)) d = nth (idx mod length l) l d.
Proof.
  revert idx. induction r as [|r IH]; intros idx Hidx; simpl in *; [lia|].
  destruct (Nat.lt_ge_cases idx (length l)) as [Hlt|Hge].
  - rewrite app_nth1 by exact Hlt. now rewrite Nat.mod_small.
  - rewrite app_nth2 by exact Hge.
    rewrite IH by lia. f_equal.
    replace idx with ((idx - length l) + 1 * length l) at 2 by lia.
    now rewrite Nat.Div0.mod_add.
Qed.

Lemma phase_index (i j k n1 n2 : nat) :
  j < n1 -> k < n2 ->
  ((i * n1 + j) * n2 + k) mod (12 * (n1 * n2)) = (i mod 12 * n1 + j) * n2 + k.
Proof.
  intros Hj Hk.
  assert (Hr : i mod 12 < 12) by (apply Nat.mod_upper_bound; lia).
  pose proof (Nat.div_mod_eq i 12) as Hi.
  remember (i / 12) as q eqn:Eq. remember (i mod 12) as r eqn:Er.
  clear Eq Er. subst i.
  symmetry. apply Nat.mod_unique with (q := q).
  - apply plane_index_bound; assumption.
  - ring.
Qed.

Lemma tile_covers (n : nat) : n <= (n / 12 + 1) * 12.
Proof. pose proof (Nat.div_mod_eq n 12). pose proof (Nat.mod_upper_bound n 12). lia. Qed.

Lemma wf_3d {A : Type} (a : ndarray A) (n0 n1 n2 : nat) :
  shape a = [n0; n1; n2] -> wf a -> length (flat a) = n0 * (n1 * n2).
Proof. intros Hs Hw. unfold wf in Hw. rewrite Hw. apply (size_series a _ _ _ Hs). Qed.

(** The tiled and truncated climatology: the length of the series, and
    at each step the entry of the month of the cycle. *)
Lemma tiled_slice (n n1 n2 : nat) (clim : ndarray cell) :
  shape clim = [12; n1; n2] -> wf clim ->
  let tiled := slice0 (tile0 clim (n / 12 + 1)) n in
  shape tiled = [n; n1; n2]
  /\ length (flat tiled) = n * (n1 * n2)
  /\ forall i j k, i < n -> j < n1 -> k < n2 ->
       get3 None tiled i j k = get3 None clim (i mod 12) j k.
Proof.
  intros Hs Hw tiled.
  pose proof (wf_3d clim _ _ _ Hs Hw) as Hlen.
  pose proof (tile_covers n) as Hcover.
  assert (Hmin : Nat.min n ((n / 12 + 1) * 12) = n) by lia.
  assert (Hplane : prod [n1; n2] = n1 * n2) by (unfold prod; simpl; lia).
  assert (Hflat : flat tiled
                  = firstn (n * (n1 * n2)) (concat (repeat (flat clim) (n / 12 + 1)))).
  { unfold tiled, slice0, tile0. cbn [shape flat hd tl]. rewrite Hs.
    cbn [hd tl]. rewrite Hmin, Hplane. reflexivity. }
  assert (Hshape : shape tiled = [n; n1; n2]).
  { unfold tiled, slice0, tile0. cbn [shape flat hd tl]. rewrite Hs.
    cbn [hd tl]. rewrite Hmin. reflexivity. }
  split; [exact Hshape|]. split.
  - rewrite Hflat, length_firstn, length_concat_repeat, Hlen. nia.
  - intros i j k Hi Hj Hk.
    unfold get3. rewrite Hshape, Hs, Hflat. cbn [nth].
    assert (Hidx : (i * n1 + j) * n2 + k < n * (n1 * n2))
      by (apply plane_index_bound; assumption).
    rewrite nth_firstn.
    destruct ((i * n1 + j) * n2 + k <? n * (n1 * n2)) eqn:E;
      [|apply Nat.ltb_ge in E; lia].
    rewrite nth_concat_repeat by (rewrite Hlen; nia).
    rewrite Hlen, phase_index by assumption. reflexivity.
Qed.

(** C2. The climatology of cycle length 12, repeated and truncated, has
    exactly the length of the series, and the value subtracted at the
    step [i] is the entry [i mod 12] of the cycle. *)
Theorem tiled_anomalies_subtract_month_of_cycle
  (n nlat nlon : nat) (series clim : ndarray cell) :
  shape series = [n; nlat; nlon] -> wf series ->
  shape clim = [12; nlat; nlon] -> wf clim ->
  shape (slice0 (tile0 clim (n / 12 + 1)) n) = [n; nlat; nlon]
  /\ (forall i j k, i < n -> j < nlat -> k < nlon ->
        get3 None (slice0 (tile0 clim (n / 12 + 1)) n) i j k
        = get3 None clim (i mod 12) j k)
  /\ exists anoms,
      Slp.tiled_anomalies series clim = Ok anoms
      /\ shape anoms = [n; nlat; nlon]
      /\ forall i j k, i < n -> j < nlat -> k < nlon ->
           get3 None anoms i j k
           = cell_sub (get3 None series i j k) (get3 None clim (i mod 12) j k).
Proof.
  intros Hss Hws Hsc Hwc.
  destruct (tiled_slice n nlat nlon clim Hsc Hwc) as [Hshape [Hlen Hget]].
  split; [exact Hshape|]. split; [exact Hget|].
  unfold Slp.tiled_anomalies, Slp.shape0. rewrite Hss. cbn [bind].
  unfold ma_sub. rewrite Hss, Hshape, list_eq_dec_refl.
  eexists. split; [reflexivity|]. split; [reflexivity|].
  intros i j k Hi Hj Hk.
  rewrite <- (Hget i j k Hi Hj Hk).
  unfold get3 at 1. cbn [shape flat nth].
  unfold get3. rewrite Hss, Hshape. cbn [nth].
  change (@None Q) with (cell_sub (fst (@None Q, @None Q)) (snd (@None Q, @None Q))) at 1.
  rewrite (map_nth (fun p => cell_sub (fst p) (snd p))).
  rewrite combine_nth
    by (rewrite Hlen; apply (wf_3d series _ _ _ Hss Hws)).
  reflexivity.
Qed.

Lemma tiled_anomalies_subtract_month_of_cycle_witness :
  exists anoms,
    Slp.tiled_anomalies
      (mkarray [30; 1; 1] (repeat (Some 0%Q) 30))
      (mkarray [12; 1; 1] (map (fun m => Some (inject_Z (Z.of_nat m))) (seq 0 12)))
    = Ok anoms
    /\ get3 None anoms 23 0 0 = Some (0 - 11)%Q
    /\ get3 None anoms 29 0 0 = Some (0 - 5)%Q.
Proof.
  destruct (@tiled_anomalies_subtract_month_of_cycle 30 1 1
              (mkarray [30; 1; 1] (repeat (Some 0%Q) 30))
              (mkarray [12; 1; 1] (map (fun m => Some (inject_Z (Z.of_nat m))) (seq 0 12))))
    as [_ [_ [anoms [E [_ H]]]]].
  - reflexivity.
  - reflexivity.
  - reflexivity.
  - reflexivity.
  - exists anoms. split; [exact E|]. split.
    + rewrite (H 23 0 0) by lia. reflexivity.
    + rewrite (H 29 0 0) by lia. reflexivity.
Defined.

(** ** [genfromtxt] on regular and on ragged files *)

Lemma skipn_header {A : Type} (hdr rows : list A) :
  skipn (length hdr) (hdr ++ rows) = rows.
Proof. induction hdr as [|h hdr IH]; simpl; [reflexivity|exact IH]. Qed.

Lemma blank_false (l : list Q) : length l <> 0 -> blank l = false.
Proof. destruct l; simpl; [intros H; now contradiction H|reflexivity]. Qed.

Lemma collect_uniform (c skip_header i : nat) (rows : list (list Q)) :
  c <> 0 -> Forall (fun l => length l = c) rows ->
  collect c skip_header i rows = (rows, []).
Proof.
  intros Hc Hu. revert i. induction Hu as [|l rows Hl _ IH]; intros i; simpl.
  - reflexivity.
  - rewrite IH, blank_false by lia.
    apply Nat.eqb_eq in Hl. now rewrite Hl.
Qed.

Lemma collect_ragged_last (c skip_header i : nat) (rows : list (list Q)) (l : list Q) :
  c <> 0 -> Forall (fun l => length l = c) rows ->
  length l <> 0 -> length l <> c ->
  collect c skip_header i (rows ++ [l])
  = (rows, [(i + length rows + skip_header + 1, length l)]).
Proof.
  intros Hc Hu Hl0 Hlc. revert i. induction Hu as [|r rows Hr _ IH]; intros i; simpl.
  - rewrite blank_false by exact Hl0.
    apply Nat.eqb_neq in Hlc. rewrite Hlc. do 3 f_equal. lia.
  - rewrite IH, blank_false by lia.
    apply Nat.eqb_eq in Hr. rewrite Hr. do 3 f_equal. lia.
Qed.

Lemma squeeze_2d (r c : nat) : 2 <= r -> 2 <= c -> squeeze [r; c] = [r; c].
Proof.
  intros Hr Hc. unfold squeeze. simpl.
  destruct (r =? 1) eqn:Er; [apply Nat.eqb_eq in Er; lia|].
  destruct (c =? 1) eqn:Ec; [apply Nat.eqb_eq in Ec; lia|].
  reflexivity.
Qed.

Lemma after_loop_clean (c skip_header : nat) (rows : list (list Q)) :
  after_loop c skip_header 0 rows [] = loaded c rows.
Proof. unfold after_loop, loaded. simpl. reflexivity. Qed.

Lemma after_loop_strict (c skip_header : nat) (rows : list (list Q)) (e : nat * nat) :
  after_loop c skip_header 0 rows [e] = Raise ValueError.
Proof. unfold after_loop. simpl. reflexivity. Qed.

(** With one footer line to skip, an invalid last line is forgiven and
    every row read before it is kept. *)
Lemma after_loop_footer (c skip_header w : nat) (rows : list (list Q)) :
  after_loop c skip_header 1 rows [(length rows + skip_header + 1, w)] = loaded c rows.
Proof.
  unfold after_loop, loaded. cbn [length Nat.ltb Nat.leb andb filter fst].
  assert (Hlate : (Z.of_nat (length rows) + Z.of_nat 1 - Z.of_nat 1 + Z.of_nat skip_header
                   <? Z.of_nat (length rows + skip_header + 1))%Z = true)
    by (apply Z.ltb_lt; lia).
  rewrite Hlate. simpl. reflexivity.
Qed.

Lemma genfromtxt_rows (hdr rows : list (list Q)) (c skip_footer : nat)
      (invalid : list (nat * nat)) (tail : list (list Q)) :
  2 <= c -> rows <> [] -> Forall (fun l => length l = c) rows ->
  collect c (length hdr) 0 (rows ++ tail) = (rows, invalid) ->
  genfromtxt (hdr ++ rows ++ tail) (length hdr) skip_footer
  = after_loop c (length hdr) skip_footer rows invalid.
Proof.
  intros Hc Hne Hu Hcollect. unfold genfromtxt. rewrite skipn_header.
  destruct rows as [|first rest]; [now contradiction Hne|].
  assert (Hfirst : length first = c) by (inversion Hu; assumption).
  cbn [app drop_blank]. rewrite blank_false by lia.
  rewrite Hfirst. cbn [app] in Hcollect. rewrite Hcollect. reflexivity.
Qed.

(** A file whose lines after the header all have [c] columns loads as the
    2-D array of its rows. *)
Lemma genfromtxt_uniform (hdr rows : list (list Q)) (c : nat) :
  2 <= length rows -> 2 <= c -> Forall (fun l => length l = c) rows ->
  genfromtxt (hdr ++ rows) (length hdr) 0
  = Ok (mkarray [length rows; c] (concat rows)).
Proof.
  intros Hn Hc Hu.
  assert (Hne : rows <> []) by (intros E; rewrite E in Hn; simpl in Hn; lia).
  rewrite <- (app_nil_r rows) at 1.
  rewrite (genfromtxt_rows hdr rows c 0 [] [] Hc Hne Hu)
    by (rewrite app_nil_r; apply collect_uniform; [lia|exact Hu]).
  rewrite after_loop_clean. unfold loaded.
  destruct rows; [now contradiction Hne|].
  rewrite squeeze_2d by assumption. reflexivity.
Qed.

(** When the last line alone has another column count, the strict load
    fails and the load without the last line gives the rows before it. *)
Lemma genfromtxt_ragged_last (hdr rows : list (list Q)) (l : list Q) (c : nat) :
  2 <= length rows -> 2 <= c -> Forall (fun l => length l = c) rows ->
  length l <> 0 -> length l <> c ->
  genfromtxt (hdr ++ rows ++ [l]) (length hdr) 0 = Raise ValueError
  /\ genfromtxt (hdr ++ rows ++ [l]) (length hdr) 1
     = Ok (mkarray [length rows; c] (concat rows)).
Proof.
  intros Hn Hc Hu Hl0 Hlc.
  assert (Hne : rows <> []) by (intros E; rewrite E in Hn; simpl in Hn; lia).
  assert (Hcollect : collect c (length hdr) 0 (rows ++ [l])
                     = (rows, [(length rows + length hdr + 1, length l)])).
  { rewrite collect_ragged_last by (lia || assumption). reflexivity. }
  split.
  - rewrite (genfromtxt_rows hdr rows c 0 _ [l] Hc Hne Hu Hcollect).
    apply after_loop_strict.
  - rewrite (genfromtxt_rows hdr rows c 1 _ [l] Hc Hne Hu Hcollect).
    rewrite after_loop_footer. unfold loaded.
    destruct rows; [now contradiction Hne|].
    rewrite squeeze_2d by assumption. reflexivity.
Qed.

(** ** The SOI series *)

Lemma firstn_row {A : Type} (c : nat) (l rest : list A) :
  length l = c -> firstn c (l ++ rest) = l.
Proof.
  intros Hl. subst c.
  now rewrite firstn_app, firstn_all, Nat.sub_diag, firstn_O, app_nil_r.
Qed.

Lemma skipn_row {A : Type} (c : nat) (l rest : list A) :
  length l = c -> skipn c (l ++ rest) = rest.
Proof. intros Hl. subst c. apply skipn_header. Qed.

Lemma chunks_concat {A : Type} (c : nat) (rows : list (list A)) :
  Forall (fun l => length l = c) rows ->
  chunks c (length rows) (concat rows) = rows.
Proof.
  induction 1 as [|l rows Hl _ IH]; simpl; [reflexivity|].
  rewrite (firstn_row c l _ Hl), (skipn_row c l _ Hl), IH. reflexivity.
Qed.

Lemma length_concat_tl (c : nat) (rows : list (list Q)) :
  Forall (fun l => length l = c) rows ->
  length (concat (map (@tl Q) rows)) = length rows * (c - 1).
Proof.
  induction 1 as [|l rows Hl _ IH]; simpl; [reflexivity|].
  rewrite length_app, IH. destruct l; simpl in *; lia.
Qed.

(** What [read_soi] makes of the rows [genfromtxt] hands over. *)
Lemma read_soi_rows (file rows : list (list Q)) (c : nat) :
  Slp.load_soi file = Ok (mkarray [length rows; c] (concat rows)) ->
  rows <> [] -> Forall (fun l => length l = c) rows ->
  Slp.read_soi file
  = Ok (Slp.mkTimeseries "SOI"
          (arange (hd 0%Q (soi_years rows)) (last (soi_years rows) 0%Q + 1)%Q (1 / 12)%Q)
          (concat (map (@tl Q) rows))).
Proof.
  intros Hload Hne Hu. unfold Slp.read_soi. rewrite Hload.
  cbn [bind shape flat]. rewrite (chunks_concat c rows Hu).
  fold (soi_years rows).
  destruct rows as [|r rows]; [now contradiction Hne|].
  reflexivity.
Qed.

Lemma load_soi_strict (file : list (list Q)) (a : ndarray Q) :
  genfromtxt file 9 0 = Ok a -> Slp.load_soi file = Ok a.
Proof. intros E. unfold Slp.load_soi. now rewrite E. Qed.

Lemma load_soi_retry (file : list (list Q)) :
  genfromtxt file 9 0 = Raise ValueError -> Slp.load_soi file = genfromtxt file 9 1.
Proof. intros E. unfold Slp.load_soi. now rewrite E. Qed.

(** C8, as the code has it.  The load is retried once, without the last
    line, whenever the strict load raises [ValueError], that is whenever
    some line has another column count than the first: if the lines
    before the last, at least two, have one column count and the last has
    another (fewer or more), the series holds the values of all rows but
    the last; if the strict load succeeds no row is dropped; an error of
    the second load is not caught. *)
Theorem soi_retry_drops_last_row
  (hdr rows : list (list Q)) (c : nat) :
  length hdr = 9 -> 2 <= length rows -> 2 <= c ->
  Forall (fun l => length l = c) rows ->
  (exists ts,
      Slp.read_soi (hdr ++ rows) = Ok ts
      /\ Slp.ts_data ts = concat (map (@tl Q) rows)
      /\ length (Slp.ts_data ts) = length rows * (c - 1))
  /\ (forall l : list Q,
        length l <> 0 -> length l <> c ->
        genfromtxt (hdr ++ rows ++ [l]) 9 0 = Raise ValueError
        /\ exists ts,
            Slp.read_soi (hdr ++ rows ++ [l]) = Ok ts
            /\ Slp.ts_data ts = concat (map (@tl Q) rows)
            /\ length (Slp.ts_data ts) = length rows * (c - 1))
  /\ (forall (file : list (list Q)) (e : exn),
        genfromtxt file 9 0 = Raise ValueError ->
        genfromtxt file 9 1 = Raise e ->
        Slp.read_soi file = Raise e).
Proof.
  intros Hh Hn Hc Hu.
  assert (Hne : rows <> []) by (intros E; rewrite E in Hn; simpl in Hn; lia).
  split; [|split].
  - pose proof (genfromtxt_uniform hdr rows c Hn Hc Hu) as Hload. rewrite Hh in Hload.
    eexists. split; [apply (read_soi_rows _ rows c (load_soi_strict _ _ Hload) Hne Hu)|].
    split; [reflexivity|apply (length_concat_tl c rows Hu)].
  - intros l Hl0 Hlc.
    destruct (genfromtxt_ragged_last hdr rows l c Hn Hc Hu Hl0 Hlc) as [Hstrict Hretry].
    rewrite Hh in Hstrict, Hretry.
    split; [exact Hstrict|].
    assert (Hload : Slp.load_soi (hdr ++ rows ++ [l])
                    = Ok (mkarray [length rows; c] (concat rows)))
      by (rewrite (load_soi_retry _ Hstrict); exact Hretry).
    eexists. split; [apply (read_soi_rows _ rows c Hload Hne Hu)|].
    split; [reflexivity|apply (length_concat_tl c rows Hu)].
  - intros file e Hstrict Hretry.
    unfold Slp.read_soi. rewrite (load_soi_retry _ Hstrict), Hretry. reflexivity.
Qed.

Lemma soi_retry_drops_last_row_witness :
  exists ts,
    Slp.read_soi (repeat [] 9 ++ [[2000; 1; 2]; [2001; 3; 4]]%Q ++ [[2002; 5]%Q]) = Ok ts
    /\ Slp.ts_data ts = [1; 2; 3; 4]%Q.
Proof.
  destruct (@soi_retry_drops_last_row (repeat [] 9) [[2000; 1; 2]; [2001; 3; 4]]%Q 3)
    as [_ [H _]].
  - reflexivity.
  - simpl. lia.
  - lia.
  - repeat constructor.
  - destruct (H [2002; 5]%Q) as [_ [ts [E [D _]]]].
    + simpl. lia.
    + simpl. lia.
    + exists ts. split; [exact E|exact D].
Defined.

(** C8, as stated, fails: a last row with one column too many is dropped
    by the same retry, and in a file of two rows the retry leaves a single
    row, a 1-D array on which [all_data[:,0]] raises. *)
Lemma soi_retry_not_only_incomplete_last_row :
  (exists ts, Slp.read_soi soi_long_last = Ok ts /\ length (Slp.ts_data ts) = 24)
  /\ genfromtxt soi_two_rows 9 0 = Raise ValueError
  /\ Slp.read_soi soi_two_rows = Raise IndexError.
Proof.
  split; [|split].
  - eexists. split; [vm_compute; reflexivity|reflexivity].
  - vm_compute. reflexivity.
  - vm_compute. reflexivity.
Qed.

(** *** The time axis of the SOI series *)

Lemma last_inject_Z (ys : list Z) :
  last (map inject_Z ys) 0%Q = inject_Z (last ys 0%Z).
Proof.
  induction ys as [|y [|y' ys] IH]; simpl; [reflexivity|reflexivity|].
  exact IH.
Qed.

Lemma months_between (a b : Z) :
  Qceiling ((inject_Z b + 1 - inject_Z a) / (1 / 12))%Q = (12 * (b - a + 1))%Z.
Proof.
  rewrite <- (Qceiling_Z (12 * (b - a + 1))).
  apply Qceiling_comp.
  unfold Z.sub.
  rewrite inject_Z_mult, !inject_Z_plus, inject_Z_opp.
  change (inject_Z 12) with 12%Q. change (inject_Z 1) with 1%Q.
  field.
Qed.

Lemma increasingQ_steps (start step : Q) (a n : nat) :
  (0 < step)%Q ->
  increasingQ (map (fun i => (start + inject_Z (Z.of_nat i) * step)%Q) (seq a n)).
Proof.
  intros Hstep. revert a. induction n as [|n IH]; intros a; [exact I|].
  destruct n as [|n]; [exact I|].
  specialize (IH (S a)). cbn [seq map] in IH |- *. cbn [increasingQ].
  split; [|exact IH].
  apply Qplus_lt_r. apply Qmult_lt_compat_r; [exact Hstep|].
  rewrite <- Zlt_Qlt. lia.
Qed.

(** A strictly increasing year column spans at least as many years as it
    has rows, and exactly as many when no year is missing. *)
Lemma increasing_span (y : Z) (ys : list Z) :
  increasing (y :: ys) ->
  (Z.of_nat (length (y :: ys)) <= last (y :: ys) 0 - y + 1)%Z
  /\ ((last (y :: ys) 0 - y + 1 = Z.of_nat (length (y :: ys)))%Z <-> contiguous (y :: ys)).
Proof.
  revert y. induction ys as [|y' ys IH]; intros y Hinc.
  - simpl. split; [lia|]. split; [intros _; exact I|intros _; lia].
  - destruct Hinc as [Hlt Hinc]. destruct (IH y' Hinc) as [Hle Hiff].
    change (last (y :: y' :: ys) 0%Z) with (last (y' :: ys) 0%Z).
    change (length (y :: y' :: ys)) with (S (length (y' :: ys))).
    rewrite Nat2Z.inj_succ.
    split; [lia|].
    change (contiguous (y :: y' :: ys)) with (y' = (y + 1)%Z /\ contiguous (y' :: ys)).
    split.
    + intros E. assert (y' = (y + 1)%Z) by lia. split; [assumption|].
      apply Hiff. lia.
    + intros [E C]. apply Hiff in C. lia.
Qed.

(** C10, as the code has it.  The time axis runs from the first year to
    the last in steps of a twelfth whatever rows are present, the values
    are the rows present: the two sequences have one length exactly when
    the last year is the first plus the number of rows less one.  For a
    year column that increases this is exactly when no year is missing,
    and a missing year makes the times more than the values; a year
    column that does not increase can have a year missing and the two
    lengths equal. *)
Theorem soi_times_and_values_lengths
  (hdr rows : list (list Q)) (ys : list Z) :
  length hdr = 9 -> 2 <= length rows ->
  Forall (fun l => length l = 13) rows ->
  soi_years rows = map inject_Z ys ->
  exists ts,
    Slp.read_soi (hdr ++ rows) = Ok ts
    /\ Slp.ts_times ts
       = arange (inject_Z (hd 0%Z ys)) (inject_Z (last ys 0%Z) + 1)%Q (1 / 12)%Q
    /\ Slp.ts_data ts = concat (map (@tl Q) rows)
    /\ Z.of_nat (length (Slp.ts_times ts)) = Z.max 0 (12 * (last ys 0 - hd 0 ys + 1))%Z
    /\ length (Slp.ts_data ts) = 12 * length rows
    /\ increasingQ (Slp.ts_times ts)
    /\ (length (Slp.ts_times ts) = length (Slp.ts_data ts)
        <-> (last ys 0 - hd 0 ys + 1 = Z.of_nat (length rows))%Z)
    /\ (increasing ys ->
        (length (Slp.ts_times ts) = length (Slp.ts_data ts) <-> contiguous ys)
        /\ (~ contiguous ys -> length (Slp.ts_data ts) < length (Slp.ts_times ts))).
Proof.
  intros Hh Hn Hu Hyears.
  assert (Hne : rows <> []) by (intros E; rewrite E in Hn; simpl in Hn; lia).
  assert (Hc : 2 <= 13) by lia.
  pose proof (genfromtxt_uniform hdr rows 13 Hn Hc Hu) as Hload. rewrite Hh in Hload.
  pose proof (read_soi_rows _ rows 13 (load_soi_strict _ _ Hload) Hne Hu) as Hread.
  rewrite Hyears, last_inject_Z in Hread.
  assert (Hlen : length ys = length rows).
  { rewrite <- (length_map inject_Z ys), <- Hyears. unfold soi_years. apply length_map. }
  destruct ys as [|y ys]; [simpl in Hlen; lia|].
  cbn [map hd] in Hread.
  eexists. split; [exact Hread|]. cbn [Slp.ts_times Slp.ts_data hd].
  assert (Htimes : Z.of_nat (length (arange (inject_Z y) (inject_Z (last (y :: ys) 0%Z) + 1)%Q
                                            (1 / 12)%Q))
                   = Z.max 0 (12 * (last (y :: ys) 0 - y + 1))%Z).
  { unfold arange. rewrite length_map, length_seq, months_between. lia. }
  assert (Hdata : length (concat (map (@tl Q) rows)) = 12 * length rows).
  { rewrite (length_concat_tl 13 rows Hu). lia. }
  split; [reflexivity|]. split; [reflexivity|]. split; [exact Htimes|].
  split; [exact Hdata|]. split.
  { unfold arange. apply increasingQ_steps. reflexivity. }
  split.
  - rewrite Hdata. split; intros E; lia.
  - intros Hinc. destruct (increasing_span y ys Hinc) as [Hspan Hiff].
    split.
    + rewrite <- Hiff, Hdata, <- Hlen. split; intros E; lia.
    + intros Hgap. rewrite Hdata, <- Hlen.
      assert (last (y :: ys) 0 - y + 1 <> Z.of_nat (length (y :: ys)))%Z
        by (intros E; apply Hgap, Hiff, E).
      lia.
Qed.

Lemma soi_times_and_values_lengths_witness :
  exists ts,
    Slp.read_soi (repeat [] 9 ++ soi_rows_gap) = Ok ts
    /\ length (Slp.ts_data ts) = 12 * 3
    /\ Z.of_nat (length (Slp.ts_times ts)) = (12 * 4)%Z
    /\ length (Slp.ts_data ts) < length (Slp.ts_times ts).
Proof.
  destruct (@soi_times_and_values_lengths (repeat [] 9) soi_rows_gap [2000; 2001; 2003]%Z)
    as [ts [E [_ [_ [T [D [_ [_ G]]]]]]]].
  - reflexivity.
  - simpl. lia.
  - repeat constructor.
  - reflexivity.
  - exists ts. split; [exact E|]. split; [exact D|]. split; [exact T|].
    apply G; simpl; lia.
Defined.

(** C10, as stated, fails: with the years 2000, 2005, 2002 the year 2001
    is missing, and the times, from 2000 to the end of 2002, are 36 as the
    values are. *)
Lemma soi_years_out_of_order_equal_lengths :
  exists ts,
    Slp.read_soi (repeat [] 9 ++ soi_rows_unordered) = Ok ts
    /\ length (Slp.ts_times ts) = 36
    /\ length (Slp.ts_data ts) = 36
    /\ soi_years soi_rows_unordered = map inject_Z [2000; 2005; 2002]%Z
    /\ ~ contiguous [2000; 2005; 2002]%Z.
Proof.
  eexists. split; [vm_compute; reflexivity|].
  split; [reflexivity|]. split; [reflexivity|]. split; [reflexivity|].
  simpl. lia.
Qed.

(** ** The monthly blocks of HadSLP2 *)

Lemma for_enumerate_app {A S : Type} (f : nat -> A -> S -> result S)
      (i : nat) (l1 l2 : list A) (s : S) :
  for_enumerate f i (l1 ++ l2) s
  = (s' <- for_enumerate f i l1 s ;; for_enumerate f (i + length l1) l2 s').
Proof.
  revert i s. induction l1 as [|x l1 IH]; intros i s; simpl.
  - now rewrite Nat.add_0_r.
  - destruct (f i x s) as [s'|e]; simpl; [|reflexivity].
    rewrite IH. now rewrite Nat.add_succ_r.
Qed.

Lemma mapM_map {A B : Type} (f : A -> result B) (g : A -> B) (l : list A) :
  Forall (fun x => f x = Ok (g x)) l -> mapM f l = Ok (map g l).
Proof.
  induction 1 as [|x l Hx _ IH]; simpl; [reflexivity|].
  now rewrite Hx, IH.
Qed.

Lemma mapM_parses (l : list string) :
  Forall (fun t => parses t = true) l -> exists zs, mapM int_of_string l = Ok zs.
Proof.
  induction 1 as [|t l Ht _ [zs IH]]; simpl; [now exists []|].
  unfold parses in Ht. destruct (int_of_string t) as [z|e]; [|discriminate].
  rewrite IH. simpl. now exists (z :: zs).
Qed.

(** A line that is not a pair of tokens joins the block being read. *)
Lemma read_line_body (ll : nat) (line : string) (ys ms : list Z)
      (am : list (list (list string))) (cur : list (list string)) :
  length (Py.split line) <> 2 ->
  Slp.read_line ll line (Slp.mklocals ys ms am (Some cur))
  = Ok (Slp.mklocals ys ms am (Some (cur ++ [Py.split line]))).
Proof.
  intros Hw. unfold Slp.read_line.
  apply Nat.eqb_neq in Hw. rewrite Hw. reflexivity.
Qed.

Lemma scan_body (w i : nat) (lines : list string) (ys ms : list Z)
      (am : list (list (list string))) (cur : list (list string)) :
  w <> 2 -> Forall (fun l => length (Py.split l) = w) lines ->
  for_enumerate Slp.read_line i lines (Slp.mklocals ys ms am (Some cur))
  = Ok (Slp.mklocals ys ms am (Some (cur ++ map Py.split lines))).
Proof.
  intros Hw Hlines. revert i cur.
  induction Hlines as [|l lines Hl _ IH]; intros i cur; simpl.
  - now rewrite app_nil_r.
  - rewrite read_line_body by lia. simpl.
    rewrite IH, <- app_assoc. reflexivity.
Qed.

(** A header line after the first closes the block being read. *)
Lemma read_line_header (ll : nat) (b : block) (ym : Z * Z) (ys ms : list Z)
      (am : list (list (list string))) (cur : list (list string)) :
  header_is b ym -> ll <> 0 ->
  Slp.read_line ll (header b) (Slp.mklocals ys ms am (Some cur))
  = Ok (Slp.mklocals (ys ++ [fst ym]) (ms ++ [snd ym]) (am ++ [cur]) (Some [])).
Proof.
  intros [ty [tm [Hsplit [Hy Hm]]]] Hll. unfold Slp.read_line.
  rewrite Hsplit. cbn [length Nat.eqb nth]. rewrite Hy, Hm. cbn [bind].
  apply Nat.eqb_neq in Hll. rewrite Hll. reflexivity.
Qed.

(** The first line of the file, a header, opens the first block. *)
Lemma read_line_first_header (b : block) (ym : Z * Z) :
  header_is b ym ->
  Slp.read_line 0 (header b) (Slp.mklocals [] [] [] None)
  = Ok (Slp.mklocals [fst ym] [snd ym] [] (Some [])).
Proof.
  intros [ty [tm [Hsplit [Hy Hm]]]]. unfold Slp.read_line.
  rewrite Hsplit. cbn [length Nat.eqb nth]. rewrite Hy, Hm. reflexivity.
Qed.

Lemma body_ok_lines (r w : nat) (b : block) :
  body_ok r w b = true ->
  length (body b) = r
  /\ Forall (fun l => length (Py.split l) = w) (body b)
  /\ Forall (fun row => length row = w /\ Forall (fun t => parses t = true) row)
            (block_tokens b).
Proof.
  unfold body_ok, block_tokens. intros H.
  apply andb_true_iff in H. destruct H as [Hr Hrows].
  apply Nat.eqb_eq in Hr. split; [exact Hr|].
  rewrite forallb_forall in Hrows.
  split.
  - apply Forall_forall. intros l Hl.
    specialize (Hrows l Hl). apply andb_true_iff in Hrows.
    now apply Nat.eqb_eq.
  - apply Forall_forall. intros row Hrow.
    apply in_map_iff in Hrow. destruct Hrow as [l [El Hl]]. subst row.
    specialize (Hrows l Hl). apply andb_true_iff in Hrows.
    destruct Hrows as [Hw Hp]. split; [now apply Nat.eqb_eq|].
    apply Forall_forall. now apply forallb_forall.
Qed.

(** The blocks after the first: each header closes the block before it,
    so that in the end the closed blocks and the open one are, in file
    order, the blocks read. *)
Lemma scan_blocks (r w : nat) (blocks : list block) (dates : list (Z * Z)) :
  w <> 2 -> Forall2 header_is blocks dates ->
  forallb (body_ok r w) blocks = true ->
  forall (i : nat) (ys ms : list Z) (am : list (list (list string)))
         (cur : list (list string)),
    i <> 0 ->
    exists am' cur',
      for_enumerate Slp.read_line i (lines_of blocks) (Slp.mklocals ys ms am (Some cur))
      = Ok (Slp.mklocals (ys ++ map fst dates) (ms ++ map snd dates) am' (Some cur'))
      /\ am' ++ [cur'] = am ++ cur :: map block_tokens blocks.
Proof.
  intros Hw Hheaders. induction Hheaders as [|b ym blocks dates Hb _ IH];
    intros Hbodies i ys ms am cur Hi.
  - exists am, cur. simpl. rewrite !app_nil_r. split; reflexivity.
  - cbn [forallb] in Hbodies. apply andb_true_iff in Hbodies.
    destruct Hbodies as [Hbody Hrest].
    destruct (body_ok_lines r w b Hbody) as [_ [Hlines _]].
    cbn [lines_of flat_map]. fold (lines_of blocks).
    cbn [app for_enumerate].
    rewrite (read_line_header i b ym ys ms am cur Hb Hi). cbn [bind].
    rewrite for_enumerate_app, (scan_body w (S i) (body b) _ _ _ [] Hw Hlines).
    cbn [bind app].
    destruct (IH Hrest (S i + length (body b)) (ys ++ [fst ym]) (ms ++ [snd ym])
                 (am ++ [cur]) (map Py.split (body b))) as [am' [cur' [E Hclosed]]];
      [lia|].
    exists am', cur'. rewrite E. split.
    + cbn [map]. now rewrite <- !app_assoc.
    + rewrite Hclosed, <- app_assoc. reflexivity.
Qed.

Lemma combine_fst_snd {A B : Type} (l : list (A * B)) :
  combine (map fst l) (map snd l) = l.
Proof.
  induction l as [|[a b] l IH]; simpl; [reflexivity|].
  now rewrite IH.
Qed.

(** Blocks of [r] rows of [w] tokens make a 3-D array. *)
Lemma array3_blocks {A : Type} (r w : nat) (toks : list (list (list A))) :
  toks <> [] -> 0 < r ->
  Forall (fun b => length b = r /\ Forall (fun row => length row = w) b) toks ->
  array3 toks = Ok (mkarray [length toks; r; w] (concat (concat toks))).
Proof.
  intros Hne Hr Hall. unfold array3.
  destruct toks as [|b toks']; [now contradiction Hne|].
  set (toks := b :: toks') in *.
  assert (Hb : length b = r /\ Forall (fun row => length row = w) b)
    by (inversion Hall; assumption).
  destruct Hb as [Hbr Hbw].
  assert (Hrows : forallb (fun b' => length b' =? length b) toks = true).
  { apply forallb_forall. intros b' Hin.
    rewrite Forall_forall in Hall. destruct (Hall b' Hin) as [E _].
    apply Nat.eqb_eq. lia. }
  rewrite Hrows.
  destruct b as [|row b']; [simpl in Hbr; lia|].
  assert (Hrow : length row = w) by (inversion Hbw; assumption).
  assert (Hcols : forallb (forallb (fun row' => length row' =? length row)) toks = true).
  { apply forallb_forall. intros b'' Hin. apply forallb_forall. intros row' Hin'.
    rewrite Forall_forall in Hall. destruct (Hall b'' Hin) as [_ Hw'].
    rewrite Forall_forall in Hw'. apply Nat.eqb_eq. rewrite (Hw' row' Hin'). lia. }
  rewrite Hcols, Hbr, Hrow. reflexivity.
Qed.

Lemma day_offset_ok (d0 d : Z * Z) :
  date_ok d0 = true -> date_ok d = true ->
  Slp.day_offset (fst d0) (snd d0) (fst d) (snd d) = Ok (first_day d - first_day d0)%Z.
Proof.
  unfold date_ok, Slp.day_offset, first_day. intros H0 H.
  destruct (Datetime.make (fst d) (snd d) 1) as [t|] eqn:Et; [|discriminate].
  destruct (Datetime.make (fst d0) (snd d0) 1) as [t0|] eqn:Et0; [|discriminate].
  unfold Datetime.make in Et, Et0.
  destruct (Datetime.c_int (fst d) && _ && _)%bool in Et; [|discriminate].
  destruct (Datetime.c_int (fst d0) && _ && _)%bool in Et0; [|discriminate].
  destruct (_ && _)%bool in Et; [|discriminate].
  destruct (_ && _)%bool in Et0; [|discriminate].
  inversion Et. inversion Et0. reflexivity.
Qed.

(** A file of well-formed blocks, as far as the times: the values are
    those of the integers of the bodies, and what is left is the making
    of the dates and of the series. *)
Lemma read_hadslp_scanned (r w : nat) (b0 : block) (blocks : list block)
      (d0 : Z * Z) (dates : list (Z * Z)) :
  w <> 2 -> 0 < r ->
  Forall2 header_is (b0 :: blocks) (d0 :: dates) ->
  forallb (body_ok r w) (b0 :: blocks) = true ->
  exists zs,
    mapM int_of_string (concat (concat (map block_tokens (b0 :: blocks)))) = Ok zs
    /\ Slp.read_hadslp (lines_of (b0 :: blocks))
       = (times <- mapM (fun ym => Slp.day_offset (fst d0) (snd d0) (fst ym) (snd ym))
                        (d0 :: dates) ;;
          Slp.make_iris_cube_3d (hadslp_values (S (length blocks)) r w zs) times
            (fst d0, snd d0)
            (arange (-180 + 5 / 2)%Q (180 + 5 / 2)%Q 5%Q)
            (arange (-90)%Q (90 + 5)%Q 5%Q) "HadSLP" "bar").
Proof.
  intros Hw Hr Hheaders Hbodies.
  inversion Hheaders as [|? ? ? ? Hb0 Hrest]; subst.
  pose proof Hbodies as Hbodies0.
  cbn [forallb] in Hbodies0. apply andb_true_iff in Hbodies0.
  destruct Hbodies0 as [Hbody0 Hbodies'].
  destruct (body_ok_lines r w b0 Hbody0) as [_ [Hlines0 _]].
  destruct (scan_blocks r w blocks dates Hw Hrest Hbodies' (1 + length (body b0))
              [fst d0] [snd d0] [] (map Py.split (body b0))) as [am' [cur' [Escan Hclosed]]];
    [lia|].
  assert (Eloop : for_enumerate Slp.read_line 0 (lines_of (b0 :: blocks))
                    (Slp.mklocals [] [] [] None)
                  = Ok (Slp.mklocals (fst d0 :: map fst dates) (snd d0 :: map snd dates)
                          am' (Some cur'))).
  { cbn [lines_of flat_map]. fold (lines_of blocks). cbn [app for_enumerate].
    rewrite (read_line_first_header b0 d0 Hb0). cbn [bind].
    rewrite for_enumerate_app, (scan_body w 1 (body b0) _ _ _ [] Hw Hlines0).
    cbn [bind app]. exact Escan. }
  cbn [app] in Hclosed.
  assert (Htoks : Forall (fun b => length b = r
                                   /\ Forall (fun row => length row = w
                                                         /\ Forall (fun t => parses t = true) row) b)
                         (map block_tokens (b0 :: blocks))).
  { apply Forall_map, Forall_forall. intros b Hin.
    rewrite forallb_forall in Hbodies.
    destruct (body_ok_lines r w b (Hbodies b Hin)) as [Hlen [_ Hrows]].
    split; [|exact Hrows]. unfold block_tokens. now rewrite length_map. }
  assert (Harray : array3 (map block_tokens (b0 :: blocks))
                   = Ok (mkarray [length (map block_tokens (b0 :: blocks)); r; w]
                           (concat (concat (map block_tokens (b0 :: blocks)))))).
  { apply array3_blocks; [discriminate|exact Hr|].
    apply (Forall_impl _ (P := fun b => length b = r
                                       /\ Forall (fun row => length row = w
                                                             /\ Forall (fun t => parses t = true) row) b));
      [|exact Htoks].
    intros b [Hlen Hrows]. split; [exact Hlen|].
    apply (Forall_impl _ (P := fun row => length row = w
                                          /\ Forall (fun t => parses t = true) row));
      [|exact Hrows].
    intros row [E _]. exact E. }
  destruct (mapM_parses (concat (concat (map block_tokens (b0 :: blocks))))) as [zs Hzs].
  { apply Forall_concat, Forall_concat.
    apply (Forall_impl _ (P := fun b => length b = r
                                       /\ Forall (fun row => length row = w
                                                             /\ Forall (fun t => parses t = true) row) b));
      [|exact Htoks].
    intros b [_ Hrows].
    apply (Forall_impl _ (P := fun row => length row = w
                                          /\ Forall (fun t => parses t = true) row));
      [|exact Hrows].
    intros row [_ P]. exact P. }
  exists zs. split; [exact Hzs|].
  unfold Slp.read_hadslp. rewrite Eloop.
  cbn [bind Slp.read_local Slp.this_month Slp.all_months].
  change (map block_tokens (b0 :: blocks))
    with (block_tokens b0 :: map block_tokens blocks) in Harray, Hzs.
  change (map Py.split (body b0)) with (block_tokens b0) in Hclosed.
  rewrite Hclosed, Harray. cbn [bind].
  unfold astype_int. cbn [flat shape]. rewrite Hzs. cbn [bind].
  unfold swapaxes12, map_array. cbn [shape bind].
  unfold flip_last, build3 at 2. cbn [shape bind Slp.years Slp.months].
  cbn [length]. rewrite length_map.
  change (combine (fst d0 :: map fst dates) (snd d0 :: map snd dates))
    with (combine (map fst (d0 :: dates)) (map snd (d0 :: dates))).
  rewrite combine_fst_snd. reflexivity.
Qed.

Lemma hadslp_times (d0 : Z * Z) (dates : list (Z * Z)) :
  forallb date_ok (d0 :: dates) = true ->
  mapM (fun ym => Slp.day_offset (fst d0) (snd d0) (fst ym) (snd ym)) (d0 :: dates)
  = Ok (map (fun d => (first_day d - first_day d0)%Z) (d0 :: dates)).
Proof.
  intros Hdates. apply mapM_map. apply Forall_forall. intros d Hin.
  rewrite forallb_forall in Hdates.
  apply day_offset_ok; apply Hdates; [now left|exact Hin].
Qed.

Lemma increasingb_spec (ts : list Z) : Slp.increasingb ts = true <-> increasing ts.
Proof.
  induction ts as [|t [|t' ts] IH]; [simpl; tauto|simpl; tauto|].
  change (Slp.increasingb (t :: t' :: ts))
    with ((t <? t')%Z && Slp.increasingb (t' :: ts)).
  change (increasing (t :: t' :: ts)) with ((t < t')%Z /\ increasing (t' :: ts)).
  rewrite andb_true_iff, Z.ltb_lt, IH. tauto.
Qed.

(** Offsets from a fixed day are in the order of the days. *)
Lemma increasing_offsets (z0 : Z) (zs : list Z) :
  increasing (map (fun z => (z - z0)%Z) zs) <-> increasing zs.
Proof.
  induction zs as [|z [|z' zs] IH]; [simpl; tauto|simpl; tauto|].
  change (increasing (map (fun z => (z - z0)%Z) (z :: z' :: zs)))
    with ((z - z0 < z' - z0)%Z /\ increasing (map (fun z => (z - z0)%Z) (z' :: zs))).
  change (increasing (z :: z' :: zs)) with ((z < z')%Z /\ increasing (z' :: zs)).
  rewrite IH. split; intros [H1 H2]; (split; [lia|exact H2]).
Qed.

Lemma increasing_times (d0 : Z * Z) (ds : list (Z * Z)) :
  increasing (map (fun d => (first_day d - first_day d0)%Z) ds)
  <-> increasing (map first_day ds).
Proof.
  rewrite <- (increasing_offsets (first_day d0) (map first_day ds)), map_map. tauto.
Qed.

(** The two axes of [read_hadslp]: 72 longitudes, 37 latitudes. *)
Lemma hadslp_axes :
  length (arange (-180 + 5 / 2)%Q (180 + 5 / 2)%Q 5%Q) = 72
  /\ length (arange (-90)%Q (90 + 5)%Q 5%Q) = 37.
Proof. split; vm_compute; reflexivity. Qed.

(** A file of well-formed blocks of 37 lines of 72 values whose dates
    increase is read into one time step per block, in the order of the
    file, each at its offset in days from the first. *)
Lemma read_hadslp_blocks (b0 : block) (blocks : list block)
      (d0 : Z * Z) (dates : list (Z * Z)) :
  Forall2 header_is (b0 :: blocks) (d0 :: dates) ->
  forallb (body_ok 37 72) (b0 :: blocks) = true ->
  forallb date_ok (d0 :: dates) = true ->
  increasing (map first_day (d0 :: dates)) ->
  exists zs,
    mapM int_of_string (concat (concat (map block_tokens (b0 :: blocks)))) = Ok zs
    /\ Slp.read_hadslp (lines_of (b0 :: blocks))
       = Ok (Slp.mkcube (hadslp_values (S (length blocks)) 37 72 zs)
               (map (fun d => (first_day d - first_day d0)%Z) (d0 :: dates))
               (fst d0, snd d0)
               (arange (-180 + 5 / 2)%Q (180 + 5 / 2)%Q 5%Q)
               (arange (-90)%Q (90 + 5)%Q 5%Q) "HadSLP" "bar").
Proof.
  intros Hh Hb Hd Hinc.
  destruct (read_hadslp_scanned 37 72 b0 blocks d0 dates ltac:(lia) ltac:(lia) Hh Hb)
    as [zs [Hzs Hread]].
  exists zs. split; [exact Hzs|].
  rewrite Hread, (hadslp_times d0 dates Hd). cbn [bind].
  unfold Slp.make_iris_cube_3d.
  destruct hadslp_axes as [Hlon Hlat]. rewrite Hlon, Hlat.
  assert (Hshape : shape (hadslp_values (S (length blocks)) 37 72 zs)
                   = [length (map (fun d => (first_day d - first_day d0)%Z) (d0 :: dates));
                      72; 37]).
  { unfold hadslp_values, build3. cbn [shape]. rewrite length_map.
    pose proof (Forall2_length Hh) as Hlen. cbn [length] in Hlen |- *.
    f_equal. lia. }
  rewrite Hshape, list_eq_dec_refl.
  apply (increasing_times d0) in Hinc. apply increasingb_spec in Hinc.
  rewrite Hinc. reflexivity.
Qed.

(** Blocks whose dates do not increase make no series. *)
Lemma read_hadslp_unordered (r w : nat) (b0 : block) (blocks : list block)
      (d0 : Z * Z) (dates : list (Z * Z)) :
  w <> 2 -> 0 < r ->
  Forall2 header_is (b0 :: blocks) (d0 :: dates) ->
  forallb (body_ok r w) (b0 :: blocks) = true ->
  forallb date_ok (d0 :: dates) = true ->
  ~ increasing (map first_day (d0 :: dates)) ->
  Slp.read_hadslp (lines_of (b0 :: blocks)) = Raise FormatError.
Proof.
  intros Hw Hr Hh Hb Hd Hinc.
  destruct (read_hadslp_scanned r w b0 blocks d0 dates Hw Hr Hh Hb) as [zs [_ Hread]].
  rewrite Hread, (hadslp_times d0 dates Hd). cbn [bind].
  unfold Slp.make_iris_cube_3d.
  destruct (list_eq_dec Nat.eq_dec _ _); [|reflexivity].
  destruct (Slp.increasingb _) eqn:E; [|reflexivity].
  apply increasingb_spec, (increasing_times d0) in E. contradiction.
Qed.

(** *** Calendar arithmetic *)

Lemma year_length (y : Z) :
  (Datetime._days_before_year (y + 1) - Datetime._days_before_year y
   = 365 + (if Datetime._is_leap y then 1 else 0))%Z.
Proof.
  unfold Datetime._days_before_year, Datetime._is_leap.
  replace (y + 1 - 1)%Z with y by lia.
  destruct (y mod 4 =? 0)%Z eqn:E4; destruct (y mod 100 =? 0)%Z eqn:E100;
    destruct (y mod 400 =? 0)%Z eqn:E400; cbn [andb orb negb];
    rewrite ?Z.eqb_eq, ?Z.eqb_neq in *; Z.to_euclidean_division_equations; lia.
Qed.

(** From the first day of a month to the first day of the next there are
    as many days as the month has, February of a leap year included. *)
Lemma month_length (y m : Z) :
  (1 <= m <= 12)%Z ->
  (first_day (next_month (y, m)) - first_day (y, m) = Datetime._days_in_month y m)%Z.
Proof.
  intros Hm.
  assert (Hcases : (m = 1 \/ m = 2 \/ m = 3 \/ m = 4 \/ m = 5 \/ m = 6 \/ m = 7
                    \/ m = 8 \/ m = 9 \/ m = 10 \/ m = 11 \/ m = 12)%Z) by lia.
  pose proof (year_length y) as Hy.
  unfold first_day, next_month, Datetime._ymd2ord, Datetime._days_before_month,
    Datetime._days_in_month.
  repeat (destruct Hcases as [E|Hcases]; [subst m|]); try subst m;
    cbn [fst snd Z.eqb Pos.eqb];
    generalize dependent (Datetime._days_before_year (y + 1));
    generalize (Datetime._days_before_year y);
    destruct (Datetime._is_leap y); intros; simpl; lia.
Qed.

Lemma date_ok_month (d : Z * Z) : date_ok d = true -> (1 <= snd d <= 12)%Z.
Proof.
  unfold date_ok, Datetime.make.
  destruct (Datetime.c_int (fst d) && _ && _)%bool; [|discriminate].
  destruct ((Datetime.MINYEAR <=? fst d)%Z && (fst d <=? Datetime.MAXYEAR)%Z
            && (1 <=? snd d)%Z && (snd d <=? 12)%Z) eqn:E.
  - intros _. repeat (apply andb_true_iff in E; destruct E as [E ?]). lia.
  - cbn [andb]. discriminate.
Qed.

Lemma days_in_month_bounds (y m : Z) :
  (1 <= m <= 12)%Z -> (28 <= Datetime._days_in_month y m <= 31)%Z.
Proof.
  intros Hm.
  assert (Hcases : (m = 1 \/ m = 2 \/ m = 3 \/ m = 4 \/ m = 5 \/ m = 6 \/ m = 7
                    \/ m = 8 \/ m = 9 \/ m = 10 \/ m = 11 \/ m = 12)%Z) by lia.
  unfold Datetime._days_in_month.
  repeat (destruct Hcases as [E|Hcases]; [subst m|]); try subst m;
    destruct (Datetime._is_leap y); simpl; lia.
Qed.

Lemma days_before_month_step (y m m' : Z) :
  (1 <= m)%Z -> (m < m')%Z -> (m' <= 12)%Z ->
  (Datetime._days_before_month y m + Datetime._days_in_month y m
   <= Datetime._days_before_month y m')%Z.
Proof.
  intros H1 Hlt H12.
  assert (Hm : (m = 1 \/ m = 2 \/ m = 3 \/ m = 4 \/ m = 5 \/ m = 6 \/ m = 7
                \/ m = 8 \/ m = 9 \/ m = 10 \/ m = 11)%Z) by lia.
  assert (Hm' : (m' = 2 \/ m' = 3 \/ m' = 4 \/ m' = 5 \/ m' = 6 \/ m' = 7
                 \/ m' = 8 \/ m' = 9 \/ m' = 10 \/ m' = 11 \/ m' = 12)%Z) by lia.
  unfold Datetime._days_before_month, Datetime._days_in_month.
  destruct (Datetime._is_leap y);
    repeat (destruct Hm as [E|Hm]; [subst m|]); try subst m;
    repeat (destruct Hm' as [E|Hm']; [subst m'|]); try subst m';
    try lia; vm_compute; discriminate.
Qed.

Lemma days_before_month_bounds (y m : Z) :
  (1 <= m <= 12)%Z -> (0 <= Datetime._days_before_month y m <= 335)%Z.
Proof.
  intros Hm.
  assert (Hcases : (m = 1 \/ m = 2 \/ m = 3 \/ m = 4 \/ m = 5 \/ m = 6 \/ m = 7
                    \/ m = 8 \/ m = 9 \/ m = 10 \/ m = 11 \/ m = 12)%Z) by lia.
  unfold Datetime._days_before_month.
  destruct (Datetime._is_leap y);
    repeat (destruct Hcases as [E|Hcases]; [subst m|]); try subst m;
    split; vm_compute; discriminate.
Qed.

(** A later year begins at least 365 days later. *)
Lemma days_before_year_lt (y y' : Z) :
  (y < y')%Z ->
  (Datetime._days_before_year y + 365 <= Datetime._days_before_year y')%Z.
Proof.
  intros Hlt. unfold Datetime._days_before_year.
  Z.to_euclidean_division_equations. lia.
Qed.

(** The first days of two months are in the order of their years and
    months. *)
Lemma first_day_lt (d d' : Z * Z) :
  (1 <= snd d <= 12)%Z -> (1 <= snd d' <= 12)%Z ->
  (fst d < fst d')%Z \/ (fst d = fst d' /\ snd d < snd d')%Z ->
  (first_day d < first_day d')%Z.
Proof.
  destruct d as [y m], d' as [y' m']. cbn [fst snd]. intros Hm Hm' Hlt.
  unfold first_day, Datetime._ymd2ord. cbn [fst snd].
  destruct Hlt as [Hy|[Ey Hlt]].
  - pose proof (days_before_year_lt y y' Hy).
    pose proof (days_before_month_bounds y m Hm).
    pose proof (days_before_month_bounds y' m' Hm'). lia.
  - subst y'.
    pose proof (days_before_month_step y m m' ltac:(lia) Hlt ltac:(lia)).
    pose proof (days_in_month_bounds y m Hm). lia.
Qed.

Lemma first_day_lt_iff (d d' : Z * Z) :
  date_ok d = true -> date_ok d' = true ->
  ((first_day d < first_day d')%Z
   <-> (fst d < fst d')%Z \/ (fst d = fst d' /\ snd d < snd d')%Z).
Proof.
  intros Hd Hd'. apply date_ok_month in Hd. apply date_ok_month in Hd'.
  split; [|apply first_day_lt; assumption].
  intros Hlt.
  destruct (Z.lt_trichotomy (fst d) (fst d')) as [Hy|[Hy|Hy]]; [now left| |].
  - destruct (Z.lt_trichotomy (snd d) (snd d')) as [Hm|[Hm|Hm]]; [right; tauto| |].
    + destruct d, d'. cbn [fst snd] in *. subst. lia.
    + pose proof (first_day_lt d' d Hd' Hd). lia.
  - pose proof (first_day_lt d' d Hd' Hd). lia.
Qed.

(** For dates of the calendar, the order of the headers is the order of
    their first days. *)
Lemma chronological_first_day (ds : list (Z * Z)) :
  forallb date_ok ds = true ->
  (chronological ds <-> increasing (map first_day ds)).
Proof.
  induction ds as [|d [|d' ds] IH]; intros Hok; [simpl; tauto|simpl; tauto|].
  change (chronological (d :: d' :: ds))
    with (((fst d < fst d')%Z \/ (fst d = fst d' /\ snd d < snd d')%Z)
          /\ chronological (d' :: ds)).
  change (increasing (map first_day (d :: d' :: ds)))
    with ((first_day d < first_day d')%Z /\ increasing (map first_day (d' :: ds))).
  cbn [forallb] in Hok. apply andb_true_iff in Hok. destruct Hok as [Hd Hok].
  pose proof Hok as Hok'. cbn [forallb] in Hok'. apply andb_true_iff in Hok'.
  destruct Hok' as [Hd' _].
  rewrite (IH Hok), (first_day_lt_iff d d' Hd Hd'). tauto.
Qed.

(** C7. The time of a block is the number of days from the first day of
    the month of the first block to the first day of its own month, by
    the calendar: a month counts the days it has, 29 for February of a
    leap year.  A file of the two blocks (2015, 12) and (2016, 1), of 37
    lines of 72 values as the two axes have them, is a series of length 2
    at the days 0 and 31. *)
Theorem hadslp_times_are_calendar_day_offsets :
  (forall (b0 : block) (blocks : list block) (d0 : Z * Z) (dates : list (Z * Z)),
      Forall2 header_is (b0 :: blocks) (d0 :: dates) ->
      forallb (body_ok 37 72) (b0 :: blocks) = true ->
      forallb date_ok (d0 :: dates) = true ->
      chronological (d0 :: dates) ->
      exists c,
        Slp.read_hadslp (lines_of (b0 :: blocks)) = Ok c
        /\ Slp.times c = map (fun d => (first_day d - first_day d0)%Z) (d0 :: dates)
        /\ Slp.time_epoch c = d0)
  /\ (forall y m : Z,
        (1 <= m <= 12)%Z ->
        (first_day (next_month (y, m)) - first_day (y, m)
         = Datetime._days_in_month y m)%Z)
  /\ (forall b1 b2 : block,
        header_is b1 (2015, 12)%Z -> header_is b2 (2016, 1)%Z ->
        body_ok 37 72 b1 = true -> body_ok 37 72 b2 = true ->
        exists c,
          Slp.read_hadslp (lines_of [b1; b2]) = Ok c
          /\ Slp.times c = [0; 31]%Z
          /\ shape (Slp.data c) = [2; 72; 37]
          /\ Slp.time_epoch c = (2015, 12)%Z).
Proof.
  split; [|split].
  - intros b0 blocks d0 dates Hh Hb Hd Hc.
    apply (chronological_first_day _ Hd) in Hc.
    destruct (read_hadslp_blocks b0 blocks d0 dates Hh Hb Hd Hc) as [zs [_ E]].
    eexists. split; [exact E|]. cbn [Slp.times Slp.time_epoch].
    split; [reflexivity|]. now destruct d0.
  - exact month_length.
  - intros b1 b2 H1 H2 B1 B2.
    destruct (read_hadslp_blocks b1 [b2] (2015, 12)%Z [(2016, 1)%Z]) as [zs [_ E]].
    + repeat constructor; assumption.
    + cbn [forallb]. now rewrite B1, B2.
    + reflexivity.
    + vm_compute. split; [reflexivity|exact I].
    + eexists. split; [exact E|]. repeat split.
Qed.

Lemma hadslp_times_are_calendar_day_offsets_witness :
  exists c,
    Slp.read_hadslp (lines_of [slp_block "2015 12"; slp_block "2016 1"]) = Ok c
    /\ Slp.times c = [0; 31]%Z
    /\ shape (Slp.data c) = [2; 72; 37]
    /\ Slp.time_epoch c = (2015, 12)%Z.
Proof.
  destruct hadslp_times_are_calendar_day_offsets as [_ [_ H]].
  apply (H (slp_block "2015 12") (slp_block "2016 1")).
  - exists "2015"%string, "12"%string. repeat split; reflexivity.
  - exists "2016"%string, "1"%string. repeat split; reflexivity.
  - vm_compute. reflexivity.
  - vm_compute. reflexivity.
Defined.

(** C5. A file whose headers are not in the order of the calendar, each
    later than the one before, is refused.  [read_hadslp] itself neither
    sorts nor checks: the well-formed blocks are read in the order of the
    file, each with the signed offset in days of its date from the first,
    and handed over to the making of the series; the series of timestamps
    that do not increase is not made, and the [FormatError] is raised. *)
Theorem hadslp_out_of_order_blocks_refused
  (r w : nat) (b0 : block) (blocks : list block) (d0 : Z * Z) (dates : list (Z * Z)) :
  w <> 2 -> 0 < r ->
  Forall2 header_is (b0 :: blocks) (d0 :: dates) ->
  forallb (body_ok r w) (b0 :: blocks) = true ->
  forallb date_ok (d0 :: dates) = true ->
  (exists zs,
      Slp.read_hadslp (lines_of (b0 :: blocks))
      = Slp.make_iris_cube_3d (hadslp_values (S (length blocks)) r w zs)
          (map (fun d => (first_day d - first_day d0)%Z) (d0 :: dates)) d0
          (arange (-180 + 5 / 2)%Q (180 + 5 / 2)%Q 5%Q)
          (arange (-90)%Q (90 + 5)%Q 5%Q) "HadSLP" "bar")
  /\ (~ chronological (d0 :: dates) ->
      Slp.read_hadslp (lines_of (b0 :: blocks)) = Raise FormatError).
Proof.
  intros Hw Hr Hh Hb Hd. split.
  - destruct (read_hadslp_scanned r w b0 blocks d0 dates Hw Hr Hh Hb) as [zs [_ Hread]].
    exists zs. rewrite Hread, (hadslp_times d0 dates Hd). cbn [bind].
    now destruct d0.
  - intros Hc.
    apply (read_hadslp_unordered r w b0 blocks d0 dates Hw Hr Hh Hb Hd).
    intros Hinc. apply Hc. now apply (chronological_first_day _ Hd).
Qed.

Lemma hadslp_out_of_order_blocks_refused_witness :
  Slp.read_hadslp (lines_of [slp_block "2016 1"; slp_block "2015 12"]) = Raise FormatError.
Proof.
  destruct (@hadslp_out_of_order_blocks_refused 37 72 (slp_block "2016 1")
              [slp_block "2015 12"] (2016, 1)%Z [(2015, 12)%Z]) as [_ H].
  - lia.
  - lia.
  - repeat constructor.
    + exists "2016"%string, "1"%string. repeat split; reflexivity.
    + exists "2015"%string, "12"%string. repeat split; reflexivity.
  - vm_compute. reflexivity.
  - reflexivity.
  - apply H. simpl. lia.
Defined.

(** ** The ozone grid of [soz.read_data] *)

Lemma combine_map_l {A B : Type} (f : A -> B) (l : list A) :
  combine (map f l) l = map (fun x => (f x, x)) l.
Proof.
  induction l as [|x l IH]; simpl; [reflexivity|].
  now rewrite IH.
Qed.

Lemma masked_where_le_cells (g : ndarray cell) (v : Q) :
  masked_where (ma_le g v) g
  = Ok (mkarray (shape g)
          (map (fun c => match c with
                         | Some x => if Qle_bool x v then None else Some x
                         | None => None
                         end) (flat g))).
Proof.
  unfold masked_where, ma_le, map_array. cbn [shape flat].
  rewrite list_eq_dec_refl. do 2 f_equal.
  rewrite combine_map_l, map_map.
  apply map_ext. intros [x|]; simpl; [|reflexivity].
  now destruct (Qle_bool x v).
Qed.

Lemma set_row_keeps_shape (g g' : ndarray cell) (tl : nat) (values : list Q) :
  Soz.set_row g tl values = Ok g' ->
  shape g' = shape g /\ (wf g -> wf g').
Proof.
  unfold Soz.set_row, wf, size.
  destruct (shape g) as [|nlat [|nlon [|]]] eqn:Hs; try discriminate.
  destruct (tl <? nlat) eqn:Htl; [|discriminate].
  destruct (length values =? nlon) eqn:Hv; [|discriminate].
  intros E. inversion E; subst g'. cbn [shape flat].
  split; [reflexivity|].
  apply Nat.ltb_lt in Htl. apply Nat.eqb_eq in Hv.
  unfold prod. cbn [fold_right]. rewrite Nat.mul_1_r. intros Hw.
  rewrite !length_app, length_firstn, length_map, length_skipn, Hw, Hv.
  assert (Hle : (tl + 1) * nlon <= nlat * nlon) by (apply Nat.mul_le_mono_r; lia).
  assert (Hle' : tl * nlon <= nlat * nlon) by (apply Nat.mul_le_mono_r; lia).
  rewrite Nat.min_l by exact Hle'. lia.
Qed.

(** The grid of the row loop keeps the declared shape. *)
Lemma read_rows_keep_shape (nlon : nat) (rows : list (list Q)) :
  forall (i : nat) (st st' : Soz.locals),
    for_enumerate (fun _ => Soz.read_row nlon) i rows st = Ok st' ->
    shape (Soz.grid st') = shape (Soz.grid st)
    /\ (wf (Soz.grid st) -> wf (Soz.grid st')).
Proof.
  induction rows as [|row rows IH]; intros i st st' E; simpl in E.
  - inversion E; subst. split; [reflexivity|tauto].
  - destruct (Soz.read_row nlon row st) as [st1|e] eqn:E1; [|discriminate].
    cbn [bind] in E. destruct (IH _ _ _ E) as [Hs Hw].
    assert (H1 : shape (Soz.grid st1) = shape (Soz.grid st)
                 /\ (wf (Soz.grid st) -> wf (Soz.grid st1))).
    { unfold Soz.read_row in E1.
      destruct (length (Soz.this_lat st ++ row) =? nlon).
      - destruct (Soz.set_row (Soz.grid st) (Soz.tl st) (Soz.this_lat st ++ row))
          as [g|e] eqn:Eg; [|discriminate].
        cbn [bind] in E1. inversion E1; subst st1. cbn [Soz.grid].
        apply (set_row_keeps_shape _ _ _ _ Eg).
      - inversion E1; subst st1. cbn [Soz.grid]. split; [reflexivity|tauto]. }
    destruct H1 as [Hs1 Hw1]. split; [congruence|tauto].
Qed.

Lemma wf_ma_zeros (dims : list nat) : wf (ma_zeros dims).
Proof. unfold wf, size, ma_zeros. cbn [shape flat]. apply repeat_length. Qed.

(** Whatever the file, a grid that is returned has the declared shape. *)
Lemma read_data_axes_shape (lats lons : list Q) (file : list (list Q)) (c : Soz.cube) :
  Soz.read_data_axes lats lons file = Ok c ->
  shape (Soz.data c) = [length lats; length lons] /\ wf (Soz.data c).
Proof.
  unfold Soz.read_data_axes. intros E.
  destruct (genfromtxt file 4 0) as [indata|e]; [|discriminate].
  cbn [bind] in E.
  destruct (Soz.iter_rows indata) as [rows|e]; [|discriminate].
  cbn [bind] in E.
  destruct (for_enumerate _ 0 rows _) as [st|e] eqn:Eloop; [|discriminate].
  cbn [bind] in E.
  destruct (read_rows_keep_shape _ _ _ _ _ Eloop) as [Hs Hw].
  cbn [Soz.grid] in Hs, Hw. specialize (Hw (wf_ma_zeros _)).
  rewrite masked_where_le_cells in E. cbn [bind] in E.
  inversion E; subst c. cbn [Soz.data shape]. split.
  - rewrite Hs. reflexivity.
  - unfold wf, size in *. cbn [shape flat]. now rewrite length_map.
Qed.

Lemma skipn_repeat {A : Type} (x : A) (n m : nat) :
  skipn n (repeat x m) = repeat x (m - n).
Proof.
  revert m. induction n as [|n IH]; intros m; simpl.
  - now rewrite Nat.sub_0_r.
  - destruct m as [|m]; simpl; [reflexivity|apply IH].
Qed.

(** Writing the band [j] of a grid whose bands before [j] are written and
    whose other bands are still zero. *)
Lemma set_row_next (nlat nlon j : nat) (written : list cell) (row : list Q) :
  length written = j * nlon -> j < nlat -> length row = nlon ->
  Soz.set_row (mkarray [nlat; nlon] (written ++ repeat (Some 0%Q) ((nlat - j) * nlon))) j row
  = Ok (mkarray [nlat; nlon]
          ((written ++ map (@Some Q) row) ++ repeat (Some 0%Q) ((nlat - S j) * nlon))).
Proof.
  intros Hw Hj Hr. unfold Soz.set_row. cbn [shape flat].
  apply Nat.ltb_lt in Hj. rewrite Hj.
  apply Nat.eqb_eq in Hr. rewrite Hr. apply Nat.eqb_eq in Hr.
  do 2 f_equal.
  rewrite (firstn_row (j * nlon) written _ Hw).
  replace ((j + 1) * nlon) with (nlon + j * nlon) by lia.
  rewrite <- skipn_skipn, (skipn_row (j * nlon) written _ Hw), skipn_repeat.
  replace ((nlat - j) * nlon - nlon) with ((nlat - S j) * nlon)
    by (rewrite !Nat.mul_sub_distr_r; simpl; lia).
  now rewrite <- app_assoc.
Qed.

(** Rows of the width of a band fill one band each, in order. *)
Lemma fill_rows (nlat nlon : nat) (rows : list (list Q)) :
  Forall (fun l => length l = nlon) rows ->
  forall (i j : nat) (written : list cell),
    length written = j * nlon -> j + length rows <= nlat ->
    for_enumerate (fun _ => Soz.read_row nlon) i rows
      (Soz.mklocals
         (mkarray [nlat; nlon] (written ++ repeat (Some 0%Q) ((nlat - j) * nlon))) [] j)
    = Ok (Soz.mklocals
            (mkarray [nlat; nlon]
               ((written ++ map (@Some Q) (concat rows))
                ++ repeat (Some 0%Q) ((nlat - (j + length rows)) * nlon)))
            [] (j + length rows)).
Proof.
  induction 1 as [|row rows Hrow _ IH]; intros i j written Hw Hfit.
  - simpl. now rewrite app_nil_r, Nat.add_0_r.
  - cbn [length] in Hfit. cbn [for_enumerate].
    unfold Soz.read_row at 1. cbn [Soz.this_lat Soz.grid Soz.tl app].
    pose proof Hrow as Hrow'. apply Nat.eqb_eq in Hrow'. rewrite Hrow'.
    rewrite (set_row_next nlat nlon j written row Hw) by lia. cbn [bind].
    replace (j + 1) with (S j) by lia.
    rewrite (IH (S i) (S j) (written ++ map (@Some Q) row))
      by (rewrite ?length_app, ?length_map; simpl; lia).
    cbn [concat length]. rewrite map_app, <- !app_assoc.
    replace (S j + length rows) with (j + S (length rows)) by lia.
    reflexivity.
Qed.

(** Too few rows: the bands that no row reaches stay zero, and nothing is
    raised.  Too many rows: the row after the last band is an
    [IndexError]. *)
Lemma read_data_axes_rows (lats lons : list Q) (hdr rows : list (list Q)) :
  length hdr = 4 -> 2 <= length rows -> 2 <= length lons ->
  Forall (fun l => length l = length lons) rows ->
  (length rows <= length lats ->
   exists c,
     Soz.read_data_axes lats lons (hdr ++ rows) = Ok c
     /\ flat (Soz.data c)
        = map mask_value (concat rows)
          ++ repeat (Some 0%Q) ((length lats - length rows) * length lons))
  /\ (length lats < length rows ->
      Soz.read_data_axes lats lons (hdr ++ rows) = Raise IndexError).
Proof.
  intros Hh Hn Hc Hu.
  pose proof (genfromtxt_uniform hdr rows (length lons) Hn Hc Hu) as Hload.
  rewrite Hh in Hload.
  assert (Hiter : Soz.iter_rows (mkarray [length rows; length lons] (concat rows)) = Ok rows).
  { unfold Soz.iter_rows. cbn [shape flat]. now rewrite chunks_concat. }
  assert (Hzeros : ma_zeros [length lats; length lons]
                   = mkarray [length lats; length lons]
                       ([] ++ repeat (Some 0%Q) ((length lats - 0) * length lons))).
  { unfold ma_zeros, prod. cbn [fold_right app]. do 2 f_equal. lia. }
  unfold Soz.read_data_axes. cbv zeta.
  rewrite Hload. cbn [bind]. rewrite Hiter. cbn [bind].
  rewrite Hzeros. split.
  - intros Hfit.
    eexists. split.
    + rewrite (fill_rows (length lats) (length lons) rows Hu 0 0 []) by (simpl; lia).
      cbn [bind Soz.grid]. rewrite masked_where_le_cells. cbn [bind app shape flat].
      reflexivity.
    + cbn [Soz.data flat].
      rewrite map_app, map_map. f_equal.
      rewrite map_repeat.
      replace (if Qle_bool 0 (- (999)) then None else Some 0%Q) with (Some 0%Q)
        by reflexivity.
      reflexivity.
  - intros Hover.
    rewrite <- (firstn_skipn (length lats) rows).
    assert (Hlen1 : length (firstn (length lats) rows) = length lats)
      by (rewrite length_firstn; lia).
    destruct (skipn (length lats) rows) as [|row rest] eqn:Eskip.
    { pose proof (length_skipn (length lats) rows) as Hl. rewrite Eskip in Hl.
      simpl in Hl. lia. }
    assert (Hu1 : Forall (fun l => length l = length lons) (firstn (length lats) rows)).
    { pose proof Hu as Hu'. rewrite <- (firstn_skipn (length lats) rows) in Hu'.
      apply Forall_app in Hu'. tauto. }
    rewrite for_enumerate_app.
    rewrite (fill_rows (length lats) (length lons) _ Hu1 0 0 [])
      by (simpl; lia).
    cbn [bind for_enumerate]. unfold Soz.read_row at 1.
    cbn [Soz.this_lat Soz.grid Soz.tl app].
    assert (Hrow : length row = length lons).
    { rewrite Forall_forall in Hu. apply Hu.
      rewrite <- (firstn_skipn (length lats) rows), Eskip.
      apply in_or_app. right. now left. }
    apply Nat.eqb_eq in Hrow. rewrite Hrow.
    unfold Soz.set_row. cbn [shape].
    rewrite Hlen1. cbn [Nat.add].
    rewrite Nat.ltb_irrefl. reflexivity.
Qed.

Lemma ozone_axes : length Soz.latitudes0 = 180 /\ length Soz.longitudes0 = 288.
Proof. split; vm_compute; reflexivity. Qed.

(** C4, as stated, fails: two rows of 288 values, 576 tokens where the
    grid of 180 by 288 needs 51840, are read without an error, and the
    178 bands that are missing are zero. *)
Lemma read_data_token_deficit_accepted :
  exists c,
    Soz.read_data (repeat [] 4 ++ repeat (repeat 1%Q 288) 2) = Ok c
    /\ shape (Soz.data c) = [180; 288]
    /\ flat (Soz.data c) = repeat (Some 1%Q) (2 * 288) ++ repeat (Some 0%Q) (178 * 288).
Proof.
  destruct ozone_axes as [Hlat Hlon].
  destruct (read_data_axes_rows Soz.latitudes0 Soz.longitudes0 (repeat [] 4)
              (repeat (repeat 1%Q 288) 2)) as [Hfew _].
  - reflexivity.
  - simpl. lia.
  - rewrite Hlon. lia.
  - rewrite Hlon. repeat constructor.
  - destruct Hfew as [c [E F]]; [rewrite Hlat; simpl; lia|].
    exists c. split; [exact E|]. split.
    + destruct (read_data_axes_shape _ _ _ _ E) as [S _].
      now rewrite S, Hlat, Hlon.
    + rewrite F, Hlat, Hlon. reflexivity.
Qed.

(** * Further properties of the readers *)

(** ** Strict loads *)

Lemma collect_invalid_nil (c skip_header : nat) (ls : list (list Q)) :
  forall i : nat,
    snd (collect c skip_header i ls) = []
    <-> forallb (fun l => blank l || (length l =? c)) ls = true.
Proof.
  induction ls as [|l ls IH]; intros i; simpl.
  - tauto.
  - specialize (IH (S i)).
    destruct (collect c skip_header (S i) ls) as [rows invalid]. simpl in IH.
    destruct (blank l); simpl; [exact IH|].
    destruct (length l =? c); simpl; [exact IH|].
    split; discriminate.
Qed.

Lemma after_loop_no_footer (c skip_header : nat) (rows : list (list Q))
      (invalid : list (nat * nat)) :
  after_loop c skip_header 0 rows invalid
  = match invalid with
    | [] => loaded c rows
    | _ :: _ => Raise ValueError
    end.
Proof.
  destruct invalid as [|e invalid]; [apply after_loop_clean|].
  unfold after_loop. cbn [length Nat.ltb Nat.leb andb].
  rewrite Nat.sub_0_r. reflexivity.
Qed.

Lemma loaded_ok (c : nat) (rows : list (list Q)) : exists a, loaded c rows = Ok a.
Proof. unfold loaded. destruct rows; eexists; reflexivity. Qed.

(** A strict load raises exactly when the lines are not regular, and
    what it raises is a [ValueError]. *)
Lemma genfromtxt_strict (file : list (list Q)) (skip_header : nat) :
  (regular (data_lines file skip_header) = true ->
   exists a, genfromtxt file skip_header 0 = Ok a)
  /\ (regular (data_lines file skip_header) = false ->
      genfromtxt file skip_header 0 = Raise ValueError).
Proof.
  unfold genfromtxt, data_lines, regular.
  destruct (drop_blank (skipn skip_header file)) as [|first rest] eqn:Ebody.
  - split; [intros _; eexists; reflexivity|discriminate].
  - pose proof (collect_invalid_nil (length first) skip_header (first :: rest) 0) as Hinv.
    destruct (collect (length first) skip_header 0 (first :: rest)) as [rows invalid].
    cbn [snd] in Hinv. rewrite after_loop_no_footer.
    split; intros Hreg.
    + apply Hinv in Hreg. subst invalid. apply loaded_ok.
    + destruct invalid as [|e invalid]; [|reflexivity].
      assert (H : forallb (fun l => blank l || (length l =? length first)) (first :: rest) = true)
        by (apply Hinv; reflexivity).
      rewrite H in Hreg. discriminate.
Qed.

Lemma column_of_raises (a : ndarray Q) (k : nat) (e : exn) :
  column_of a k = Raise e -> e = IndexError.
Proof.
  unfold column_of. destruct (shape a) as [|r [|c [|]]]; try (intros E; now inversion E).
  destruct (k <? c); intros E; now inversion E.
Qed.

Lemma column_of_rows (c k : nat) (rows : list (list Q)) :
  Forall (fun l => length l = c) rows -> k < c ->
  column_of (mkarray [length rows; c] (concat rows)) k = Ok (col k rows).
Proof.
  intros Hu Hk. unfold column_of. cbn [shape flat].
  apply Nat.ltb_lt in Hk. rewrite Hk, (chunks_concat c rows Hu). reflexivity.
Qed.

Lemma bind_strict {T : Type} (file : list (list Q)) (skip_header : nat)
      (k : ndarray Q -> result T) :
  (forall a e, k a = Raise e -> e = IndexError) ->
  ((a <- genfromtxt file skip_header 0 ;; k a) = Raise ValueError
   <-> regular (data_lines file skip_header) = false)
  /\ (forall e, (a <- genfromtxt file skip_header 0 ;; k a) = Raise e ->
                e = ValueError \/ e = IndexError).
Proof.
  intros Hk. destruct (genfromtxt_strict file skip_header) as [Hreg Hirr].
  destruct (regular (data_lines file skip_header)) eqn:R.
  - destruct (Hreg eq_refl) as [a Ea]. rewrite Ea. cbn [bind]. split.
    + split; [|discriminate]. intros E. apply Hk in E. discriminate.
    + intros e E. right. apply (Hk a e E).
  - rewrite (Hirr eq_refl). cbn [bind]. split.
    + split; reflexivity.
    + intros e E. left. now inversion E.
Qed.

Ltac columns_raise_index :=
  repeat match goal with
         | H : (match column_of ?a ?k with _ => _ end) = Raise _ |- _ =>
             let E := fresh "E" in
             destruct (column_of a k) eqn:E;
             [cbn [bind] in H | inversion H; subst; now apply (column_of_raises a k)]
         | H : (bind (column_of ?a ?k) _) = Raise _ |- _ =>
             let E := fresh "E" in
             destruct (column_of a k) eqn:E;
             [cbn [bind] in H | inversion H; subst; now apply (column_of_raises a k)]
         | H : Ok _ = Raise _ |- _ => discriminate H
         end.

(** X1. The readers of the index files and of the ozone and carbon
    monoxide series raise [ValueError] exactly when some line of data has
    another column count than the first, and otherwise only
    [IndexError]. *)
Theorem series_readers_are_strict :
  strict_reader Slp.read_nao 9
  /\ strict_reader Slp.read_snao 0
  /\ (forall (name : string) (skip : nat),
        strict_reader (fun file => Slp.read_a_ao file name skip) skip)
  /\ strict_reader Soz.read_ts 1
  /\ strict_reader Cmo.read_ts 1.
Proof.
  assert (Hnao : strict_reader Slp.read_nao 9).
  { intros file _. unfold Slp.read_nao. apply bind_strict. intros a e H. columns_raise_index. }
  assert (Hsnao : strict_reader Slp.read_snao 0).
  { intros file _. unfold Slp.read_snao. apply bind_strict. intros a e H. columns_raise_index. }
  assert (Hao : forall (name : string) (skip : nat),
             strict_reader (fun file => Slp.read_a_ao file name skip) skip).
  { intros name skip file _. unfold Slp.read_a_ao. apply bind_strict.
    intros a e H. columns_raise_index. }
  assert (Hsoz : strict_reader Soz.read_ts 1).
  { intros file _. unfold Soz.read_ts. apply bind_strict. intros a e H. columns_raise_index. }
  assert (Hcmo : strict_reader Cmo.read_ts 1).
  { intros file _. unfold Cmo.read_ts. apply bind_strict. intros a e H. columns_raise_index. }
  tauto.
Qed.

Lemma series_readers_are_strict_witness :
  9 <= length (repeat ([] : list Q) 9 ++ [[1950; 1]; [1951]]%Q)
  /\ regular (data_lines (repeat ([] : list Q) 9 ++ [[1950; 1]; [1951]]%Q) 9) = false
  /\ Slp.read_nao (repeat ([] : list Q) 9 ++ [[1950; 1]; [1951]]%Q) = Raise ValueError.
Proof.
  split; [simpl; lia|]. split; [reflexivity|].
  destruct (proj1 series_readers_are_strict
              (repeat ([] : list Q) 9 ++ [[1950; 1]; [1951]]%Q)) as [[_ H] _].
  - simpl. lia.
  - apply H. reflexivity.
Defined.

(** ** Regular files *)

Lemma length_col (k : nat) (rows : list (list Q)) : length (col k rows) = length rows.
Proof. apply length_map. Qed.

(** X2. On a regular file of at least two rows the readers of yearly
    series return one time and one value per row, in the order of the
    rows: the times are the first column, the values the second (the
    third for the SNAO). *)
Theorem yearly_readers_one_entry_per_row (hdr rows : list (list Q)) (c : nat) :
  2 <= length rows -> Forall (fun l => length l = c) rows ->
  (length hdr = 9 -> 2 <= c ->
   Slp.read_nao (hdr ++ rows) = Ok (Slp.mkTimeseries "NAO" (col 0 rows) (col 1 rows)))
  /\ (3 <= c ->
      Slp.read_snao rows = Ok (Slp.mkTimeseries "SNAO" (col 0 rows) (col 2 rows)))
  /\ (length hdr = 1 -> 2 <= c ->
      Soz.read_ts (hdr ++ rows) = Ok (Slp.mkTimeseries "SOZ" (col 0 rows) (col 1 rows)))
  /\ length (col 0 rows) = length rows
  /\ length (col 1 rows) = length rows
  /\ length (col 2 rows) = length rows.
Proof.
  intros Hn Hu. split; [|split; [|split]].
  - intros Hh Hc.
    pose proof (genfromtxt_uniform hdr rows c Hn Hc Hu) as Hload. rewrite Hh in Hload.
    unfold Slp.read_nao. rewrite Hload. cbn [bind].
    rewrite !(column_of_rows c _ rows Hu) by lia. reflexivity.
  - intros Hc.
    assert (Hc2 : 2 <= c) by lia.
    pose proof (genfromtxt_uniform [] rows c Hn Hc2 Hu) as Hload.
    cbn [app length] in Hload.
    unfold Slp.read_snao. rewrite Hload. cbn [bind].
    rewrite !(column_of_rows c _ rows Hu) by lia. reflexivity.
  - intros Hh Hc.
    pose proof (genfromtxt_uniform hdr rows c Hn Hc Hu) as Hload. rewrite Hh in Hload.
    unfold Soz.read_ts. rewrite Hload. cbn [bind].
    rewrite !(column_of_rows c _ rows Hu) by lia. reflexivity.
  - repeat split; apply length_col.
Qed.

Lemma yearly_readers_one_entry_per_row_witness :
  Slp.read_nao (repeat [] 9 ++ [[1990; 3]; [1991; - (1)]; [1992; 2]]%Q)
  = Ok (Slp.mkTimeseries "NAO" [1990; 1991; 1992]%Q [3; - (1); 2]%Q).
Proof.
  destruct (@yearly_readers_one_entry_per_row (repeat [] 9)
              [[1990; 3]; [1991; - (1)]; [1992; 2]]%Q 2) as [H _].
  - simpl. lia.
  - repeat constructor.
  - apply H; [reflexivity|lia].
Defined.

(** ** Files of a single row, files without a column *)

Lemma column_of_low_dim (a : ndarray Q) (k : nat) :
  length (shape a) < 2 -> column_of a k = Raise IndexError.
Proof.
  unfold column_of. destruct (shape a) as [|r [|c [|]]]; simpl; intros H;
    try reflexivity; lia.
Qed.

Lemma genfromtxt_single_row (hdr : list (list Q)) (row : list Q) :
  row <> [] ->
  exists a, genfromtxt (hdr ++ [row]) (length hdr) 0 = Ok a /\ length (shape a) < 2.
Proof.
  intros Hrow. unfold genfromtxt. rewrite skipn_header.
  assert (Hlen : length row <> 0) by (destruct row; [now contradiction Hrow|discriminate]).
  cbn [app drop_blank]. rewrite blank_false by exact Hlen.
  cbn [collect]. rewrite blank_false by exact Hlen.
  rewrite Nat.eqb_refl, after_loop_clean. unfold loaded, squeeze.
  eexists. split; [reflexivity|]. cbn [shape length filter Nat.eqb negb].
  destruct (length row =? 1); simpl; lia.
Qed.

Lemma genfromtxt_header_only (hdr : list (list Q)) :
  genfromtxt hdr (length hdr) 0 = Ok (mkarray [0] []).
Proof. unfold genfromtxt. rewrite skipn_all. reflexivity. Qed.

(** X3. A file with a single row of data, or with none, has no
    columns to take: the load gives an array of one dimension and every
    reader of series raises [IndexError]. *)
Theorem series_readers_need_two_rows (hdr tail : list (list Q)) :
  tail = [] \/ (exists row, row <> [] /\ tail = [row]) ->
  (length hdr = 9 ->
   Slp.read_nao (hdr ++ tail) = Raise IndexError
   /\ Slp.read_soi (hdr ++ tail) = Raise IndexError)
  /\ (hdr = [] -> Slp.read_snao (hdr ++ tail) = Raise IndexError)
  /\ (forall name : string,
        Slp.read_a_ao (hdr ++ tail) name (length hdr) = Raise IndexError)
  /\ (length hdr = 1 ->
      Soz.read_ts (hdr ++ tail) = Raise IndexError
      /\ Cmo.read_ts (hdr ++ tail) = Raise IndexError).
Proof.
  intros Htail.
  assert (Hload : exists a, genfromtxt (hdr ++ tail) (length hdr) 0 = Ok a
                            /\ length (shape a) < 2).
  { destruct Htail as [E|[row [Hrow E]]]; subst tail.
    - rewrite app_nil_r, genfromtxt_header_only. eexists. split; [reflexivity|simpl; lia].
    - apply genfromtxt_single_row. exact Hrow. }
  destruct Hload as [a [Ea Hdim]].
  pose proof (column_of_low_dim a 0 Hdim) as H0.
  split; [|split; [|split]].
  - intros Hh. rewrite Hh in Ea. split.
    + unfold Slp.read_nao. rewrite Ea. cbn [bind]. now rewrite H0.
    + unfold Slp.read_soi, Slp.load_soi. rewrite Ea. cbn [bind].
      destruct (shape a) as [|r [|c [|]]]; simpl in Hdim; try reflexivity; lia.
  - intros Hh. subst hdr. cbn [length] in Ea.
    unfold Slp.read_snao. rewrite Ea. cbn [bind]. now rewrite H0.
  - intros name. unfold Slp.read_a_ao. rewrite Ea. cbn [bind]. now rewrite H0.
  - intros Hh. rewrite Hh in Ea. split.
    + unfold Soz.read_ts. rewrite Ea. cbn [bind]. now rewrite H0.
    + unfold Cmo.read_ts. rewrite Ea. cbn [bind]. now rewrite H0.
Qed.

Lemma series_readers_need_two_rows_witness :
  Slp.read_nao (repeat [] 9 ++ [[1990; 3]%Q]) = Raise IndexError
  /\ Slp.read_soi (repeat [] 9 ++ [[1990; 3]%Q]) = Raise IndexError.
Proof.
  destruct (@series_readers_need_two_rows (repeat [] 9) [[1990; 3]%Q]) as [H _].
  - right. exists [1990; 3]%Q. split; [discriminate|reflexivity].
  - apply H. reflexivity.
Defined.

(** ** Monthly series: the AO, the AAO and the carbon monoxide burden *)

Lemma month_time_twelfths (ym : Z * Z) :
  (month_time ym == inject_Z (12 * fst ym + snd ym - 1) / 12)%Q.
Proof.
  unfold month_time, Slp.year_fraction, Z.sub.
  rewrite !inject_Z_plus, inject_Z_mult, inject_Z_opp.
  change (inject_Z 12) with 12%Q. change (inject_Z 1) with 1%Q.
  field.
Qed.

Lemma month_time_lt (ym ym' : Z * Z) :
  (12 * fst ym + snd ym < 12 * fst ym' + snd ym')%Z ->
  (month_time ym < month_time ym')%Q.
Proof.
  intros H. rewrite !month_time_twelfths.
  apply Qmult_lt_compat_r; [reflexivity|].
  rewrite <- Zlt_Qlt. lia.
Qed.

Lemma month_time_in_year (ym : Z * Z) :
  (1 <= snd ym <= 12)%Z ->
  (inject_Z (fst ym) <= month_time ym)%Q /\ (month_time ym < inject_Z (fst ym) + 1)%Q.
Proof.
  intros Hm.
  assert (E0 : (inject_Z (fst ym) == inject_Z (12 * fst ym) / 12)%Q).
  { rewrite inject_Z_mult. change (inject_Z 12) with 12%Q. field. }
  assert (E1 : (inject_Z (fst ym) + 1 == inject_Z (12 * fst ym + 12) / 12)%Q).
  { rewrite inject_Z_plus, inject_Z_mult. change (inject_Z 12) with 12%Q. field. }
  rewrite month_time_twelfths. split.
  - rewrite E0 at 1. apply Qmult_le_compat_r; [|discriminate].
    rewrite <- Zle_Qle. lia.
  - rewrite E1. apply Qmult_lt_compat_r; [reflexivity|].
    rewrite <- Zlt_Qlt. lia.
Qed.

Lemma chronological_increasing (yms : list (Z * Z)) :
  Forall (fun ym => (1 <= snd ym <= 12)%Z) yms ->
  chronological yms -> increasingQ (map month_time yms).
Proof.
  induction yms as [|ym [|ym' yms] IH]; intros Hm Hc; [exact I|exact I|].
  destruct Hc as [Hstep Hc].
  inversion Hm as [|? ? Hm0 Hm']; subst.
  inversion Hm' as [|? ? Hm1 _]; subst.
  cbn [map increasingQ]. split; [|apply (IH Hm' Hc)].
  apply month_time_lt. lia.
Qed.

(** The times and the values of a monthly reader on a regular file whose
    first two columns are the years and the months [yms]. *)
Lemma monthly_columns (rows : list (list Q)) (yms : list (Z * Z)) :
  col 0 rows = map (fun ym => inject_Z (fst ym)) yms ->
  col 1 rows = map (fun ym => inject_Z (snd ym)) yms ->
  map (fun ym => Slp.year_fraction (fst ym) (snd ym)) (combine (col 0 rows) (col 1 rows))
  = map month_time yms.
Proof.
  intros H0 H1. rewrite H0, H1, combine_map_same, map_map. reflexivity.
Qed.

(** X4. On a regular file of at least two rows of year, month and
    value, [read_a_ao] returns one time [year + (month - 1) / 12] and one
    value per row; a time lies in its year, and rows in the order of the
    calendar give strictly increasing times. *)
Theorem read_a_ao_times_of_months
  (hdr rows : list (list Q)) (name : string) (c : nat) (yms : list (Z * Z)) :
  2 <= length rows -> 3 <= c -> Forall (fun l => length l = c) rows ->
  col 0 rows = map (fun ym => inject_Z (fst ym)) yms ->
  col 1 rows = map (fun ym => inject_Z (snd ym)) yms ->
  Forall (fun ym => (1 <= snd ym <= 12)%Z) yms ->
  exists ts,
    Slp.read_a_ao (hdr ++ rows) name (length hdr) = Ok ts
    /\ Slp.ts_name ts = name
    /\ Slp.ts_times ts = map month_time yms
    /\ Slp.ts_data ts = col 2 rows
    /\ length (Slp.ts_times ts) = length rows
    /\ length (Slp.ts_data ts) = length rows
    /\ Forall2 (fun ym t => (inject_Z (fst ym) <= t)%Q /\ (t < inject_Z (fst ym) + 1)%Q)
               yms (Slp.ts_times ts)
    /\ (chronological yms -> increasingQ (Slp.ts_times ts)).
Proof.
  intros Hn Hc Hu H0 H1 Hm.
  assert (Hc2 : 2 <= c) by lia.
  pose proof (genfromtxt_uniform hdr rows c Hn Hc2 Hu) as Hload.
  assert (Hlen : length yms = length rows).
  { rewrite <- (length_col 0 rows), H0. now rewrite length_map. }
  eexists. split.
  - unfold Slp.read_a_ao. rewrite Hload. cbn [bind].
    rewrite !(column_of_rows c _ rows Hu) by lia. cbn [bind].
    rewrite (monthly_columns rows yms H0 H1). reflexivity.
  - cbn [Slp.ts_name Slp.ts_times Slp.ts_data].
    split; [reflexivity|]. split; [reflexivity|]. split; [reflexivity|].
    split; [now rewrite length_map|]. split; [apply length_col|]. split.
    + clear Hlen H0 H1. induction Hm as [|ym yms Hy _ IH]; cbn [map]; constructor.
      * apply month_time_in_year. exact Hy.
      * exact IH.
    + apply chronological_increasing. exact Hm.
Qed.

Lemma read_a_ao_times_of_months_witness :
  exists ts,
    Slp.read_a_ao (repeat [] 3 ++ [[1950; 12; 1]; [1951; 1; - (2)]; [1951; 2; 3]]%Q)
                  "AO" 3 = Ok ts
    /\ Slp.ts_data ts = [1; - (2); 3]%Q
    /\ increasingQ (Slp.ts_times ts).
Proof.
  destruct (@read_a_ao_times_of_months (repeat [] 3)
              [[1950; 12; 1]; [1951; 1; - (2)]; [1951; 2; 3]]%Q "AO" 3
              [(1950, 12); (1951, 1); (1951, 2)]%Z)
    as [ts [E [_ [_ [D [_ [_ [_ I]]]]]]]].
  - simpl. lia.
  - lia.
  - repeat constructor.
  - reflexivity.
  - reflexivity.
  - repeat constructor; simpl; lia.
  - exists ts. split; [exact E|]. split; [exact D|].
    apply I. simpl. lia.
Defined.

(** X5. The same for the carbon monoxide burden of [cmo.read_ts], which
    skips one line of header. *)
Theorem cmo_read_ts_times_of_months
  (hdr rows : list (list Q)) (c : nat) (yms : list (Z * Z)) :
  length hdr = 1 ->
  2 <= length rows -> 3 <= c -> Forall (fun l => length l = c) rows ->
  col 0 rows = map (fun ym => inject_Z (fst ym)) yms ->
  col 1 rows = map (fun ym => inject_Z (snd ym)) yms ->
  Forall (fun ym => (1 <= snd ym <= 12)%Z) yms ->
  exists ts,
    Cmo.read_ts (hdr ++ rows) = Ok ts
    /\ Slp.ts_name ts = "CO burden"%string
    /\ Slp.ts_times ts = map month_time yms
    /\ Slp.ts_data ts = col 2 rows
    /\ length (Slp.ts_times ts) = length (Slp.ts_data ts)
    /\ (chronological yms -> increasingQ (Slp.ts_times ts)).
Proof.
  intros Hh Hn Hc Hu H0 H1 Hm.
  assert (Hc2 : 2 <= c) by lia.
  pose proof (genfromtxt_uniform hdr rows c Hn Hc2 Hu) as Hload. rewrite Hh in Hload.
  assert (Hlen : length yms = length rows).
  { rewrite <- (length_col 0 rows), H0. now rewrite length_map. }
  eexists. split.
  - unfold Cmo.read_ts. rewrite Hload. cbn [bind].
    rewrite !(column_of_rows c _ rows Hu) by lia. cbn [bind].
    change (fun ym : Q * Q => (fst ym + (snd ym - 1) / 12)%Q)
      with (fun ym : Q * Q => Slp.year_fraction (fst ym) (snd ym)).
    rewrite (monthly_columns rows yms H0 H1). reflexivity.
  - cbn [Slp.ts_name Slp.ts_times Slp.ts_data].
    split; [reflexivity|]. split; [reflexivity|]. split; [reflexivity|].
    split; [now rewrite length_map, length_col|].
    apply chronological_increasing. exact Hm.
Qed.

Lemma cmo_read_ts_times_of_months_witness :
  exists ts,
    Cmo.read_ts ([[]] ++ [[2003; 1; 350]; [2003; 2; 340]; [2003; 3; 345]]%Q) = Ok ts
    /\ Slp.ts_data ts = [350; 340; 345]%Q
    /\ increasingQ (Slp.ts_times ts).
Proof.
  destruct (@cmo_read_ts_times_of_months [[]]
              [[2003; 1; 350]; [2003; 2; 340]; [2003; 3; 345]]%Q 3
              [(2003, 1); (2003, 2); (2003, 3)]%Z)
    as [ts [E [_ [_ [D [_ I]]]]]].
  - reflexivity.
  - simpl. lia.
  - lia.
  - repeat constructor.
  - reflexivity.
  - reflexivity.
  - repeat constructor; simpl; lia.
  - exists ts. split; [exact E|]. split; [exact D|].
    apply I. simpl. lia.
Defined.

(** ** More on the SOI series *)








Lemma nth_concat_uniform {A : Type} (m : nat) (ll : list (list A)) (d : A) :
  Forall (fun l => length l = m) ll ->
  forall i j : nat,
    i < length ll -> j < m ->
    nth (i * m + j) (concat ll) d = nth j (nth i ll []) d.
Proof.
  induction 1 as [|l ll Hl _ IH]; intros i j Hi Hj; [simpl in Hi; lia|].
  cbn [concat]. destruct i as [|i].
  - cbn [Nat.mul Nat.add nth]. apply app_nth1. lia.
  - rewrite app_nth2 by (rewrite Hl; simpl; lia).
    replace (S i * m + j - length l) with (i * m + j) by (rewrite Hl; simpl; lia).
    cbn [nth]. apply IH; [simpl in Hi; lia|exact Hj].
Qed.

Lemma nth_tl {A : Type} (k : nat) (l : list A) (d : A) :
  nth k (tl l) d = nth (S k) l d.
Proof. destruct l; [now destruct k|reflexivity]. Qed.

Lemma contiguous_nth (y : Z) (ys : list Z) (r : nat) :
  contiguous (y :: ys) -> r < length (y :: ys) ->
  nth r (y :: ys) 0%Z = (y + Z.of_nat r)%Z.
Proof.
  revert y r. induction ys as [|y' ys IH]; intros y r Hc Hr.
  - simpl in Hr. assert (r = 0) by lia. subst r. simpl. lia.
  - destruct Hc as [E Hc]. destruct r as [|r]; [simpl; lia|].
    change (nth (S r) (y :: y' :: ys) 0%Z) with (nth r (y' :: ys) 0%Z).
    rewrite IH by (assumption || (simpl in Hr |- *; lia)). lia.
Qed.

Lemma nth_arange (start stop step : Q) (i : nat) :
  i < length (arange start stop step) ->
  nth i (arange start stop step) 0%Q = (start + inject_Z (Z.of_nat i) * step)%Q.
Proof.
  unfold arange. rewrite length_map, length_seq. intros Hi.
  now rewrite nth_map_seq.
Qed.

(** X7. When the year column has no gap, the flattened SOI series pairs
    each value with its own month: the entry [12 r + k] holds the column
    [k + 1] of the row [r] at the time [year r + k / 12]. *)
Theorem read_soi_pairs_months_when_contiguous
  (hdr rows : list (list Q)) (ys : list Z) :
  length hdr = 9 -> 2 <= length rows ->
  Forall (fun l => length l = 13) rows ->
  soi_years rows = map inject_Z ys ->
  contiguous ys ->
  exists ts,
    Slp.read_soi (hdr ++ rows) = Ok ts
    /\ length (Slp.ts_times ts) = 12 * length rows
    /\ forall r k, r < length rows -> k < 12 ->
         (nth (12 * r + k) (Slp.ts_times ts) 0
          == inject_Z (nth r ys 0%Z) + inject_Z (Z.of_nat k) / 12)%Q
         /\ nth (12 * r + k) (Slp.ts_data ts) 0%Q = nth (S k) (nth r rows []) 0%Q.
Proof.
  intros Hh Hn Hu Hyears Hcont.
  assert (Hne : rows <> []) by (intros E; rewrite E in Hn; simpl in Hn; lia).
  assert (Hc : 2 <= 13) by lia.
  pose proof (genfromtxt_uniform hdr rows 13 Hn Hc Hu) as Hload. rewrite Hh in Hload.
  pose proof (read_soi_rows _ rows 13 (load_soi_strict _ _ Hload) Hne Hu) as Hread.
  rewrite Hyears, last_inject_Z in Hread.
  assert (Hlen : length ys = length rows).
  { rewrite <- (length_map inject_Z ys), <- Hyears. unfold soi_years. apply length_map. }
  destruct ys as [|y ys]; [simpl in Hlen; lia|].
  cbn [map hd] in Hread.
  assert (Hlast : last (y :: ys) 0%Z = (y + Z.of_nat (length rows) - 1)%Z).
  { rewrite <- Hlen.
    replace (last (y :: ys) 0%Z) with (nth (length (y :: ys) - 1) (y :: ys) 0%Z).
    - rewrite contiguous_nth by (assumption || (simpl; lia)). simpl length. lia.
    - clear. generalize (y :: ys). intros l.
      induction l as [|a [|b l] IH]; [reflexivity|reflexivity|].
      change (last (a :: b :: l) 0%Z) with (last (b :: l) 0%Z). rewrite <- IH.
      simpl. now rewrite Nat.sub_0_r. }
  assert (Htimes : length (arange (inject_Z y) (inject_Z (last (y :: ys) 0%Z) + 1)%Q
                                  (1 / 12)%Q) = 12 * length rows).
  { unfold arange. rewrite length_map, length_seq, months_between, Hlast. lia. }
  eexists. split; [exact Hread|]. cbn [Slp.ts_times Slp.ts_data].
  split; [exact Htimes|].
  intros r k Hr Hk. split.
  - rewrite nth_arange by (rewrite Htimes; lia).
    rewrite contiguous_nth by (assumption || lia).
    rewrite Nat2Z.inj_add, Nat2Z.inj_mul, !inject_Z_plus, inject_Z_mult.
    change (inject_Z (Z.of_nat 12)) with 12%Q. field.
  - replace (12 * r + k) with (r * 12 + k) by lia.
    rewrite (nth_concat_uniform 12).
    + rewrite <- nth_tl. f_equal.
      change (@nil Q) with (tl (@nil Q)) at 1. apply map_nth.
    + apply Forall_map. apply (Forall_impl _ (P := fun l => length l = 13)); [|exact Hu].
      intros l Hl. destruct l; simpl in *; lia.
    + now rewrite length_map.
    + exact Hk.
Qed.

Lemma read_soi_pairs_months_when_contiguous_witness :
  exists ts,
    Slp.read_soi (repeat [] 9
                  ++ [2000%Q :: map (fun k => inject_Z (Z.of_nat k)) (seq 1 12);
                      2001%Q :: map (fun k => inject_Z (Z.of_nat k)) (seq 13 12)]) = Ok ts
    /\ (nth 23 (Slp.ts_times ts) 0 == 2001 + 11 / 12)%Q
    /\ nth 23 (Slp.ts_data ts) 0%Q = 24%Q.
Proof.
  destruct (@read_soi_pairs_months_when_contiguous (repeat [] 9)
              [2000%Q :: map (fun k => inject_Z (Z.of_nat k)) (seq 1 12);
               2001%Q :: map (fun k => inject_Z (Z.of_nat k)) (seq 13 12)]
              [2000; 2001]%Z) as [ts [E [_ H]]].
  - reflexivity.
  - simpl. lia.
  - repeat constructor.
  - reflexivity.
  - simpl. lia.
  - exists ts. split; [exact E|].
    destruct (H 1 11) as [T D]; [simpl; lia|lia|].
    split; [exact T|exact D].
Defined.

(** ** More on the monthly blocks of HadSLP2 *)

Lemma nth_flat_map_seq {A : Type} (g : nat -> list A) (m : nat) (d : A) :
  (forall x, length (g x) = m) ->
  forall n a i j : nat,
    i < n -> j < m ->
    nth (i * m + j) (flat_map g (seq a n)) d = nth j (g (a + i)) d.
Proof.
  intros Hg. induction n as [|n IH]; intros a i j Hi Hj; [lia|].
  cbn [seq flat_map]. destruct i as [|i].
  - cbn [Nat.mul Nat.add]. rewrite Nat.add_0_r. apply app_nth1. rewrite Hg. exact Hj.
  - rewrite app_nth2 by (rewrite Hg; simpl; lia).
    replace (S i * m + j - length (g a)) with (i * m + j) by (rewrite Hg; simpl; lia).
    rewrite IH by lia. f_equal. f_equal. lia.
Qed.

Lemma length_flat_map_seq {A : Type} (g : nat -> list A) (m : nat) :
  (forall x, length (g x) = m) ->
  forall n a : nat, length (flat_map g (seq a n)) = n * m.
Proof.
  intros Hg. induction n as [|n IH]; intros a; [reflexivity|].
  cbn [seq flat_map]. rewrite length_app, Hg, IH. simpl. lia.
Qed.

Lemma get3_build3 {A : Type} (d : A) (n0 n1 n2 : nat) (f : nat -> nat -> nat -> A)
      (i j k : nat) :
  i < n0 -> j < n1 -> k < n2 ->
  get3 d (build3 n0 n1 n2 f) i j k = f i j k.
Proof.
  intros Hi Hj Hk. unfold get3, build3. cbn [shape flat nth].
  replace ((i * n1 + j) * n2 + k) with (i * (n1 * n2) + (j * n2 + k)) by ring.
  assert (Hinner : forall x, length (flat_map (fun j0 => map (f x j0) (seq 0 n2)) (seq 0 n1))
                             = n1 * n2).
  { intros x. apply length_flat_map_seq. intros y. now rewrite length_map, length_seq. }
  rewrite (nth_flat_map_seq _ (n1 * n2) d Hinner) by (lia || nia).
  rewrite (nth_flat_map_seq _ n2 d) by (lia || (intros y; now rewrite length_map, length_seq)).
  cbn [Nat.add]. apply nth_map_seq. exact Hk.
Qed.

Lemma mapM_length {A B : Type} (f : A -> result B) (l : list A) (ys : list B) :
  mapM f l = Ok ys -> length ys = length l.
Proof.
  revert ys. induction l as [|x l IH]; intros ys E; simpl in E.
  - inversion E. reflexivity.
  - destruct (f x) as [y|e]; [|discriminate]. cbn [bind] in E.
    destruct (mapM f l) as [ys'|e]; [|discriminate]. cbn [bind] in E.
    inversion E; subst. simpl. now rewrite (IH ys').
Qed.

Lemma int_of_string_value (t : string) (z : Z) :
  int_of_string t = Ok z -> token_value t = z.
Proof.
  unfold int_of_string, token_value.
  destruct (Py.int t) as [z'|e]; [|discriminate]. cbn [bind].
  destruct (int64 z'); [|discriminate]. intros E. now inversion E.
Qed.

Lemma mapM_int_nth (l : list string) (zs : list Z) :
  mapM int_of_string l = Ok zs ->
  forall i, i < length l -> nth i zs 0%Z = token_value (nth i l EmptyString).
Proof.
  revert zs. induction l as [|t l IH]; intros zs E i Hi; [simpl in Hi; lia|].
  simpl in E. destruct (int_of_string t) as [z|e] eqn:Et; [|discriminate]. cbn [bind] in E.
  destruct (mapM int_of_string l) as [zs'|e]; [|discriminate]. cbn [bind] in E.
  inversion E; subst. destruct i as [|i].
  - simpl. symmetry. now apply int_of_string_value.
  - simpl. apply IH; [reflexivity|simpl in Hi; lia].
Qed.

(** The values of the series for the integers of well-formed blocks. *)
Lemma hadslp_values_get (r w : nat) (b0 : block) (blocks : list block) (zs : list Z) :
  forallb (body_ok r w) (b0 :: blocks) = true ->
  mapM int_of_string (concat (concat (map block_tokens (b0 :: blocks)))) = Ok zs ->
  forall t j k, t < length (b0 :: blocks) -> j < w -> k < r ->
    get3 0%Q (hadslp_values (S (length blocks)) r w zs) t j k
    = (inject_Z (block_value (nth t (b0 :: blocks) b0) (r - 1 - k) j) / 100)%Q.
Proof.
  intros Hbodies Hzs t j k Ht Hj Hk. cbn [length] in Ht.
  set (toks := map block_tokens (b0 :: blocks)) in *.
  assert (Hblocks : Forall (fun b => length b = r) toks).
  { apply Forall_map, Forall_forall. intros b Hin.
    rewrite forallb_forall in Hbodies.
    destruct (body_ok_lines r w b (Hbodies b Hin)) as [Hlen _].
    unfold block_tokens. now rewrite length_map. }
  assert (Hrows : Forall (fun row => length row = w) (concat toks)).
  { apply Forall_concat, Forall_map, Forall_forall. intros b Hin.
    rewrite forallb_forall in Hbodies.
    destruct (body_ok_lines r w b (Hbodies b Hin)) as [_ [_ Hrows]].
    apply (Forall_impl _ (P := fun row => length row = w
                                          /\ Forall (fun t => parses t = true) row));
      [|exact Hrows].
    intros row [E _]. exact E. }
  assert (Hn : length toks = S (length blocks)) by (unfold toks; now rewrite length_map).
  assert (Hnrows : length (concat toks) = S (length blocks) * r).
  { rewrite <- Hn. clear -Hblocks. induction Hblocks as [|b l Hb _ IH]; [reflexivity|].
    cbn [concat length]. rewrite length_app, IH, Hb. reflexivity. }
  assert (Hntok : length (concat (concat toks)) = S (length blocks) * r * w).
  { rewrite <- Hnrows. clear -Hrows.
    induction Hrows as [|row l Hrow _ IH]; [reflexivity|].
    cbn [concat length]. rewrite length_app, IH, Hrow. reflexivity. }
  assert (Hi : r - 1 - k < r) by lia.
  assert (Hidx : (t * r + (r - 1 - k)) * w + j < S (length blocks) * r * w).
  { rewrite <- Nat.mul_assoc. apply plane_index_bound; assumption. }
  unfold hadslp_values.
  rewrite get3_build3 by assumption.
  rewrite get3_build3 by assumption.
  unfold get3. cbn [shape flat nth].
  rewrite (nth_indep _ 0%Q ((fun z => (inject_Z z / 100)%Q) 0%Z))
    by (rewrite length_map, (mapM_length _ _ _ Hzs), Hntok; exact Hidx).
  rewrite (map_nth (fun z => (inject_Z z / 100)%Q)).
  rewrite (mapM_int_nth _ _ Hzs) by (rewrite Hntok; exact Hidx).
  rewrite (nth_concat_uniform w (concat toks) EmptyString Hrows)
    by (rewrite ?Hnrows; nia || assumption).
  rewrite (nth_concat_uniform r toks [] Hblocks) by (rewrite ?Hn; assumption).
  unfold block_value, toks.
  rewrite (nth_indep _ [] (block_tokens b0)) by (rewrite length_map; simpl; lia).
  rewrite (map_nth block_tokens). reflexivity.
Qed.

(** X8. The values of the series are the integers of the file divided by
    100, with the two grid axes swapped and the second reversed: the value
    at time step [t], first grid index [j], second grid index [k] is the
    column [j] of the line [36 - k] of the block [t], so that the last of
    the 37 lines of a block comes first. *)
Theorem read_hadslp_values_swapped_and_reversed
  (b0 : block) (blocks : list block) (d0 : Z * Z) (dates : list (Z * Z)) :
  Forall2 header_is (b0 :: blocks) (d0 :: dates) ->
  forallb (body_ok 37 72) (b0 :: blocks) = true ->
  forallb date_ok (d0 :: dates) = true ->
  chronological (d0 :: dates) ->
  exists c,
    Slp.read_hadslp (lines_of (b0 :: blocks)) = Ok c
    /\ shape (Slp.data c) = [length (b0 :: blocks); 72; 37]
    /\ forall t j k, t < length (b0 :: blocks) -> j < 72 -> k < 37 ->
         get3 0%Q (Slp.data c) t j k
         = (inject_Z (block_value (nth t (b0 :: blocks) b0) (36 - k) j) / 100)%Q.
Proof.
  intros Hheaders Hbodies Hdates Hc.
  apply (chronological_first_day _ Hdates) in Hc.
  destruct (read_hadslp_blocks b0 blocks d0 dates Hheaders Hbodies Hdates Hc)
    as [zs [Hzs Hread]].
  eexists. split; [exact Hread|]. cbn [Slp.data].
  split; [reflexivity|].
  intros t j k Ht Hj Hk.
  apply (hadslp_values_get 37 72 b0 blocks zs Hbodies Hzs t j k Ht Hj Hk).
Qed.

Lemma read_hadslp_values_swapped_and_reversed_witness :
  exists c,
    Slp.read_hadslp (lines_of [slp_block "2015 12"; slp_block "2016 1"]) = Ok c
    /\ get3 0%Q (Slp.data c) 0 2 0 = (inject_Z 12594 / 100)%Q
    /\ get3 0%Q (Slp.data c) 1 0 1 = (inject_Z 12520 / 100)%Q.
Proof.
  destruct (@read_hadslp_values_swapped_and_reversed (slp_block "2015 12")
              [slp_block "2016 1"] (2015, 12)%Z [(2016, 1)%Z]) as [c [E [_ H]]].
  - repeat constructor.
    + exists "2015"%string, "12"%string. repeat split; reflexivity.
    + exists "2016"%string, "1"%string. repeat split; reflexivity.
  - vm_compute. reflexivity.
  - reflexivity.
  - simpl. lia.
  - exists c. split; [exact E|]. split.
    + rewrite (H 0 2 0) by (simpl; lia). vm_compute. reflexivity.
    + rewrite (H 1 0 1) by (simpl; lia). vm_compute. reflexivity.
Defined.

Lemma consecutive_nth (dates : list (Z * Z)) :
  consecutive_months dates ->
  forall i d d', nth_error dates i = Some d -> nth_error dates (S i) = Some d' ->
                 d' = next_month d.
Proof.
  induction dates as [|a [|b dates] IH]; intros Hc i d d' Hi Hi'.
  - destruct i; discriminate.
  - destruct i as [|[|i]]; discriminate.
  - destruct Hc as [E Hc]. destruct i as [|i].
    + simpl in Hi, Hi'. inversion Hi; inversion Hi'; subst. reflexivity.
    + apply (IH Hc i d d'); assumption.
Qed.

(** Successive months are in the order of the calendar. *)
Lemma consecutive_increasing (dates : list (Z * Z)) :
  forallb date_ok dates = true -> consecutive_months dates ->
  increasing (map first_day dates).
Proof.
  induction dates as [|d [|d' dates] IH]; intros Hok Hc; [exact I|exact I|].
  destruct Hc as [E Hc].
  cbn [forallb] in Hok. apply andb_true_iff in Hok. destruct Hok as [Hd Hok].
  change (increasing (map first_day (d :: d' :: dates)))
    with ((first_day d < first_day d')%Z /\ increasing (map first_day (d' :: dates))).
  split; [|apply (IH Hok Hc)].
  apply date_ok_month in Hd. subst d'. destruct d as [y m]. cbn [fst snd] in Hd.
  pose proof (month_length y m Hd). pose proof (days_in_month_bounds y m Hd). lia.
Qed.

(** X9. In a file of successive months each time step follows the one
    before by the number of days of its month, between 28 and 31, so that
    the times increase strictly. *)
Theorem read_hadslp_successive_months
  (b0 : block) (blocks : list block) (d0 : Z * Z) (dates : list (Z * Z)) :
  Forall2 header_is (b0 :: blocks) (d0 :: dates) ->
  forallb (body_ok 37 72) (b0 :: blocks) = true ->
  forallb date_ok (d0 :: dates) = true ->
  consecutive_months (d0 :: dates) ->
  exists c,
    Slp.read_hadslp (lines_of (b0 :: blocks)) = Ok c
    /\ forall i d t t',
         nth_error (d0 :: dates) i = Some d ->
         nth_error (Slp.times c) i = Some t ->
         nth_error (Slp.times c) (S i) = Some t' ->
         (t' - t = Datetime._days_in_month (fst d) (snd d))%Z
         /\ (28 <= t' - t <= 31)%Z.
Proof.
  intros Hh Hb Hd Hc.
  destruct (read_hadslp_blocks b0 blocks d0 dates Hh Hb Hd
              (consecutive_increasing _ Hd Hc)) as [zs [_ E]].
  eexists. split; [exact E|]. cbn [Slp.times].
  intros i d t t' Hi Ht Ht'.
  rewrite nth_error_map in Ht, Ht'.
  rewrite Hi in Ht. cbn [option_map] in Ht. inversion Ht; subst t.
  destruct (nth_error (d0 :: dates) (S i)) as [d'|] eqn:Hi'; [|discriminate].
  cbn [option_map] in Ht'. inversion Ht'; subst t'.
  rewrite (consecutive_nth _ Hc i d d' Hi Hi').
  assert (Hm : (1 <= snd d <= 12)%Z).
  { apply date_ok_month. rewrite forallb_forall in Hd. apply Hd.
    apply (nth_error_In _ _ Hi). }
  replace (first_day (next_month d) - first_day d0 - (first_day d - first_day d0))%Z
    with (first_day (next_month d) - first_day d)%Z by lia.
  destruct d as [y m]. cbn [fst snd] in *.
  rewrite (month_length y m Hm). split; [reflexivity|].
  apply days_in_month_bounds. exact Hm.
Qed.

Lemma read_hadslp_successive_months_witness :
  exists c,
    Slp.read_hadslp (lines_of [slp_block "2015 12"; slp_block "2016 1"]) = Ok c
    /\ forall t t',
         nth_error (Slp.times c) 0 = Some t ->
         nth_error (Slp.times c) 1 = Some t' ->
         (t' - t = 31)%Z.
Proof.
  destruct (@read_hadslp_successive_months (slp_block "2015 12") [slp_block "2016 1"]
              (2015, 12)%Z [(2016, 1)%Z]) as [c [E H]].
  - repeat constructor.
    + exists "2015"%string, "12"%string. repeat split; reflexivity.
    + exists "2016"%string, "1"%string. repeat split; reflexivity.
  - vm_compute. reflexivity.
  - reflexivity.
  - simpl. split; [reflexivity|exact I].
  - exists c. split; [exact E|].
    intros t t' Ht Ht'.
    destruct (H 0 (2015, 12)%Z t t') as [D _]; [reflexivity|exact Ht|exact Ht'|].
    exact D.
Defined.

(** *** Files that [read_hadslp] refuses *)

Lemma for_enumerate_raise {A S : Type} (f : nat -> A -> S -> result S)
      (i : nat) (x : A) (l : list A) (s : S) (e : exn) :
  f i x s = Raise e -> for_enumerate f i (x :: l) s = Raise e.
Proof. intros E. simpl. now rewrite E. Qed.

(** X10. A file that is empty, or whose first line is not a header of two
    tokens, has no block to put its lines in: [this_month] is read before
    it is bound and [UnboundLocalError] is raised. *)
Theorem read_hadslp_needs_leading_header :
  Slp.read_hadslp [] = Raise UnboundLocalError
  /\ forall (line : string) (rest : list string),
      length (Py.split line) <> 2 ->
      Slp.read_hadslp (line :: rest) = Raise UnboundLocalError.
Proof.
  split; [reflexivity|].
  intros line rest Hline. unfold Slp.read_hadslp.
  rewrite (for_enumerate_raise Slp.read_line 0 line rest _ UnboundLocalError);
    [reflexivity|].
  unfold Slp.read_line. apply Nat.eqb_neq in Hline. rewrite Hline. reflexivity.
Qed.

Lemma read_hadslp_needs_leading_header_witness :
  Slp.read_hadslp ["10132 10140 10151"; "2015 12"; "10098 10105 10110"]%string
  = Raise UnboundLocalError.
Proof.
  destruct read_hadslp_needs_leading_header as [_ H].
  apply H. simpl. lia.
Defined.

(** The first element on which the body fails decides the error. *)
Lemma mapM_first_raise {A B : Type} (f : A -> result B) (pre post : list A)
      (x : A) (e : exn) :
  Forall (fun a => exists b, f a = Ok b) pre -> f x = Raise e ->
  mapM f (pre ++ x :: post) = Raise e.
Proof.
  intros Hpre Hx. induction Hpre as [|a pre [b Ha] _ IH]; simpl.
  - now rewrite Hx.
  - rewrite Ha. cbn [bind]. now rewrite IH.
Qed.

(** What [datetime] raises on a header that is no date: the arguments
    that fit no C integer are refused first. *)
Lemma make_invalid (d : Z * Z) :
  date_ok d = false ->
  Datetime.make (fst d) (snd d) 1
  = Raise (if Datetime.c_int (fst d) && Datetime.c_int (snd d)
           then ValueError else OverflowError).
Proof.
  unfold date_ok, Datetime.make.
  replace (Datetime.c_int 1) with true by reflexivity. rewrite andb_true_r.
  destruct (Datetime.c_int (fst d) && Datetime.c_int (snd d)).
  - destruct (_ && _)%bool; [discriminate|reflexivity].
  - reflexivity.
Qed.

(** X11. A header whose year or month is no date of the calendar makes
    [read_hadslp] raise, however well formed the blocks are: the first
    such header of the file decides, with a [ValueError] when its year
    and month fit a C integer (a month 13, a year 0) and an
    [OverflowError] when one of them does not. *)
Theorem read_hadslp_invalid_date_raises
  (r w : nat) (b0 : block) (blocks : list block) (d0 : Z * Z) (dates : list (Z * Z))
  (pre post : list (Z * Z)) (d : Z * Z) :
  w <> 2 -> 0 < r ->
  Forall2 header_is (b0 :: blocks) (d0 :: dates) ->
  forallb (body_ok r w) (b0 :: blocks) = true ->
  d0 :: dates = pre ++ d :: post ->
  forallb date_ok pre = true -> date_ok d = false ->
  Slp.read_hadslp (lines_of (b0 :: blocks))
  = Raise (if Datetime.c_int (fst d) && Datetime.c_int (snd d)
           then ValueError else OverflowError).
Proof.
  intros Hw Hr Hh Hb Hsplit Hpre Hd.
  destruct (read_hadslp_scanned r w b0 blocks d0 dates Hw Hr Hh Hb) as [zs [_ Hread]].
  rewrite Hread, Hsplit.
  rewrite (mapM_first_raise _ pre post d
             (if Datetime.c_int (fst d) && Datetime.c_int (snd d)
              then ValueError else OverflowError)); [reflexivity| |].
  - apply Forall_forall. intros a Ha.
    rewrite forallb_forall in Hpre.
    assert (H0 : date_ok d0 = true).
    { destruct pre as [|p pre']; [contradiction Ha|].
      inversion Hsplit; subst p. apply Hpre. now left. }
    eexists. apply (day_offset_ok d0 a H0 (Hpre a Ha)).
  - unfold Slp.day_offset. rewrite (make_invalid d Hd). reflexivity.
Qed.

Lemma read_hadslp_invalid_date_raises_witness :
  Slp.read_hadslp (lines_of [december_2015; mkblock "2015 13" (body january_2016)])
  = Raise ValueError
  /\ Slp.read_hadslp (lines_of [december_2015; mkblock "4294967296 1" (body january_2016)])
     = Raise OverflowError.
Proof.
  split.
  - apply (@read_hadslp_invalid_date_raises 2 3 december_2015
             [mkblock "2015 13" (body january_2016)] (2015, 12)%Z [(2015, 13)%Z]
             [(2015, 12)%Z] [] (2015, 13)%Z).
    + lia.
    + lia.
    + repeat constructor.
      * exists "2015"%string, "12"%string. repeat split; reflexivity.
      * exists "2015"%string, "13"%string. repeat split; reflexivity.
    + reflexivity.
    + reflexivity.
    + reflexivity.
    + reflexivity.
  - apply (@read_hadslp_invalid_date_raises 2 3 december_2015
             [mkblock "4294967296 1" (body january_2016)] (2015, 12)%Z [(4294967296, 1)%Z]
             [(2015, 12)%Z] [] (4294967296, 1)%Z).
    + lia.
    + lia.
    + repeat constructor.
      * exists "2015"%string, "12"%string. repeat split; reflexivity.
      * exists "4294967296"%string, "1"%string. repeat split; reflexivity.
    + reflexivity.
    + reflexivity.
    + reflexivity.
    + reflexivity.
Defined.

Lemma scan_body_any (lines : list string) :
  Forall (fun l => length (Py.split l) <> 2) lines ->
  forall (i : nat) (ys ms : list Z) (am : list (list (list string)))
         (cur : list (list string)),
    for_enumerate Slp.read_line i lines (Slp.mklocals ys ms am (Some cur))
    = Ok (Slp.mklocals ys ms am (Some (cur ++ map Py.split lines))).
Proof.
  induction 1 as [|l lines Hl _ IH]; intros i ys ms am cur; simpl.
  - now rewrite app_nil_r.
  - rewrite read_line_body by exact Hl. simpl.
    rewrite IH, <- app_assoc. reflexivity.
Qed.

Lemma scan_blocks_any (blocks : list block) (dates : list (Z * Z)) :
  Forall2 header_is blocks dates ->
  Forall (fun b => Forall (fun l => length (Py.split l) <> 2) (body b)) blocks ->
  forall (i : nat) (ys ms : list Z) (am : list (list (list string)))
         (cur : list (list string)),
    i <> 0 ->
    exists am' cur',
      for_enumerate Slp.read_line i (lines_of blocks) (Slp.mklocals ys ms am (Some cur))
      = Ok (Slp.mklocals (ys ++ map fst dates) (ms ++ map snd dates) am' (Some cur'))
      /\ am' ++ [cur'] = am ++ cur :: map block_tokens blocks.
Proof.
  intros Hheaders. induction Hheaders as [|b ym blocks dates Hb _ IH];
    intros Hbodies i ys ms am cur Hi.
  - exists am, cur. simpl. rewrite !app_nil_r. split; reflexivity.
  - inversion Hbodies as [|? ? Hbody Hrest]; subst.
    cbn [lines_of flat_map]. fold (lines_of blocks).
    cbn [app for_enumerate].
    rewrite (read_line_header i b ym ys ms am cur Hb Hi). cbn [bind].
    rewrite for_enumerate_app, (scan_body_any (body b) Hbody).
    cbn [bind app].
    destruct (IH Hrest (S i + length (body b)) (ys ++ [fst ym]) (ms ++ [snd ym])
                 (am ++ [cur]) (map Py.split (body b))) as [am' [cur' [E Hclosed]]];
      [lia|].
    exists am', cur'. rewrite E. split.
    + cbn [map]. now rewrite <- !app_assoc.
    + rewrite Hclosed, <- app_assoc. reflexivity.
Qed.

(** X12. Blocks that do not all have the number of lines of the first,
    as when the file is cut short in its last block, make no array of
    integers: [read_hadslp] raises [ValueError]. *)
Theorem read_hadslp_unequal_blocks_raise
  (b0 : block) (blocks : list block) (d0 : Z * Z) (dates : list (Z * Z)) :
  Forall2 header_is (b0 :: blocks) (d0 :: dates) ->
  Forall (fun b => Forall (fun l => length (Py.split l) <> 2) (body b)) (b0 :: blocks) ->
  Exists (fun b => length (body b) <> length (body b0)) blocks ->
  Slp.read_hadslp (lines_of (b0 :: blocks)) = Raise ValueError.
Proof.
  intros Hheaders Hbodies Hodd.
  inversion Hheaders as [|? ? ? ? Hb0 Hrest]; subst.
  inversion Hbodies as [|? ? Hbody0 Hbodies']; subst.
  destruct (scan_blocks_any blocks dates Hrest Hbodies' (1 + length (body b0))
              [fst d0] [snd d0] [] (map Py.split (body b0))) as [am' [cur' [Escan Hclosed]]];
    [lia|].
  assert (Eloop : for_enumerate Slp.read_line 0 (lines_of (b0 :: blocks))
                    (Slp.mklocals [] [] [] None)
                  = Ok (Slp.mklocals (fst d0 :: map fst dates) (snd d0 :: map snd dates)
                          am' (Some cur'))).
  { cbn [lines_of flat_map]. fold (lines_of blocks). cbn [app for_enumerate].
    rewrite (read_line_first_header b0 d0 Hb0). cbn [bind].
    rewrite for_enumerate_app, (scan_body_any (body b0) Hbody0).
    cbn [bind app]. exact Escan. }
  cbn [app] in Hclosed.
  change (map Py.split (body b0)) with (block_tokens b0) in Hclosed.
  assert (Harray : @array3 string (block_tokens b0 :: map block_tokens blocks)
                   = Raise ValueError).
  { unfold array3.
    assert (Hfalse : forallb (fun b' => length b' =? length (block_tokens b0))
                             (block_tokens b0 :: map block_tokens blocks) = false).
    { cbn [forallb]. rewrite Nat.eqb_refl. cbn [andb].
      clear -Hodd. induction Hodd as [b l Hb|b l _ IH]; cbn [map forallb].
      - unfold block_tokens. rewrite !length_map.
        apply Nat.eqb_neq in Hb. now rewrite Hb.
      - rewrite IH. apply andb_false_r. }
    now rewrite Hfalse. }
  unfold Slp.read_hadslp. rewrite Eloop.
  cbn [bind Slp.read_local Slp.this_month Slp.all_months].
  rewrite Hclosed, Harray. reflexivity.
Qed.

Lemma read_hadslp_unequal_blocks_raise_witness :
  Slp.read_hadslp
    (lines_of [december_2015; mkblock "2016 1" ["10121 10133 10144"]%string])
  = Raise ValueError.
Proof.
  apply (@read_hadslp_unequal_blocks_raise december_2015
           [mkblock "2016 1" ["10121 10133 10144"]%string] (2015, 12)%Z [(2016, 1)%Z]).
  - repeat constructor.
    + exists "2015"%string, "12"%string. repeat split; reflexivity.
    + exists "2016"%string, "1"%string. repeat split; reflexivity.
  - repeat constructor; simpl; lia.
  - constructor. simpl. lia.
Defined.

(** ** More on the ozone grid *)

(** Rows that do not complete a band are kept for the next turn. *)
Lemma accumulate_rows (nlon : nat) (rows : list (list Q)) :
  forall (i tl : nat) (g : ndarray cell) (acc : list Q),
    (forall n, n < length rows ->
               length acc + length (concat (firstn (S n) rows)) <> nlon) ->
    for_enumerate (fun _ => Soz.read_row nlon) i rows (Soz.mklocals g acc tl)
    = Ok (Soz.mklocals g (acc ++ concat rows) tl).
Proof.
  induction rows as [|row rows IH]; intros i tl g acc Hnever.
  - simpl. now rewrite app_nil_r.
  - cbn [for_enumerate]. unfold Soz.read_row at 1. cbn [Soz.this_lat Soz.grid Soz.tl].
    assert (H0 : length (acc ++ row) <> nlon).
    { specialize (Hnever 0 ltac:(simpl; lia)). cbn [firstn concat] in Hnever.
      rewrite app_nil_r in Hnever. now rewrite length_app. }
    apply Nat.eqb_neq in H0. rewrite H0. cbn [bind].
    rewrite IH.
    + cbn [concat]. now rewrite app_assoc.
    + intros n Hn. specialize (Hnever (S n) ltac:(simpl; lia)).
      change (firstn (S (S n)) (row :: rows)) with (row :: firstn (S n) rows) in Hnever.
      cbn [concat] in Hnever. rewrite length_app in Hnever.
      rewrite length_app. lia.
Qed.

Lemma length_concat_uniform {A : Type} (w : nat) (rows : list (list A)) :
  Forall (fun l => length l = w) rows -> length (concat rows) = length rows * w.
Proof.
  induction 1 as [|l rows Hl _ IH]; [reflexivity|].
  cbn [concat length]. rewrite length_app, IH, Hl. reflexivity.
Qed.

Lemma Forall_firstn {A : Type} (P : A -> Prop) (n : nat) (l : list A) :
  Forall P l -> Forall P (firstn n l).
Proof.
  intros H. rewrite <- (firstn_skipn n l) in H. apply Forall_app in H. tauto.
Qed.


(** X13. Rows whose width does not divide the number of longitudes never
    add up to a band: no band is written, and the grid is returned all
    zero without an error. *)
Theorem read_data_misaligned_rows_leave_zeros
  (lats lons : list Q) (hdr rows : list (list Q)) (w : nat) :
  length hdr = 4 -> 2 <= length rows -> 2 <= w ->
  Forall (fun l => length l = w) rows ->
  length lons mod w <> 0 ->
  exists c,
    Soz.read_data_axes lats lons (hdr ++ rows) = Ok c
    /\ flat (Soz.data c) = repeat (Some 0%Q) (length lats * length lons).
Proof.
  intros Hh Hn Hw Hu Hmod.
  pose proof (genfromtxt_uniform hdr rows w Hn Hw Hu) as Hload. rewrite Hh in Hload.
  assert (Hiter : Soz.iter_rows (mkarray [length rows; w] (concat rows)) = Ok rows).
  { unfold Soz.iter_rows. cbn [shape flat]. now rewrite chunks_concat. }
  unfold Soz.read_data_axes. cbv zeta.
  rewrite Hload. cbn [bind]. rewrite Hiter. cbn [bind].
  rewrite accumulate_rows.
  - cbn [bind Soz.grid]. rewrite masked_where_le_cells. cbn [bind].
    eexists. split; [reflexivity|]. cbn [Soz.data flat ma_zeros].
    rewrite map_repeat. unfold prod. cbn [fold_right]. rewrite Nat.mul_1_r.
    reflexivity.
  - intros n Hlt. cbn [length Nat.add].
    rewrite (length_concat_uniform w) by (apply Forall_firstn; exact Hu).
    intros E. apply Hmod. rewrite <- E. apply Nat.Div0.mod_mul.
Qed.

Lemma read_data_misaligned_rows_leave_zeros_witness :
  exists c,
    Soz.read_data_axes [1; 2]%Q [1; 2; 3; 4]%Q
      (repeat [] 4 ++ [[5; 6; 7]; [8; 9; 10]; [11; 12; 13]]%Q) = Ok c
    /\ flat (Soz.data c) = repeat (Some 0%Q) (2 * 4).
Proof.
  apply (@read_data_misaligned_rows_leave_zeros [1; 2]%Q [1; 2; 3; 4]%Q (repeat [] 4)
           [[5; 6; 7]; [8; 9; 10]; [11; 12; 13]]%Q 3).
  - reflexivity.
  - simpl. lia.
  - lia.
  - repeat constructor.
  - simpl. lia.
Defined.






(** X15. No value at or below the sentinel survives in a grid that
    [read_data] returns: each cell is masked or holds a value above
    -999. *)
Theorem read_data_masks_every_sentinel
  (lats lons : list Q) (file : list (list Q)) (c : Soz.cube) :
  Soz.read_data_axes lats lons file = Ok c ->
  Forall (fun cl : cell => match cl with
                           | Some x => ~ (x <= - (999))%Q
                           | None => True
                           end) (flat (Soz.data c)).
Proof.
  unfold Soz.read_data_axes. intros E.
  destruct (genfromtxt file 4 0) as [indata|e]; [|discriminate].
  cbn [bind] in E.
  destruct (Soz.iter_rows indata) as [rows|e]; [|discriminate].
  cbn [bind] in E.
  destruct (for_enumerate _ 0 rows _) as [st|e]; [|discriminate].
  cbn [bind] in E. rewrite masked_where_le_cells in E. cbn [bind] in E.
  inversion E; subst c. cbn [Soz.data flat].
  apply Forall_map, Forall_forall. intros [x|] _; [|exact I].
  destruct (Qle_bool x (- (999))) eqn:Hle; [exact I|].
  intros Hx. apply Qle_bool_iff in Hx. congruence.
Qed.

Lemma read_data_masks_every_sentinel_witness :
  Forall (fun cl : cell => match cl with
                           | Some x => ~ (x <= - (999))%Q
                           | None => True
                           end)
         [Some 5; None; Some 7; Some 8; Some 0; Some 0]%Q.
Proof.
  apply (@read_data_masks_every_sentinel [1; 2; 3]%Q [1; 2]%Q
           (repeat [] 4 ++ [[5; - (1000)]; [7; 8]]%Q)
           (Soz.make_iris_cube_2d
              (mkarray [3; 2] [Some 5; None; Some 7; Some 8; Some 0; Some 0]%Q)
              [1; 2; 3]%Q [1; 2]%Q "SOZ_anom" "DU")).
  reflexivity.
Defined.

(** X16. A file with nothing after its four lines of header is read
    as a grid of zeros, without an error; a file with a single row of
    data loads as an array of one dimension, whose entries are no rows,
    and [read_data] raises [TypeError]. *)
Theorem read_data_short_files (lats lons : list Q) :
  (forall file : list (list Q),
      length file = 4 ->
      exists c,
        Soz.read_data_axes lats lons file = Ok c
        /\ shape (Soz.data c) = [length lats; length lons]
        /\ flat (Soz.data c) = repeat (Some 0%Q) (length lats * length lons))
  /\ (forall (hdr : list (list Q)) (row : list Q),
        length hdr = 4 -> row <> [] ->
        Soz.read_data_axes lats lons (hdr ++ [row]) = Raise TypeError).
Proof.
  split.
  - intros file Hlen. unfold Soz.read_data_axes, genfromtxt. cbv zeta.
    rewrite skipn_all2 by lia. cbn [drop_blank bind Soz.iter_rows shape flat].
    cbn [for_enumerate bind Soz.grid]. rewrite masked_where_le_cells. cbn [bind].
    eexists. split; [reflexivity|]. cbn [Soz.data shape flat ma_zeros].
    split; [reflexivity|].
    rewrite map_repeat. unfold prod. cbn [fold_right]. rewrite Nat.mul_1_r. reflexivity.
  - intros hdr row Hh Hrow.
    assert (Hlen : length row <> 0) by (destruct row; [now contradiction Hrow|discriminate]).
    unfold Soz.read_data_axes, genfromtxt. cbv zeta.
    rewrite <- Hh, skipn_header.
    cbn [app drop_blank]. rewrite blank_false by exact Hlen.
    cbn [collect]. rewrite blank_false by exact Hlen.
    rewrite Nat.eqb_refl, after_loop_clean. unfold loaded, squeeze.
    cbn [bind length filter Nat.eqb negb concat]. rewrite app_nil_r.
    unfold Soz.iter_rows. cbn [shape flat].
    destruct row as [|x row]; [now contradiction Hrow|].
    destruct (length (x :: row) =? 1); reflexivity.
Qed.

Lemma read_data_short_files_witness :
  Soz.read_data_axes [1; 2]%Q [1; 2]%Q (repeat [] 4 ++ [[5; 6]%Q]) = Raise TypeError.
Proof.
  destruct (read_data_short_files [1; 2]%Q [1; 2]%Q) as [_ H].
  apply H; [reflexivity|discriminate].
Defined.

(** *** What a count of tokens that does not fill the grid gives *)

(** A single row of data is an array of one dimension, whose entries
    are no rows. *)
Lemma read_data_single_row (lats lons : list Q) (hdr : list (list Q)) (row : list Q) :
  length hdr = 4 -> row <> [] ->
  Soz.read_data_axes lats lons (hdr ++ [row]) = Raise TypeError.
Proof.
  intros Hh Hrow.
  assert (Hlen : length row <> 0) by (destruct row; [now contradiction Hrow|discriminate]).
  unfold Soz.read_data_axes, genfromtxt. cbv zeta.
  rewrite <- Hh, skipn_header.
  cbn [app drop_blank]. rewrite blank_false by exact Hlen.
  cbn [collect]. rewrite blank_false by exact Hlen.
  rewrite Nat.eqb_refl, after_loop_clean. unfold loaded, squeeze.
  cbn [bind length filter Nat.eqb negb concat]. rewrite app_nil_r.
  unfold Soz.iter_rows. cbn [shape flat].
  destruct row as [|x row]; [now contradiction Hrow|].
  destruct (length (x :: row) =? 1); reflexivity.
Qed.

(** C4, as the code has it.  A grid that [read_data] returns always has
    the declared shape.  A count of tokens that does not fill it is not
    an error of its own, and there is no [FormatError]: what the file
    gives depends on its lines.  With at least two rows, each of the width
    of a band, and no more rows than bands, the grid is returned with the
    bands that were not reached left at zero; with more such rows than
    bands the assignment of the row after the last band raises
    [IndexError].  A file in which some line has another count of columns
    than the first, as when the last line is one token short, raises the
    [ValueError] of the load; a file with a single row of data raises
    [TypeError]. *)
Theorem read_data_declared_shape_and_zero_fill (lats lons : list Q) :
  (forall (file : list (list Q)) (c : Soz.cube),
      Soz.read_data_axes lats lons file = Ok c ->
      shape (Soz.data c) = [length lats; length lons] /\ wf (Soz.data c))
  /\ (forall hdr rows : list (list Q),
        length hdr = 4 -> 2 <= length rows -> 2 <= length lons ->
        Forall (fun l => length l = length lons) rows ->
        (length rows <= length lats ->
         exists c,
           Soz.read_data_axes lats lons (hdr ++ rows) = Ok c
           /\ flat (Soz.data c)
              = map mask_value (concat rows)
                ++ repeat (Some 0%Q) ((length lats - length rows) * length lons))
        /\ (length lats < length rows ->
            Soz.read_data_axes lats lons (hdr ++ rows) = Raise IndexError))
  /\ (forall file : list (list Q),
        4 <= length file -> regular (data_lines file 4) = false ->
        Soz.read_data_axes lats lons file = Raise ValueError)
  /\ (forall (hdr : list (list Q)) (row : list Q),
        length hdr = 4 -> row <> [] ->
        Soz.read_data_axes lats lons (hdr ++ [row]) = Raise TypeError).
Proof.
  split; [|split; [|split]].
  - intros file c. apply read_data_axes_shape.
  - intros hdr rows. apply read_data_axes_rows.
  - intros file _ Hreg. unfold Soz.read_data_axes. cbv zeta.
    destruct (genfromtxt_strict file 4) as [_ Hraise].
    rewrite (Hraise Hreg). reflexivity.
  - intros hdr row. apply read_data_single_row.
Qed.

Lemma read_data_declared_shape_and_zero_fill_witness :
  (exists c,
      Soz.read_data_axes [1; 2; 3]%Q [1; 2]%Q (repeat [] 4 ++ [[5; - (999)]; [7; 8]]%Q) = Ok c
      /\ shape (Soz.data c) = [3; 2]
      /\ flat (Soz.data c) = [Some 5; None; Some 7; Some 8; Some 0; Some 0]%Q)
  /\ Soz.read_data_axes [1; 2; 3]%Q [1; 2]%Q
       (repeat [] 4 ++ [[5; 6]; [7; 8]; [9]]%Q) = Raise ValueError.
Proof.
  destruct (read_data_declared_shape_and_zero_fill [1; 2; 3]%Q [1; 2]%Q)
    as [Hshape [Hrows [Hragged _]]].
  split.
  - destruct (Hrows (repeat [] 4) [[5; - (999)]; [7; 8]]%Q) as [Hfew _].
    + reflexivity.
    + simpl. lia.
    + simpl. lia.
    + repeat constructor.
    + destruct Hfew as [c [E F]]; [simpl; lia|].
      exists c. split; [exact E|].
      split; [apply (Hshape _ c E)|exact F].
  - apply Hragged; [simpl; lia|reflexivity].
Defined.

(** ** More on the climatology and the anomalies *)

Lemma ma_sub_cells (x y : ndarray cell) :
  shape x = shape y -> length (flat x) = length (flat y) ->
  exists z,
    ma_sub x y = Ok z
    /\ shape z = shape x
    /\ forall idx, nth idx (flat z) None
                   = cell_sub (nth idx (flat x) None) (nth idx (flat y) None).
Proof.
  intros Hs Hl. unfold ma_sub. rewrite Hs, list_eq_dec_refl.
  eexists. split; [reflexivity|]. split; [reflexivity|].
  intros idx. cbn [flat].
  change (@None Q) with (cell_sub (fst (@None Q, @None Q)) (snd (@None Q, @None Q))) at 1.
  rewrite (map_nth (fun p => cell_sub (fst p) (snd p))).
  rewrite combine_nth by exact Hl. reflexivity.
Qed.

(** Two shapes that differ in their last axis, neither length being 1,
    do not broadcast, whatever axes come before. *)
Lemma broadcast_rev_last (l : list nat) (a b : nat) :
  a <> b -> a <> 1 -> b <> 1 -> broadcast_rev (l ++ [a]) (l ++ [b]) = None.
Proof.
  intros Hab Ha Hb. induction l as [|x l IH].
  - cbn [app broadcast_rev].
    apply Nat.eqb_neq in Hab. apply Nat.eqb_neq in Ha. apply Nat.eqb_neq in Hb.
    now rewrite Hab, Ha, Hb.
  - cbn [app broadcast_rev]. now rewrite IH.
Qed.

(** Arrays that differ in the length of their first axis only, neither
    length being 1, cannot be subtracted. *)
Lemma ma_sub_mismatch (x y : ndarray cell) (k n : nat) (rest : list nat) :
  shape x = k :: rest -> shape y = n :: rest ->
  k <> n -> k <> 1 -> n <> 1 ->
  ma_sub x y = Raise ValueError.
Proof.
  intros Hx Hy Hkn Hk Hn. unfold ma_sub. rewrite Hx, Hy.
  destruct (list_eq_dec Nat.eq_dec (k :: rest) (n :: rest)) as [E|_].
  - inversion E. contradiction.
  - unfold broadcast_shapes. cbn [rev].
    now rewrite (broadcast_rev_last (rev rest) k n Hkn Hk Hn).
Qed.

(** X17. The annual anomaly is the mean over the months of the final
    year of the differences between the data and the climatology: at a
    grid point it is masked exactly when at most 6 months have both,
    and otherwise it is the mean of the differences of the months that
    have both.  A final year of fewer or more than 12 months has not
    the shape of the climatology: unless it is a single month, which
    numpy repeats along the twelve of the climatology, the subtraction
    raises [ValueError]. *)
Theorem annual_anomaly_of_final_year (final_year clim : ndarray cell) :
  (forall k nlat nlon : nat,
      shape final_year = [k; nlat; nlon] -> shape clim = [12; nlat; nlon] ->
      k <> 12 -> k <> 1 ->
      Slp.annual_anomaly final_year clim = Raise ValueError)
  /\ forall nlat nlon : nat,
      shape final_year = [12; nlat; nlon] -> shape clim = [12; nlat; nlon] ->
      wf final_year -> wf clim ->
      exists annual,
        Slp.annual_anomaly final_year clim = Ok annual
        /\ shape annual = [nlat; nlon]
        /\ forall i k, i < nlat -> k < nlon ->
             let diffs :=
               map (fun m => cell_sub (get3 None final_year m i k) (get3 None clim m i k))
                   (seq 0 12) in
             (is_masked (get2 None annual i k) = true <-> count1 diffs <= 6)
             /\ match get2 None annual i k with
                | Some v => (v == plain_mean (valid diffs))%Q
                | None => True
                end.
Proof.
  split.
  - intros k nlat nlon Hsf Hsc Hk Hk1. unfold Slp.annual_anomaly.
    rewrite (ma_sub_mismatch final_year clim k 12 [nlat; nlon] Hsf Hsc Hk Hk1 ltac:(lia)).
    reflexivity.
  - intros nlat nlon Hsf Hsc Hwf Hwc.
    destruct (ma_sub_cells final_year clim) as [anoms [Esub [Hsa Hcells]]].
    { now rewrite Hsf, Hsc. }
    { rewrite (wf_3d final_year _ _ _ Hsf Hwf), (wf_3d clim _ _ _ Hsc Hwc). reflexivity. }
    rewrite Hsf in Hsa.
    unfold Slp.annual_anomaly. rewrite Esub. cbn [bind].
    rewrite (annual_mean_gt_cells 6 12 nlat nlon anoms Hsa).
    eexists. split; [reflexivity|]. split; [reflexivity|].
    intros i k Hi Hk.
    set (diffs := map (fun m => cell_sub (get3 None final_year m i k) (get3 None clim m i k))
                      (seq 0 12)).
    assert (Hcol : column anoms (i * nlon + k) = diffs).
    { rewrite (column_months 12 nlat nlon anoms i k Hsa). unfold cells_at, diffs.
      apply map_ext. intros m. unfold get3. rewrite Hsa, Hsf, Hsc. apply Hcells. }
    unfold get2. cbn [shape flat nth].
    rewrite nth_map_seq by (unfold prod; simpl; nia).
    rewrite Hcol. split; [apply mask_if_few|].
    destruct (count1 diffs <=? 6); cbn [mask_if]; [exact I|].
    pose proof (mean1_valid diffs) as Hmean.
    destruct (mean1 diffs); [tauto|exact I].
Qed.

Lemma annual_anomaly_of_final_year_witness :
  (exists annual,
      Slp.annual_anomaly five_masked (mkarray [12; 1; 1] (repeat (Some 1%Q) 12)) = Ok annual
      /\ is_masked (get2 None annual 0 0) = false)
  /\ Slp.annual_anomaly (mkarray [11; 1; 1] (repeat (Some 2%Q) 11))
                        (mkarray [12; 1; 1] (repeat (Some 1%Q) 12)) = Raise ValueError.
Proof.
  split.
  - destruct (annual_anomaly_of_final_year five_masked
                (mkarray [12; 1; 1] (repeat (Some 1%Q) 12))) as [_ H].
    destruct (H 1 1) as [annual [E [_ Hcell]]]; try reflexivity.
    exists annual. split; [exact E|].
    destruct (Hcell 0 0) as [Hiff _]; [lia|lia|].
    apply not_true_is_false. intros C. apply Hiff in C.
    vm_compute in C. lia.
  - destruct (annual_anomaly_of_final_year (mkarray [11; 1; 1] (repeat (Some 2%Q) 11))
                (mkarray [12; 1; 1] (repeat (Some 1%Q) 12))) as [H _].
    apply (H 11 1 1); [reflexivity|reflexivity|lia|lia].
Defined.

Lemma count1_all_present (col : list cell) :
  Forall (fun c => c <> None) col -> count1 col = length col.
Proof.
  unfold count1. induction 1 as [|c col Hc _ IH]; [reflexivity|].
  destruct c as [x|]; [|now contradiction Hc]. simpl. now rewrite IH.
Qed.

(** X18. A cell of the climatology that is not masked holds the mean of
    the values of the years that are present for its month, more than
    [min_years] of them.  When no value of the reference window is
    masked, every year is present and a cell is masked exactly when the
    window has at most [min_years] years. *)
Theorem climatology_is_mean_of_years_present
  (min_years nyr nlat nlon : nat) (d : ndarray cell) :
  shape d = [12 * nyr; nlat; nlon] -> 0 < nlat -> 0 < nlon ->
  exists clim,
    Slp.climatology_gt min_years d = Ok clim
    /\ forall m i k, m < 12 -> i < nlat -> k < nlon ->
         let years := cells_at d nyr (fun y => 12 * y + m) i k in
         match get3 None clim m i k with
         | Some v => (v == plain_mean (valid years))%Q /\ min_years < length (valid years)
         | None => True
         end
         /\ (wf d -> Forall (fun c => c <> None) (flat d) ->
             (is_masked (get3 None clim m i k) = true <-> nyr <= min_years)).
Proof.
  intros Hs H1 H2.
  eexists. split; [apply (climatology_gt_whole_years min_years _ _ _ d Hs H1 H2)|].
  intros m i k Hm Hi Hk.
  set (years := cells_at d nyr (fun y => 12 * y + m) i k).
  unfold get3. cbn [shape flat nth].
  rewrite nth_map_seq by (rewrite prod_plane; apply plane_index_bound; assumption).
  cbv zeta. rewrite (column_years nyr nlat nlon d m i k Hs). fold years.
  split.
  - destruct (count1 years <=? min_years) eqn:E; cbn [mask_if]; [exact I|].
    apply Nat.leb_gt in E. rewrite count1_valid in E.
    pose proof (mean1_valid years) as Hmean.
    destruct (mean1 years); [|exact I]. split; [tauto|exact E].
  - intros Hwf Hall.
    assert (Hcount : count1 years = nyr).
    { rewrite count1_all_present.
      - unfold years, cells_at. now rewrite length_map, length_seq.
      - unfold years, cells_at. apply Forall_map, Forall_forall.
        intros y Hy. apply in_seq in Hy.
        rewrite Forall_forall in Hall. apply Hall.
        unfold get3. rewrite Hs. cbn [nth]. apply nth_In.
        rewrite (wf_3d d _ _ _ Hs Hwf).
        apply plane_index_bound; lia. }
    rewrite <- Hcount. apply mask_if_few.
Qed.

Lemma climatology_is_mean_of_years_present_witness :
  exists clim,
    Slp.climatology_gt 1 (mkarray [12 * 2; 1; 1] (repeat (Some 3%Q) 24)) = Ok clim
    /\ is_masked (get3 None clim 0 0 0) = false.
Proof.
  destruct (@climatology_is_mean_of_years_present 1 2 1 1
              (mkarray [12 * 2; 1; 1] (repeat (Some 3%Q) 24))) as [clim [E H]].
  - reflexivity.
  - lia.
  - lia.
  - exists clim. split; [exact E|].
    destruct (H 0 0 0) as [_ Hfull]; [lia|lia|lia|].
    apply not_true_is_false. intros C. apply Hfull in C.
    + lia.
    + reflexivity.
    + apply Forall_forall. intros c Hc. apply repeat_spec in Hc. now subst c.
Defined.

(** X19. The anomalies of the series are masked exactly where the data
    or the climatology of the month is masked. *)
Theorem tiled_anomalies_masked_where_either_is
  (n nlat nlon : nat) (series clim : ndarray cell) :
  shape series = [n; nlat; nlon] -> wf series ->
  shape clim = [12; nlat; nlon] -> wf clim ->
  exists anoms,
    Slp.tiled_anomalies series clim = Ok anoms
    /\ forall i j k, i < n -> j < nlat -> k < nlon ->
         is_masked (get3 None anoms i j k)
         = is_masked (get3 None series i j k)
           || is_masked (get3 None clim (i mod 12) j k).
Proof.
  intros Hss Hws Hsc Hwc.
  destruct (tiled_slice n nlat nlon clim Hsc Hwc) as [Hshape [Hlen Hget]].
  destruct (ma_sub_cells series (slice0 (tile0 clim (n / 12 + 1)) n))
    as [anoms [Esub [Hsa Hcells]]].
  { now rewrite Hss, Hshape. }
  { rewrite Hlen. apply (wf_3d series _ _ _ Hss Hws). }
  exists anoms. split.
  - unfold Slp.tiled_anomalies, Slp.shape0. rewrite Hss. cbn [bind]. exact Esub.
  - intros i j k Hi Hj Hk.
    rewrite <- (Hget i j k Hi Hj Hk).
    unfold get3. rewrite Hsa, Hss, Hshape. cbn [nth]. rewrite Hcells.
    destruct (nth _ (flat series) None), (nth _ (flat (slice0 _ n)) None); reflexivity.
Qed.

Lemma tiled_anomalies_masked_where_either_is_witness :
  exists anoms,
    Slp.tiled_anomalies
      (mkarray [13; 1; 1] (repeat (Some 0%Q) 13))
      (mkarray [12; 1; 1] (None :: repeat (Some 1%Q) 11)) = Ok anoms
    /\ is_masked (get3 None anoms 12 0 0) = true
    /\ is_masked (get3 None anoms 11 0 0) = false.
Proof.
  destruct (@tiled_anomalies_masked_where_either_is 13 1 1
              (mkarray [13; 1; 1] (repeat (Some 0%Q) 13))
              (mkarray [12; 1; 1] (None :: repeat (Some 1%Q) 11)))
    as [anoms [E Hmask]]; try reflexivity.
  exists anoms. split; [exact E|]. split.
  - rewrite (Hmask 12 0 0) by lia. reflexivity.
  - rewrite (Hmask 11 0 0) by lia. reflexivity.
Defined.

(** ** The daily NAO of a winter *)

Lemma trunc_inject_Z (z : Z) : trunc (inject_Z z) = z.
Proof. unfold trunc, inject_Z. cbn [Qnum Qden]. apply Z.quot_1_r. Qed.

Lemma valid_date_bounds (t : Datetime.datetime) :
  valid_date t = true ->
  (1 <= Datetime.month t <= 12)%Z
  /\ (1 <= Datetime.day t <= Datetime._days_in_month (Datetime.year t) (Datetime.month t))%Z.
Proof.
  unfold valid_date, Datetime.make.
  destruct (Datetime.c_int _ && _ && _)%bool; [|discriminate].
  destruct (_ && _)%bool eqn:E; [|discriminate].
  intros _. repeat (apply andb_true_iff in E; destruct E as [E ?]). lia.
Qed.

Lemma days_before_month_nonneg (y m : Z) :
  (1 <= m <= 12)%Z -> (0 <= Datetime._days_before_month y m)%Z.
Proof.
  intros Hm.
  assert (Hcases : (m = 1 \/ m = 2 \/ m = 3 \/ m = 4 \/ m = 5 \/ m = 6 \/ m = 7
                    \/ m = 8 \/ m = 9 \/ m = 10 \/ m = 11 \/ m = 12)%Z) by lia.
  unfold Datetime._days_before_month.
  destruct (Datetime._is_leap y);
    repeat (destruct Hcases as [E|Hcases]; [subst m|]); try subst m;
    vm_compute; discriminate.
Qed.

(** Within a year the ordinal follows the month and the day. *)
Lemma toordinal_lt_same_year (y m d m' d' : Z) :
  valid_date (Datetime.mkdt y m d) = true ->
  valid_date (Datetime.mkdt y m' d') = true ->
  (m < m')%Z \/ (m = m' /\ d < d')%Z ->
  (Datetime.toordinal (Datetime.mkdt y m d) < Datetime.toordinal (Datetime.mkdt y m' d'))%Z.
Proof.
  intros Hv Hv' Hlt.
  apply valid_date_bounds in Hv. apply valid_date_bounds in Hv'.
  cbn [Datetime.year Datetime.month Datetime.day] in Hv, Hv'.
  unfold Datetime.toordinal, Datetime._ymd2ord.
  cbn [Datetime.year Datetime.month Datetime.day].
  destruct Hlt as [Hlt|[E Hlt]].
  - pose proof (days_before_month_step y m m' ltac:(lia) Hlt ltac:(lia)). lia.
  - subst m'. lia.
Qed.

(** A day of December comes before every day of the year after. *)
Lemma toordinal_december_lt_next_year (y d m' d' : Z) :
  valid_date (Datetime.mkdt y 12 d) = true ->
  valid_date (Datetime.mkdt (y + 1) m' d') = true ->
  (Datetime.toordinal (Datetime.mkdt y 12 d)
   < Datetime.toordinal (Datetime.mkdt (y + 1) m' d'))%Z.
Proof.
  intros Hv Hv'.
  apply valid_date_bounds in Hv. apply valid_date_bounds in Hv'.
  cbn [Datetime.year Datetime.month Datetime.day] in Hv, Hv'.
  unfold Datetime.toordinal, Datetime._ymd2ord.
  cbn [Datetime.year Datetime.month Datetime.day].
  pose proof (year_length y) as Hy.
  pose proof (days_before_month_nonneg (y + 1) m' ltac:(lia)) as Hnn.
  assert (Hdec : (Datetime._days_before_month y 12 + Datetime._days_in_month y 12
                  = 365 + (if Datetime._is_leap y then 1 else 0))%Z).
  { unfold Datetime._days_before_month, Datetime._days_in_month.
    destruct (Datetime._is_leap y); reflexivity. }
  lia.
Qed.

Lemma mapM_of_map {A B C : Type} (h : A -> B) (f : B -> result C) (l : list A) :
  mapM f (map h l) = mapM (fun x => f (h x)) l.
Proof.
  induction l as [|x l IH]; simpl; [reflexivity|].
  now rewrite IH.
Qed.

Lemma make_valid (t : Datetime.datetime) :
  valid_date t = true ->
  Datetime.make (Datetime.year t) (Datetime.month t) (Datetime.day t) = Ok t.
Proof.
  unfold valid_date, Datetime.make. destruct t as [y m d].
  cbn [Datetime.year Datetime.month Datetime.day].
  destruct (Datetime.c_int _ && _ && _)%bool; [|discriminate].
  destruct (_ && _)%bool; [reflexivity|discriminate].
Qed.

Lemma winter_pair_lt (y : Z) (md md' : Z * Z) :
  valid_date (winter_date y md) = true ->
  valid_date (winter_date y md') = true ->
  (winter_rank (fst md) < winter_rank (fst md'))%Z
  \/ (fst md = fst md' /\ snd md < snd md')%Z ->
  (Datetime.toordinal (winter_date y md) < Datetime.toordinal (winter_date y md'))%Z.
Proof.
  destruct md as [m d], md' as [m' d']. unfold winter_date, winter_rank.
  cbn [fst snd]. intros Hv Hv' Hord.
  pose proof (valid_date_bounds _ Hv) as [Hm _].
  pose proof (valid_date_bounds _ Hv') as [Hm' _].
  cbn [Datetime.month] in Hm, Hm'.
  destruct (m <? 12)%Z eqn:E; destruct (m' <? 12)%Z eqn:E';
    rewrite ?Z.ltb_lt, ?Z.ltb_ge in E, E';
    destruct (m =? 12)%Z eqn:E12; destruct (m' =? 12)%Z eqn:E12';
    rewrite ?Z.eqb_eq, ?Z.eqb_neq in E12, E12'; try lia.
  - apply toordinal_lt_same_year; assumption.
  - assert (m = 12)%Z by lia. subst m.
    apply toordinal_december_lt_next_year; assumption.
  - apply toordinal_lt_same_year; try assumption. lia.
Qed.

Lemma winter_order_increasing (y : Z) (mds : list (Z * Z)) :
  Forall (fun md => valid_date (winter_date y md) = true) mds ->
  winter_order mds ->
  increasing (map Datetime.toordinal (map (winter_date y) mds)).
Proof.
  induction mds as [|md [|md' mds] IH]; intros Hv Ho; [exact I|exact I|].
  destruct Ho as [Hstep Ho].
  inversion Hv as [|? ? Hv0 Hv']; subst.
  inversion Hv' as [|? ? Hv1 _]; subst.
  cbn [map increasing]. split; [|apply (IH Hv' Ho)].
  apply winter_pair_lt; assumption.
Qed.

(** X20. [read_winter_nao] dates the rows of December in the year of the
    file and the rows of the other months in the year after, so that a
    file in the order of the winter, December then the new year, has
    strictly increasing dates; the series and the smoothed series have a
    value for each row, masked where it is at or below -99.99, and the
    series is named after the two years. *)
Theorem read_winter_nao_dates_across_new_year
  (files : string -> list (list Q)) (data_loc y : string) (yi next : Z)
  (hdr rows : list (list Q)) (c : nat) (mds : list (Z * Z)) :
  files (winter_file data_loc y) = hdr ++ rows ->
  length hdr = 1 -> 2 <= length rows -> 4 <= c ->
  Forall (fun l => length l = c) rows ->
  col 0 rows = map (fun md => inject_Z (fst md)) mds ->
  col 1 rows = map (fun md => inject_Z (snd md)) mds ->
  Py.int y = Ok yi -> Py.int (Py.drop 2 y) = Ok next ->
  Forall (fun md => valid_date (winter_date yi md) = true) mds ->
  exists ts smoothed,
    Slp.read_winter_nao files data_loc [y] = Ok ([ts], [smoothed])
    /\ Slp.w_name ts = String.append y (String.append "/" (Py.str (next + 1)))
    /\ Slp.w_times ts = map (winter_date yi) mds
    /\ Slp.w_data ts = masked_le (col 2 rows) (- (9999 # 100))%Q
    /\ smoothed = masked_le (col 3 rows) (- (9999 # 100))%Q
    /\ length (Slp.w_times ts) = length rows
    /\ length (Slp.w_data ts) = length rows
    /\ length smoothed = length rows
    /\ (winter_order mds -> increasing (map Datetime.toordinal (Slp.w_times ts))).
Proof.
  intros Hfile Hh Hn Hc Hu H0 H1 Hy Hnext Hvalid.
  assert (Hc2 : 2 <= c) by lia.
  pose proof (genfromtxt_uniform hdr rows c Hn Hc2 Hu) as Hload. rewrite Hh in Hload.
  assert (Hlen : length mds = length rows).
  { rewrite <- (length_col 0 rows), H0. now rewrite length_map. }
  assert (Hdates : mapM (fun ymd => Datetime.make (fst (fst ymd)) (snd (fst ymd)) (snd ymd))
                     (combine (combine (map (fun m => if (m <? 12)%Z then (yi + 1)%Z else yi)
                                            (map trunc (col 0 rows)))
                                       (map trunc (col 0 rows)))
                              (map trunc (col 1 rows)))
                   = Ok (map (winter_date yi) mds)).
  { rewrite H0, H1, !map_map.
    rewrite (map_ext (fun md => trunc (inject_Z (fst md))) fst)
      by (intros md; apply trunc_inject_Z).
    rewrite (map_ext (fun md => trunc (inject_Z (snd md))) snd)
      by (intros md; apply trunc_inject_Z).
    rewrite (map_ext (fun md => if (trunc (inject_Z (fst md)) <? 12)%Z then (yi + 1)%Z else yi)
                     (fun md => if (fst md <? 12)%Z then (yi + 1)%Z else yi))
      by (intros md; now rewrite trunc_inject_Z).
    rewrite !combine_map_same, mapM_of_map. apply mapM_map.
    revert Hvalid. apply Forall_impl.
    intros md Hv. cbn [fst snd]. apply (make_valid _ Hv). }
  eexists. eexists. split.
  - cbn [Slp.read_winter_nao]. fold (winter_file data_loc y).
    rewrite Hfile, Hload. cbn [bind]. unfold Slp.read_winter.
    rewrite !(column_of_rows c _ rows Hu) by lia. cbn [bind].
    rewrite Hy. cbn [bind]. rewrite Hdates. cbn [bind].
    rewrite Hnext. cbn [bind fst snd]. reflexivity.
  - cbn [Slp.w_name Slp.w_times Slp.w_data].
    repeat (split; [reflexivity|]).
    split; [now rewrite length_map|].
    split; [unfold masked_le; now rewrite length_map, length_col|].
    split; [unfold masked_le; now rewrite length_map, length_col|].
    apply winter_order_increasing. exact Hvalid.
Qed.

Lemma read_winter_nao_dates_across_new_year_witness :
  exists ts smoothed,
    Slp.read_winter_nao
      (fun _ => [[]] ++ [[12; 31; 5; 4]; [1; 1; - (100); 3]; [2; 29; 7; 2]]%Q)
      "/data/" ["2015"%string] = Ok ([ts], [smoothed])
    /\ Slp.w_name ts = "2015/16"%string
    /\ Slp.w_data ts = [Some 5; None; Some 7]%Q
    /\ increasing (map Datetime.toordinal (Slp.w_times ts)).
Proof.
  destruct (@read_winter_nao_dates_across_new_year
              (fun _ => [[]] ++ [[12; 31; 5; 4]; [1; 1; - (100); 3]; [2; 29; 7; 2]]%Q)
              "/data/" "2015" 2015%Z 15%Z [[]]
              [[12; 31; 5; 4]; [1; 1; - (100); 3]; [2; 29; 7; 2]]%Q 4
              [(12, 31); (1, 1); (2, 29)]%Z)
    as [ts [sm [E [N [_ [D [_ [_ [_ [_ I]]]]]]]]]].
  - reflexivity.
  - reflexivity.
  - simpl. lia.
  - lia.
  - repeat constructor.
  - reflexivity.
  - reflexivity.
  - reflexivity.
  - reflexivity.
  - repeat constructor.
  - exists ts, sm. split; [exact E|]. split; [exact N|]. split; [exact D|].
    apply I. simpl. unfold winter_rank. simpl. lia.
Defined.

(** ** Masked entries in the means *)




